(** * Blog-Writer-Agent: the LangGraph pipeline, its text metrics and parsers

    A shallow embedding of [models.py], [graph.py], [main.py],
    [formatters/medium_formatter.py] and the meta-description step of
    [agents/seo_agent.py].

    Python's [str] is a sequence of Unicode code points, its [int] is
    unbounded: strings are lists of code points ([N]), integers are [Z]. *)

From Stdlib Require Import String Ascii DecimalString.
From Stdlib Require Import List ZArith NArith Lia Bool Arith.
Import ListNotations.

Set Implicit Arguments.

(* ================================================================== *)
(** * Python strings *)
(* ================================================================== *)

Module Py.

Definition char := N.
Definition str := list char.

(** Code points of an ASCII literal. *)
Definition of_string (s : string) : str :=
  map N_of_ascii (list_ascii_of_string s).

(** [str.isspace] on one code point, which is also what [\s] matches in
    a [str] pattern: the code points CPython lists as whitespace. *)
Definition isspace (c : char) : bool :=
  (((9 <=? c) && (c <=? 13)) || ((28 <=? c) && (c <=? 32))
   || (c =? 133) || (c =? 160) || (c =? 5760)
   || ((8192 <=? c) && (c <=? 8202))
   || (c =? 8232) || (c =? 8233) || (c =? 8239) || (c =? 8287)
   || (c =? 12288))%N.

Definition NL : char := 10%N.        (* "\n" *)
Definition PIPE : char := 124%N.     (* "|" *)
Definition UNDERSCORE : char := 95%N.
Definition HYPHEN : char := 45%N.

Fixpoint dropwhile (p : char -> bool) (s : str) : str :=
  match s with
  | [] => []
  | c :: s' => if p c then dropwhile p s' else s
  end.

(** [s.lstrip()], [s.rstrip()], [s.strip()], and [s.strip(chars)] for a
    one-character [chars]. *)
Definition lstrip_with (p : char -> bool) (s : str) : str := dropwhile p s.
Definition rstrip_with (p : char -> bool) (s : str) : str :=
  rev (dropwhile p (rev s)).
Definition strip_with (p : char -> bool) (s : str) : str :=
  rstrip_with p (lstrip_with p s).
Definition strip (s : str) : str := strip_with isspace s.
Definition strip_char (c : char) (s : str) : str := strip_with (N.eqb c) s.

(** [s.startswith(p)] *)
Fixpoint startswith (p s : str) : bool :=
  match p, s with
  | [], _ => true
  | _ :: _, [] => false
  | a :: p', b :: s' => (a =? b)%N && startswith p' s'
  end.

(** [s.endswith(p)] *)
Definition endswith (p s : str) : bool := startswith (rev p) (rev s).

(** [s.split()] : maximal runs of non-whitespace, in order.  [cur] holds
    the run being read, reversed. *)
Fixpoint split_ws_from (cur : str) (s : str) : list str :=
  match s with
  | [] => match cur with [] => [] | _ => [rev cur] end
  | c :: s' =>
      if isspace c
      then match cur with
           | [] => split_ws_from [] s'
           | _ => rev cur :: split_ws_from [] s'
           end
      else split_ws_from (c :: cur) s'
  end.

Definition split_ws (s : str) : list str := split_ws_from [] s.

(** [s.split(sep)] for a one-character separator: every separator cuts,
    empty pieces are kept, and the empty string gives one empty piece. *)
Fixpoint split_on (sep : char) (s : str) : list str :=
  match s with
  | [] => [[]]
  | c :: s' =>
      if (c =? sep)%N then [] :: split_on sep s'
      else match split_on sep s' with
           | l :: ls => (c :: l) :: ls
           | [] => [[c]]
           end
  end.

(** [sep.join(parts)] *)
Fixpoint join (sep : str) (parts : list str) : str :=
  match parts with
  | [] => []
  | [p] => p
  | p :: ps => p ++ sep ++ join sep ps
  end.

(** [s.count(sub)]: occurrences found left to right without overlap.
    [skip] is the number of characters still covered by the last
    occurrence found. *)
Fixpoint count_from (sub : str) (skip : nat) (s : str) : nat :=
  match s with
  | [] => 0
  | _ :: s' =>
      match skip with
      | S k => count_from sub k s'
      | O => if startswith sub s
             then S (count_from sub (length sub - 1) s')
             else count_from sub 0 s'
      end
  end.

Definition count (sub s : str) : nat :=
  match sub with
  | [] => S (length s)
  | _ => count_from sub 0 s
  end.

(** [str(n)] for an integer. *)
Definition str_of_int (z : Z) : str :=
  of_string (NilZero.string_of_int (Z.to_int z)).

(** Groups of three digits from the right, joined by commas: the digits
    of [format(n, ",")].  [ds] is the digit string, most significant
    first. *)
Fixpoint group3_rev (ds : str) (k : nat) : str :=
  match ds with
  | [] => []
  | d :: ds' =>
      match k with
      | O => d :: match ds' with [] => [] | _ => 44%N :: group3_rev ds' 2 end
      | S k' => d :: group3_rev ds' k'
      end
  end.

(** [format(n, ",")], written [f"{n:,}"] in the source. *)
Definition format_thousands (z : Z) : str :=
  let body := rev (group3_rev (rev (str_of_int (Z.abs z))) 2) in
  if (z <? 0)%Z then HYPHEN :: body else body.

(** [a // b] on integers: Python floors, as [Z.div] does. *)
Definition floordiv (a b : Z) : Z := (a / b)%Z.

(** What the program takes from the interpreter's Unicode tables:
    [str.lower], [str.title], and the decimal value of the non-ASCII
    code points of category Nd (which [\d] matches and [int] reads). *)
Record Runtime := {
  str_lower : str -> str;
  str_title : str -> str;
  nonascii_digit : char -> option N
}.

End Py.
Export Py.

(* ================================================================== *)
(** * The fragment of Python's [re] the program uses *)
(* ================================================================== *)

Module Re.

(** Patterns.  [Chr p] is one character of a class; [Opt] and [Star] are
    the greedy [?] and [*]; [Grp] is the (single) capturing group. *)
Inductive regex : Type :=
| Eps
| Chr (p : char -> bool)
| Seq (r1 r2 : regex)
| Opt (r : regex)
| Star (r : regex)
| Grp (r : regex).

(** [r+] *)
Definition Plus (r : regex) : regex := Seq r (Star r).

(** A literal string, each character compared with [eqc pattern text]. *)
Fixpoint Lit (eqc : char -> char -> bool) (l : str) : regex :=
  match l with
  | [] => Eps
  | a :: l' => Seq (Chr (eqc a)) (Lit eqc l')
  end.

Section Matcher.
Variable R : Type.

(** A continuation receives the input still unread and the text of
    group 1, if the group has been closed. *)
Definition cont := str -> option str -> option R.

Section Loop.
Variable body : str -> option str -> cont -> option R.
Variable k : cont.

(** The greedy loop of [*]: one more round of [body] is tried before
    leaving the loop.  A round that consumes nothing is not taken; every
    body in this program consumes at least one character, so [n], the
    length of the input, bounds the rounds. *)
Fixpoint star_loop (n : nat) (s : str) (g : option str) {struct n}
  : option R :=
  match n with
  | O => k s g
  | S n' =>
      match body s g
              (fun s' g' =>
                 if length s' <? length s then star_loop n' s' g'
                 else None) with
      | Some x => Some x
      | None => k s g
      end
  end.
End Loop.

(** Backtracking matcher: alternatives are tried in the order of the
    engine (more repetitions first), and the first complete match
    wins. *)
Fixpoint m (r : regex) (s : str) (g : option str) (k : cont) {struct r}
  : option R :=
  match r with
  | Eps => k s g
  | Chr p =>
      match s with
      | c :: s' => if p c then k s' g else None
      | [] => None
      end
  | Seq r1 r2 => m r1 s g (fun s' g' => m r2 s' g' k)
  | Opt r1 =>
      match m r1 s g k with
      | Some x => Some x
      | None => k s g
      end
  | Star r1 => star_loop (m r1) k (length s) s g
  | Grp r1 =>
      m r1 s g (fun s' _ => k s' (Some (firstn (length s - length s') s)))
  end.
End Matcher.

(** [re.match]: group 1 and the input after the match. *)
Definition re_match (r : regex) (s : str) : option (option str * str) :=
  m r s None (fun s' g => Some (g, s')).

(** [re.search]: the match at the leftmost position that has one. *)
Fixpoint search (r : regex) (s : str) : option (option str * str) :=
  match re_match r s with
  | Some x => Some x
  | None =>
      match s with
      | [] => None
      | _ :: s' => search r s'
      end
  end.

(** [m.group(1)] : a group that took no part in the match reads as the
    empty string in [findall]. *)
Definition group1 (g : option str) : str :=
  match g with Some x => x | None => [] end.

(** [re.findall] for a pattern with one group: group 1 of each match,
    scanning left to right, matches not overlapping. *)
Fixpoint findall_fuel (n : nat) (r : regex) (s : str) : list str :=
  match n with
  | O => []
  | S n' =>
      let next := match s with [] => [] | _ :: s' => findall_fuel n' r s' end in
      match re_match r s with
      | Some (g, rest) =>
          group1 g :: (if length rest <? length s
                       then findall_fuel n' r rest else next)
      | None => next
      end
  end.

Definition findall (r : regex) (s : str) : list str :=
  findall_fuel (S (length s)) r s.

(** [re.sub(r, repl, s)] for a constant replacement. *)
Fixpoint sub_fuel (n : nat) (r : regex) (repl s : str) : str :=
  match n with
  | O => s
  | S n' =>
      let next :=
        match s with [] => [] | c :: s' => c :: sub_fuel n' r repl s' end in
      match re_match r s with
      | Some (_, rest) =>
          if length rest <? length s
          then repl ++ sub_fuel n' r repl rest
          else repl ++ next
      | None => next
      end
  end.

Definition sub (r : regex) (repl s : str) : str :=
  sub_fuel (S (length s)) r repl s.

(** ** Character classes *)

Definition not_nl (c : char) : bool := negb (c =? NL)%N.

Definition ascii_lower (c : char) : char :=
  if ((65 <=? c) && (c <=? 90))%N then (c + 32)%N else c.

(** How [re.IGNORECASE] compares an ASCII pattern character [p] with a
    text character [c]: the two letter cases, and the four non-ASCII
    letters whose case folds to ASCII (U+0130, U+0131 for i, U+017F for
    s, U+212A for k). *)
Definition ci_eqb (p c : char) : bool :=
  let lp := ascii_lower p in
  ((ascii_lower c =? lp)
   || ((lp =? 105) && ((c =? 304) || (c =? 305)))
   || ((lp =? 115) && (c =? 383))
   || ((lp =? 107) && (c =? 8490)))%N.

End Re.
Export Re.

(* ================================================================== *)
(** * models.py *)
(* ================================================================== *)

Module Models.

(** One search hit, as [perform_research] returns them. *)
Record Source := {
  source : str;
  url : str;
  content : str
}.

(** The dictionaries the nodes store in the state.  Each is built by one
    dict display in [graph.py], so every key below is always present. *)
Record ResearchContext := {
  raw_sources : list Source;
  search_engine : str;
  key_facts : list str;
  statistics : list str;
  best_practices : list str;
  recommended_topics : list str;
  key_sources : list str;
  synthesis : str
}.

Record ReviewFeedback := {
  overall_score : Z;
  strengths : list str;
  improvements : list str;
  priority_fixes : list str;
  detailed_feedback : str
}.

Record SEOAnalysis := {
  seo_score : Z;
  primary_keywords : list str;
  secondary_keywords : list str;
  optimized_title : str;
  meta_description : str;
  content_suggestions : list str;
  detailed_analysis : str
}.

(** The entries the nodes append to [messages]. *)
Inductive Message : Type :=
| Msg_researcher_cached (iteration : Z)
| Msg_researcher (iteration : Z) (sources_found facts_extracted : nat)
| Msg_writer (iteration : Z) (word_count : Z) (content_preview : str)
| Msg_reviewer (iteration : Z) (score : Z)
| Msg_seo_optimizer (iteration : Z) (score : Z).

(** [BlogState] *)
Record BlogState := {
  topic : str;
  current_iteration : Z;
  max_iterations : Z;
  draft_content : str;
  title : str;
  research_context : option ResearchContext;
  review_feedback : option ReviewFeedback;
  seo_analysis : option SEOAnalysis;
  word_count : Z;
  code_block_count : Z;
  table_count : Z;
  messages : list Message;
  is_complete : bool;
  final_review_score : Z;
  final_seo_score : Z
}.

Definition create_initial_state (topic : str) (max_iterations : Z) : BlogState :=
  {| topic := topic;
     current_iteration := 1;
     max_iterations := max_iterations;
     draft_content := [];
     title := [];
     research_context := None;
     review_feedback := None;
     seo_analysis := None;
     word_count := 0;
     code_block_count := 0;
     table_count := 0;
     messages := [];
     is_complete := false;
     final_review_score := 0;
     final_seo_score := 0 |}.

Definition count_words (content : str) : Z :=
  Z.of_nat (length (split_ws content)).

Definition fence_python : str := of_string "```python".
Definition fence_py : str := of_string "```py".

Definition count_code_blocks (content : str) : Z :=
  (Z.of_nat (count fence_python content) + Z.of_nat (count fence_py content))%Z.

(** The test of the list comprehension in [count_tables]. *)
Definition is_table_line (l : str) : bool :=
  startswith [PIPE] (strip l) && endswith [PIPE] (strip l).

Definition count_tables (content : str) : Z :=
  let lines := split_on NL content in
  let table_lines := filter is_table_line lines in
  Z.max 0 (floordiv (Z.of_nat (length table_lines)) 3).

(** The loop of [extract_title]. *)
Fixpoint first_heading (lines : list str) : option str :=
  match lines with
  | [] => None
  | line :: rest =>
      if startswith (of_string "# ") line
      then Some (strip (skipn 2 line))
      else first_heading rest
  end.

Definition extract_title (rt : Runtime) (content fallback : str) : str :=
  match first_heading (split_on NL (strip content)) with
  | Some t => t
  | None => str_title rt fallback
  end.

End Models.
Export Models.

(* ================================================================== *)
(** * graph.py *)
(* ================================================================== *)

Module Graph.

(** ** The outside world

    Replies of the language model and results of [perform_research] are
    not determined by the program: the [n]-th call of each gets the
    [n]-th answer of the world.  The prompts only feed the model and are
    not represented.  Every call is taken to return: a call that raises
    ends the run with that exception, and so does a reply whose score
    has more digits than [int] converts; such runs have no final state
    and are not represented. *)
Record World := {
  llm_invoke : nat -> str;
  perform_research : nat -> list Source * str
}.

(** Calls made so far. *)
Record Effects := {
  llm_calls : nat;
  research_calls : nat
}.

Definition no_effects : Effects := {| llm_calls := 0; research_calls := 0 |}.

(** ** Parsing the replies *)

(** The bullet class of the two list patterns, as the file has it: a
    hyphen and the code points U+00E2, U+20AC, U+00A2. *)
Definition bullet (c : char) : bool :=
  ((c =? 45) || (c =? 226) || (c =? 8364) || (c =? 162))%N.

(** The same class under [re.IGNORECASE]: U+00C2 folds to U+00E2. *)
Definition bullet_ci (c : char) : bool := (bullet c || (c =? 194))%N.

Definition COLON : char := 58%N.

(** [rf'{pattern}:\s*((?:[B]\s*[^\n]+\n?)+)'] with [re.IGNORECASE],
    [B] the bullet class *)
Definition list_section_re (pattern : str) : regex :=
  Seq (Lit ci_eqb pattern)
   (Seq (Chr (N.eqb COLON))
    (Seq (Star (Chr isspace))
     (Grp (Plus (Seq (Chr bullet_ci)
                 (Seq (Star (Chr isspace))
                  (Seq (Plus (Chr not_nl))
                   (Opt (Chr (N.eqb NL)))))))))).

(** [r'[B]\s*([^\n]+)'] *)
Definition item_re : regex :=
  Seq (Chr bullet) (Seq (Star (Chr isspace)) (Grp (Plus (Chr not_nl)))).

Definition nonempty (s : str) : bool :=
  match s with [] => false | _ => true end.

(** [extract_list], the closure defined alike in [researcher_node],
    [reviewer_node] and [seo_node], with the text it closes over. *)
Definition extract_list (text pattern : str) : list str :=
  match search (list_section_re pattern) text with
  | Some (g, _) =>
      let items := findall item_re (group1 g) in
      map strip (filter (fun item => nonempty (strip item)) items)
  | None => []
  end.

(** [rf'{pattern}:\s*([^\n]+)'] with [re.IGNORECASE] *)
Definition value_re (pattern : str) : regex :=
  Seq (Lit ci_eqb pattern)
   (Seq (Chr (N.eqb COLON))
    (Seq (Star (Chr isspace)) (Grp (Plus (Chr not_nl))))).

(** [extract_value] of [seo_node] *)
Definition extract_value (text pattern : str) : str :=
  match search (value_re pattern) text with
  | Some (g, _) => strip (group1 g)
  | None => []
  end.

Section Scores.
Variable rt : Runtime.

Definition digit_value (c : char) : option N :=
  if (c <? 128)%N
  then if ((48 <=? c) && (c <=? 57))%N then Some (c - 48)%N else None
  else nonascii_digit rt c.

(** [\d] *)
Definition is_digit (c : char) : bool :=
  match digit_value c with Some _ => true | None => false end.

(** [int(s)] on a string of decimal digits.  CPython converts at most
    [sys.get_int_max_str_digits()] digits, 4300 unless configured, and
    raises for more; this is the conversion within that limit. *)
Definition int_of_digits (ds : str) : Z :=
  fold_left
    (fun acc c =>
       (10 * acc + match digit_value c with Some d => Z.of_N d | None => 0 end)%Z)
    ds 0%Z.

(** [r'LABEL:\s*(\d+)'], case-sensitive *)
Definition score_re (label : str) : regex :=
  Seq (Lit N.eqb label)
   (Seq (Chr (N.eqb COLON))
    (Seq (Star (Chr isspace)) (Grp (Plus (Chr is_digit))))).

(** The score lines of [reviewer_node] and [seo_node]:
    [score = 5; m = re.search(...); if m: score = min(10, max(1, int(m.group(1))))] *)
Definition parse_score (label text : str) : Z :=
  match search (score_re label) text with
  | Some (g, _) => Z.min 10 (Z.max 1 (int_of_digits (group1 g)))
  | None => 5%Z
  end.
End Scores.

(** ** State updates

    A node returns a dict of the keys it sets; the graph merges it into
    the state.  [messages] carries the reducer [operator.add], so what a
    node returns for it is appended; every other key is overwritten. *)
Inductive Assign : Type :=
| Set_current_iteration (v : Z)
| Set_draft_content (v : str)
| Set_title (v : str)
| Set_research_context (v : ResearchContext)
| Set_review_feedback (v : ReviewFeedback)
| Set_seo_analysis (v : SEOAnalysis)
| Set_word_count (v : Z)
| Set_code_block_count (v : Z)
| Set_table_count (v : Z)
| Add_messages (v : list Message)
| Set_is_complete (v : bool)
| Set_final_review_score (v : Z)
| Set_final_seo_score (v : Z).

Definition Update := list Assign.

Definition assign (s : BlogState) (a : Assign) : BlogState :=
  let mk ci dc ti rc rf sa wc cb tc ms ic fr fs :=
    {| topic := topic s; current_iteration := ci;
       max_iterations := max_iterations s; draft_content := dc; title := ti;
       research_context := rc; review_feedback := rf; seo_analysis := sa;
       word_count := wc; code_block_count := cb; table_count := tc;
       messages := ms; is_complete := ic;
       final_review_score := fr; final_seo_score := fs |} in
  let ci := current_iteration s in let dc := draft_content s in
  let ti := title s in let rc := research_context s in
  let rf := review_feedback s in let sa := seo_analysis s in
  let wc := word_count s in let cb := code_block_count s in
  let tc := table_count s in let ms := messages s in
  let ic := is_complete s in let fr := final_review_score s in
  let fs := final_seo_score s in
  match a with
  | Set_current_iteration v => mk v dc ti rc rf sa wc cb tc ms ic fr fs
  | Set_draft_content v => mk ci v ti rc rf sa wc cb tc ms ic fr fs
  | Set_title v => mk ci dc v rc rf sa wc cb tc ms ic fr fs
  | Set_research_context v => mk ci dc ti (Some v) rf sa wc cb tc ms ic fr fs
  | Set_review_feedback v => mk ci dc ti rc (Some v) sa wc cb tc ms ic fr fs
  | Set_seo_analysis v => mk ci dc ti rc rf (Some v) wc cb tc ms ic fr fs
  | Set_word_count v => mk ci dc ti rc rf sa v cb tc ms ic fr fs
  | Set_code_block_count v => mk ci dc ti rc rf sa wc v tc ms ic fr fs
  | Set_table_count v => mk ci dc ti rc rf sa wc cb v ms ic fr fs
  | Add_messages v => mk ci dc ti rc rf sa wc cb tc (ms ++ v) ic fr fs
  | Set_is_complete v => mk ci dc ti rc rf sa wc cb tc ms v fr fs
  | Set_final_review_score v => mk ci dc ti rc rf sa wc cb tc ms ic v fs
  | Set_final_seo_score v => mk ci dc ti rc rf sa wc cb tc ms ic fr v
  end.

Definition merge (s : BlogState) (u : Update) : BlogState :=
  fold_left assign u s.

(** Truth value of [state.get(key)] for a key holding [None] or one of
    the dictionaries above, none of which is empty. *)
Definition truthy {A : Type} (o : option A) : bool :=
  match o with Some _ => true | None => false end.

(** ** The nodes *)

Section Nodes.
Variable rt : Runtime.
Variable w : World.

Definition researcher_node (e : Effects) (state : BlogState)
  : Effects * Update :=
  let iteration := current_iteration state in
  if (1 <? iteration)%Z && truthy (research_context state)
  then (e, [Add_messages [Msg_researcher_cached iteration]])
  else
    let research_data := perform_research w (research_calls e) in
    let synthesis := llm_invoke w (llm_calls e) in
    let research_context :=
      {| raw_sources := fst research_data;
         search_engine := snd research_data;
         key_facts := extract_list synthesis (of_string "KEY_FACTS");
         statistics := extract_list synthesis (of_string "STATISTICS");
         best_practices := extract_list synthesis (of_string "BEST_PRACTICES");
         recommended_topics :=
           extract_list synthesis (of_string "RECOMMENDED_TOPICS");
         key_sources := extract_list synthesis (of_string "KEY_SOURCES");
         synthesis := synthesis |} in
    ({| llm_calls := S (llm_calls e);
        research_calls := S (research_calls e) |},
     [Set_research_context research_context;
      Add_messages
        [Msg_researcher iteration
           (length (raw_sources research_context))
           (length (key_facts research_context))]]).

Definition writer_node (e : Effects) (state : BlogState)
  : Effects * Update :=
  let iteration := current_iteration state in
  let content := llm_invoke w (llm_calls e) in
  let word_count := count_words content in
  let code_blocks := count_code_blocks content in
  let tables := count_tables content in
  let title := extract_title rt content (topic state) in
  ({| llm_calls := S (llm_calls e); research_calls := research_calls e |},
   [Set_draft_content content;
    Set_title title;
    Set_word_count word_count;
    Set_code_block_count code_blocks;
    Set_table_count tables;
    Add_messages
      [Msg_writer iteration word_count
         (firstn 200 content ++ of_string "...")]]).

(** [xs or fallback] on lists and on strings. *)
Definition or_else {A : Type} (xs fallback : list A) : list A :=
  match xs with [] => fallback | _ => xs end.

Definition reviewer_node (e : Effects) (state : BlogState)
  : Effects * Update :=
  let review_text := llm_invoke w (llm_calls e) in
  let score := parse_score rt (of_string "OVERALL_SCORE") review_text in
  let feedback :=
    {| overall_score := score;
       strengths :=
         or_else (extract_list review_text (of_string "STRENGTHS"))
                 [of_string "Content is well-structured"];
       improvements :=
         or_else (extract_list review_text (of_string "IMPROVEMENTS"))
                 [of_string "Consider adding more depth"];
       priority_fixes :=
         or_else (extract_list review_text (of_string "PRIORITY_FIXES"))
                 [of_string "Expand key sections"];
       detailed_feedback := review_text |} in
  ({| llm_calls := S (llm_calls e); research_calls := research_calls e |},
   [Set_review_feedback feedback;
    Add_messages [Msg_reviewer (current_iteration state) score]]).

Definition seo_node (e : Effects) (state : BlogState)
  : Effects * Update :=
  let seo_text := llm_invoke w (llm_calls e) in
  let seo_score := parse_score rt (of_string "SEO_SCORE") seo_text in
  let analysis :=
    {| seo_score := seo_score;
       primary_keywords :=
         or_else (extract_list seo_text (of_string "PRIMARY_KEYWORDS"))
                 [str_lower rt (topic state)];
       secondary_keywords :=
         or_else (extract_list seo_text (of_string "SECONDARY_KEYWORDS")) [];
       optimized_title :=
         or_else (extract_value seo_text (of_string "OPTIMIZED_TITLE"))
                 (title state);
       meta_description :=
         or_else (extract_value seo_text (of_string "META_DESCRIPTION"))
                 (of_string "Learn about " ++ topic state
                  ++ of_string " in this comprehensive guide.");
       content_suggestions :=
         or_else (extract_list seo_text (of_string "CONTENT_SUGGESTIONS")) [];
       detailed_analysis := seo_text |} in
  ({| llm_calls := S (llm_calls e); research_calls := research_calls e |},
   [Set_seo_analysis analysis;
    Add_messages [Msg_seo_optimizer (current_iteration state) seo_score]]).

Definition iteration_controller (state : BlogState) : Update :=
  let new_iteration := (current_iteration state + 1)%Z in
  if (max_iterations state <? new_iteration)%Z
  then [Set_is_complete true;
        Set_final_review_score
          match review_feedback state with
          | Some rf => overall_score rf
          | None => 0%Z
          end;
        Set_final_seo_score
          match seo_analysis state with
          | Some sa => seo_score sa
          | None => 0%Z
          end]
  else [Set_current_iteration new_iteration].

(** ** Routing *)

Inductive Route : Type := route_writer | route_end.

Definition should_continue (state : BlogState) : Route :=
  if is_complete state then route_end else route_writer.

(** ** The graph of [create_blog_graph] *)

Inductive Node : Type :=
| Researcher | Writer | Reviewer | Seo | Controller | END.

(** START -> Researcher -> Writer -> Reviewer -> Seo -> Controller, and
    the conditional edge [{"writer": "researcher", "end": END}]. *)
Definition next_node (n : Node) (state : BlogState) : Node :=
  match n with
  | Researcher => Writer
  | Writer => Reviewer
  | Reviewer => Seo
  | Seo => Controller
  | Controller =>
      match should_continue state with
      | route_writer => Researcher
      | route_end => END
      end
  | END => END
  end.

Definition run_node (n : Node) (e : Effects) (state : BlogState)
  : Effects * Update :=
  match n with
  | Researcher => researcher_node e state
  | Writer => writer_node e state
  | Reviewer => reviewer_node e state
  | Seo => seo_node e state
  | Controller => (e, iteration_controller state)
  | END => (e, [])
  end.

(** A run in progress: the node about to run, the state, the calls made
    and the nodes that have run, oldest first. *)
Record Config := {
  at_node : Node;
  state : BlogState;
  effects : Effects;
  executed : list Node
}.

Definition is_END (n : Node) : bool :=
  match n with END => true | _ => false end.

(** One node runs, its update is merged, the outgoing edge is taken. *)
Definition step (c : Config) : Config :=
  if is_END (at_node c) then c
  else
    let (e', u) := run_node (at_node c) (effects c) (state c) in
    let s' := merge (state c) u in
    {| at_node := next_node (at_node c) s';
       state := s';
       effects := e';
       executed := executed c ++ [at_node c] |}.

Definition start (initial_state : BlogState) : Config :=
  {| at_node := Researcher; state := initial_state;
     effects := no_effects; executed := [] |}.

(** The configuration after [n] steps. *)
Fixpoint steps (n : nat) (c : Config) : Config :=
  match n with
  | O => c
  | S n' => steps n' (step c)
  end.

(** [graph.invoke]: run until END; [None] when [fuel] steps do not
    reach it. *)
Fixpoint invoke_from (fuel : nat) (c : Config) : option Config :=
  if is_END (at_node c) then Some c
  else match fuel with
       | O => None
       | S fuel' => invoke_from fuel' (step c)
       end.

Definition invoke (fuel : nat) (initial_state : BlogState) : option Config :=
  invoke_from fuel (start initial_state).

(** [BlogOrchestrator.generate_blog], up to display and timing. *)
Definition generate_blog (fuel : nat) (topic : str) (num_iterations : Z)
  : option Config :=
  invoke fuel (create_initial_state topic num_iterations).
End Nodes.

End Graph.
Export Graph.

(* ================================================================== *)
(** * agents/seo_agent.py: the meta description *)
(* ================================================================== *)

Module SEOAgent.

Definition QUOTE2 : char := 34%N.
Definition QUOTE1 : char := 39%N.

Definition is_quote (c : char) : bool := ((c =? QUOTE2) || (c =? QUOTE1))%N.

(** [rf'(?:{pattern})[:\s]*[Q]?([^\nQ]+)[Q]?'] with [re.IGNORECASE],
    [Q] the two quote characters *)
Definition single_item_re (pattern : str) : regex :=
  Seq (Lit ci_eqb pattern)
   (Seq (Star (Chr (fun c => (c =? COLON)%N || isspace c)))
    (Seq (Opt (Chr is_quote))
     (Seq (Grp (Plus (Chr (fun c => not_nl c && negb (is_quote c)))))
      (Opt (Chr is_quote))))).

Definition _extract_single_item (text pattern : str) : str :=
  match search (single_item_re pattern) text with
  | Some (g, _) => strip (group1 g)
  | None => []
  end.

(** The lines of [_parse_seo_response] that compute [meta_description]:
    first the extracted text, or the sentence built from the topic. *)
Definition meta_description_candidate (rt : Runtime) (response topic : str) : str :=
  let meta_description :=
    _extract_single_item response (of_string "meta description") in
  match meta_description with
  | [] =>
      of_string "Learn everything about " ++ str_lower rt topic
      ++ of_string ". This comprehensive guide covers best practices, code examples, and expert tips for modern developers."
  | _ => meta_description
  end.

(** [if len(meta_description) > 160: meta_description = meta_description[:157] + "..."] *)
Definition ensure_proper_length (meta_description : str) : str :=
  if 160 <? length meta_description
  then firstn 157 meta_description ++ of_string "..."
  else meta_description.

Definition parse_meta_description (rt : Runtime) (response topic : str) : str :=
  ensure_proper_length (meta_description_candidate rt response topic).

End SEOAgent.

(* ================================================================== *)
(** * formatters/medium_formatter.py: the footer *)
(* ================================================================== *)

Module MediumFormatter.

(** The expression under [**Tags:**]:
    [seo.get('primary_keywords', [state.get('topic', '')])[:5]] where
    [seo = state.get("seo_analysis", {}) or {}]. *)
Definition footer_tags (state : BlogState) : list str :=
  firstn 5 match seo_analysis state with
           | Some seo => primary_keywords seo
           | None => [topic state]
           end.

(** The two pictographs of the footer as the file has them. *)
Definition book_mark : str := [240; 376; 8220; 8211]%N.
Definition memo_mark : str := [240; 376; 8220]%N.

Definition _generate_footer (state : BlogState) : str :=
  let word_count := word_count state in
  join [NL]
    [ of_string "---";
      [];
      of_string "*" ++ book_mark ++ of_string " Reading time: ~"
        ++ str_of_int (floordiv word_count 200)
        ++ of_string " minutes | " ++ memo_mark ++ of_string " "
        ++ format_thousands word_count ++ of_string " words*";
      [];
      of_string "**Tags:** " ++ join (of_string ", ") (footer_tags state);
      [];
      of_string "---";
      [];
      of_string "*This article was generated with AI assistance and reviewed for quality and accuracy.*" ].

End MediumFormatter.

(* ================================================================== *)
(** * main.py: the output file *)
(* ================================================================== *)

Module Main.

(** The class [[a-z0-9\s-]] *)
Definition slug_char (c : char) : bool :=
  (((97 <=? c) && (c <=? 122)) || ((48 <=? c) && (c <=? 57))
   || isspace c || (c =? HYPHEN))%N.

(** The class [[\s_]] *)
Definition space_or_underscore (c : char) : bool :=
  (isspace c || (c =? UNDERSCORE))%N.

Definition slugify (rt : Runtime) (text : str) : str :=
  let text := str_lower rt text in
  let text := sub (Chr (fun c => negb (slug_char c))) [] text in
  let text := sub (Plus (Chr space_or_underscore)) [UNDERSCORE] text in
  let text := strip_char UNDERSCORE text in
  firstn 50 text.

(** U+1F4D6 and U+1F4DD *)
Definition book_mark : str := [128214]%N.
Definition memo_mark : str := [128221]%N.

(** [meta_block] of [main]; [now] is the formatted time stamp.  [seo] is
    the value under ["seo_analysis"], here a dictionary. *)
Definition meta_block (result : BlogState) (seo : SEOAnalysis) (now : str) : str :=
  join [NL]
    [ of_string "<!--";
      of_string "BLOG METADATA (Remove before publishing)";
      of_string "========================================";
      of_string "Title: " ++ title result;
      of_string "Meta Description: " ++ meta_description seo;
      of_string "Primary Keywords: "
        ++ join (of_string ", ") (primary_keywords seo);
      of_string "Word Count: " ++ format_thousands (word_count result);
      of_string "Code Examples: " ++ str_of_int (code_block_count result);
      of_string "Tables: " ++ str_of_int (table_count result);
      of_string "Review Score: " ++ str_of_int (final_review_score result)
        ++ of_string "/10";
      of_string "SEO Score: " ++ str_of_int (final_seo_score result)
        ++ of_string "/10";
      of_string "Generated: " ++ now;
      of_string "-->";
      [];
      [] ].

(** The expression under [**Tags:**]; the key ['primary_keywords'] is
    always present in [seo]. *)
Definition footer_tags (seo : SEOAnalysis) : list str :=
  firstn 5 (primary_keywords seo).

Definition footer (result : BlogState) (seo : SEOAnalysis) : str :=
  join [NL]
    [ [];
      [];
      of_string "---";
      [];
      of_string "*" ++ book_mark ++ of_string " Reading time: ~"
        ++ str_of_int (floordiv (word_count result) 200)
        ++ of_string " minutes | " ++ memo_mark ++ of_string " "
        ++ format_thousands (word_count result) ++ of_string " words*";
      [];
      of_string "**Tags:** " ++ join (of_string ", ") (footer_tags seo);
      [];
      of_string "---";
      [];
      of_string "*This article was generated with AI assistance and reviewed for quality and accuracy.*";
      [] ].

(** The text written to the Markdown file.  [seo = result.get("seo_analysis", {})]
    is [None] when the state holds [None] there, and [seo.get] then
    raises: the export fails ([None] here). *)
Definition full_content (result : BlogState) (now : str) : option str :=
  match seo_analysis result with
  | Some seo =>
      Some (meta_block result seo now ++ draft_content result
            ++ footer result seo)
  | None => None
  end.

End Main.

(* ================================================================== *)
(** * Vocabulary of the properties *)
(* ================================================================== *)

Module Spec.

(** ** Tokens *)

(** Number of whitespace-separated tokens: the positions where a
    character that is not whitespace follows whitespace or the start of
    the text. *)
Fixpoint tokens_after (after_space : bool) (s : str) : nat :=
  match s with
  | [] => 0
  | c :: s' =>
      if isspace c then tokens_after true s'
      else (if after_space then 1 else 0) + tokens_after false s'
  end.

Definition whitespace_separated_tokens (s : str) : nat := tokens_after true s.

Definition is_token (t : str) : Prop :=
  t <> [] /\ Forall (fun c => isspace c = false) t.

(** ** Lines *)

(** The lines of a text are its pieces between line feeds. *)
Definition lines (content : str) : list str := split_on NL content.

(** A line that starts and ends with a pipe character, read literally. *)
Definition pipe_line (l : str) : bool :=
  startswith [PIPE] l && endswith [PIPE] l.

(** ** Slugs *)

(** Lowercase ASCII letters, digits, hyphen and underscore. *)
Definition slug_alphabet (c : char) : bool :=
  (((97 <=? c) && (c <=? 122)) || ((48 <=? c) && (c <=? 57))
   || (c =? HYPHEN) || (c =? UNDERSCORE))%N.

(** ** Occurrences of a label *)

(** [l] is at the start of [s], characters compared with [eqc]. *)
Fixpoint startswith_by (eqc : char -> char -> bool) (l s : str) : bool :=
  match l, s with
  | [], _ => true
  | _ :: _, [] => false
  | a :: l', b :: s' => eqc a b && startswith_by eqc l' s'
  end.

(** [needle] occurs in [text] at offset [i]. *)
Definition occurs_at (needle : str) (i : nat) (text : str) : bool :=
  startswith needle (skipn i text).

(** [needle] occurs in [text] at offset [i0] and nowhere else. *)
Definition occurs_only_at (needle : str) (i0 : nat) (text : str) : Prop :=
  forall i, i <> i0 -> occurs_at needle i text = false.

(** [label] occurs in [text] at offset [i], letter case ignored. *)
Definition label_occurs_at (label : str) (i : nat) (text : str) : bool :=
  startswith_by ci_eqb label (skipn i text).

Definition label_absent (label text : str) : Prop :=
  forall i, label_occurs_at label i text = false.

(** A list section opens at offset [i] of [text]: the label, a colon,
    optional whitespace, then a bullet. *)
Definition section_opens_at (label : str) (i : nat) (text : str) : bool :=
  let s := skipn i text in
  startswith_by ci_eqb label s
  && match skipn (length label) s with
     | c :: r =>
         (COLON =? c)%N
         && match dropwhile isspace r with
            | b :: _ => bullet_ci b
            | [] => false
            end
     | [] => false
     end.

(** No well-formed section of that label anywhere in the text. *)
Definition section_missing (label text : str) : Prop :=
  forall i, section_opens_at label i text = false.

(** [k] fails at [s] and after each further character of the class. *)
Fixpoint fails_along (R : Type) (q : char -> bool) (k : cont R)
         (g : option str) (s : str) : Prop :=
  k s g = None
  /\ match s with
     | c :: t => if q c then fails_along q k g t else True
     | [] => True
     end.

(** ** Scores *)

(** The ASCII digit string of a list of decimal digits, and the number
    it denotes. *)
Definition digit_chars (ds : list N) : str := map (fun d => (48 + d)%N) ds.

Definition digits_value (ds : list N) : Z :=
  fold_left (fun acc d => (10 * acc + Z.of_N d)%Z) ds 0%Z.

(** Clamping into [1, 10]. *)
Definition clamp (v : Z) : Z :=
  if (v <? 1)%Z then 1%Z else if (10 <? v)%Z then 10%Z else v.

(** ** Runs of the graph *)

Definition Node_eq_dec (a b : Node) : {a = b} + {a <> b}.
Proof. decide equality. Defined.

(** How often node [n] has run. *)
Definition times_run (n : Node) (c : Config) : nat :=
  count_occ Node_eq_dec (executed c) n.

(** One pass through the cycle. *)
Definition cycle : list Node :=
  [Researcher; Writer; Reviewer; Seo; Controller].

Fixpoint cycles (n : nat) : list Node :=
  match n with
  | O => []
  | S n' => cycle ++ cycles n'
  end.

(** The researcher takes its short path. *)
Definition cached (st : BlogState) : bool :=
  (1 <? current_iteration st)%Z && truthy (research_context st).

(** Two states agree on what steers the loop. *)
Definition same_control (a b : BlogState) : Prop :=
  current_iteration a = current_iteration b
  /\ max_iterations a = max_iterations b
  /\ is_complete a = is_complete b
  /\ topic a = topic b.

(** The state after the iteration controller has run on [st]. *)
Definition after_controller (st : BlogState) : BlogState :=
  merge st (iteration_controller st).

(** ** A concrete interpreter and a concrete world, for examples *)

Definition ascii_runtime : Runtime :=
  {| str_lower := map ascii_lower;
     str_title := fun s => s;
     nonascii_digit := fun _ => None |}.

(** A text given by its lines. *)
Definition text_of_lines (ls : list string) : str :=
  join [NL] (map of_string ls).

(** A world whose model always gives the same reply and whose search
    finds nothing. *)
Definition constant_world (reply : str) : World :=
  {| llm_invoke := fun _ => reply;
     perform_research := fun _ => ([], of_string "DuckDuckGo") |}.

End Spec.
Export Spec.

(* ================================================================== *)
(** * graph.py: the web research *)
(* ================================================================== *)

Module Research.

(** [xs[:n]] for an integer [n]: a negative [n] counts from the end. *)
Definition slice_to {A : Type} (n : Z) (xs : list A) : list A :=
  if (0 <=? n)%Z then firstn (Z.to_nat n) xs
  else firstn (length xs - Z.to_nat (- n)) xs.

(** The five queries of [perform_research]. *)
Definition queries (topic : str) : list str :=
  [ topic ++ of_string " comprehensive guide";
    topic ++ of_string " best practices 2024 2025";
    topic ++ of_string " research paper academic";
    topic ++ of_string " Python implementation example";
    topic ++ of_string " industry statistics data" ].

(** [url not in seen_urls] *)
Definition seen_url (u : str) (seen_urls : list str) : bool :=
  if in_dec (list_eq_dec N.eq_dec) u seen_urls then true else false.

(** The loop that removes duplicates by URL; [seen_urls] is the set
    built so far. *)
Fixpoint unique_from (seen_urls : list str) (all_results : list Source)
  : list Source :=
  match all_results with
  | [] => []
  | r :: rest =>
      if seen_url (url r) seen_urls then unique_from seen_urls rest
      else r :: unique_from (url r :: seen_urls) rest
  end.

(** The dictionary [perform_research] returns. *)
Record ResearchData := {
  sources : list Source;
  search_engine : str;
  queries_used : list str;
  total_results : Z
}.

(** [perform_research].  [use_tavily] is whether the Tavily key is set;
    [search_func query max_results] is the search chosen by it, which
    returns its hits, or nothing when the search fails. *)
Definition perform_research
           (use_tavily : bool) (search_func : str -> Z -> list Source)
           (topic : str) (max_results : Z) : ResearchData :=
  let queries := queries topic in
  let search_source :=
    if use_tavily then of_string "Tavily" else of_string "DuckDuckGo" in
  let all_results :=
    flat_map
      (fun query =>
         search_func query (floordiv max_results (Z.of_nat (length queries))))
      queries in
  let unique_results := unique_from [] all_results in
  {| sources := slice_to max_results unique_results;
     search_engine := search_source;
     queries_used := queries;
     total_results := Z.of_nat (length unique_results) |}.

End Research.

(* ================================================================== *)
(** * Further vocabulary *)
(* ================================================================== *)

Module More.

(** [needle] occurs somewhere in [text]. *)
Definition occurs (needle text : str) : Prop :=
  exists i, occurs_at needle i text = true.

(** No two adjacent characters of [s] are both [u]. *)
Fixpoint no_adjacent (u : char) (s : str) : Prop :=
  match s with
  | a :: t =>
      match t with
      | b :: _ => ~ (a = u /\ b = u)
      | [] => True
      end /\ no_adjacent u t
  | [] => True
  end.

(** Lowercase ASCII letters, digits and the hyphen. *)
Definition slug_letter (c : char) : bool :=
  (((97 <=? c) && (c <=? 122)) || ((48 <=? c) && (c <=? 57))
   || (c =? HYPHEN))%N.

(** Which stage wrote a log entry, and in which iteration. *)
Definition entry (msg : Message) : Node * Z :=
  match msg with
  | Msg_researcher_cached i => (Researcher, i)
  | Msg_researcher i _ _ => (Researcher, i)
  | Msg_writer i _ _ => (Writer, i)
  | Msg_reviewer i _ => (Reviewer, i)
  | Msg_seo_optimizer i _ => (Seo, i)
  end.

(** The entries of one pass, and of [n] passes from iteration [i] on. *)
Definition log_of_pass (i : Z) : list (Node * Z) :=
  [(Researcher, i); (Writer, i); (Reviewer, i); (Seo, i)].

Fixpoint log_of_passes (i : Z) (n : nat) : list (Node * Z) :=
  match n with
  | O => []
  | S n' => log_of_pass i ++ log_of_passes (i + 1) n'
  end.

(** The number of passes of a run configured for [N] iterations. *)
Definition passes (N : Z) : nat := S (Z.to_nat (N - 1)).

End More.
Export More.
(* ================================================================== *)
(** * formatters/medium_formatter.py: cleaning the draft *)
(* ================================================================== *)

Module Clean.

Definition HASH : char := 35%N.      (* "#" *)

(** [re.sub(pattern, template, s)].  [at_start s] is the match of the
    pattern at the start of [s]: the text the template expands to, and
    the input after the match. *)
Fixpoint sub_with_fuel (n : nat) (at_start : str -> option (str * str))
         (s : str) : str :=
  match n with
  | O => s
  | S n' =>
      let next :=
        match s with
        | [] => []
        | c :: s' => c :: sub_with_fuel n' at_start s'
        end in
      match at_start s with
      | Some (repl, rest) =>
          if length rest <? length s
          then repl ++ sub_with_fuel n' at_start rest
          else repl ++ next
      | None => next
      end
  end.

Definition sub_with (at_start : str -> option (str * str)) (s : str) : str :=
  sub_with_fuel (S (length s)) at_start s.

Section CleanContent.
(** [\w], as the interpreter's Unicode tables have it. *)
Variable word : char -> bool.

Definition nl : regex := Chr (N.eqb NL).
Definition pipe : regex := Chr (N.eqb PIPE).
Definition hash : regex := Chr (N.eqb HASH).

(** The pattern with three backticks, [(\w+)] and a line feed, and the
    template that puts the same three parts back. *)
Definition fence_re : regex :=
  Seq (Lit N.eqb (of_string "```")) (Seq (Grp (Plus (Chr word))) nl).

Definition fence_at (s : str) : option (str * str) :=
  match re_match fence_re s with
  | Some (g, rest) => Some (of_string "```" ++ group1 g ++ [NL], rest)
  | None => None
  end.

(** [r'\n(\|)'] and [r'\n\n\1'] *)
Definition pipe_re : regex := Seq nl (Grp pipe).

Definition pipe_at (s : str) : option (str * str) :=
  match re_match pipe_re s with
  | Some (g, rest) => Some ([NL; NL] ++ group1 g, rest)
  | None => None
  end.

(** [r'(\|)\n(?!\|)'] and [r'\1\n\n'].  The lookahead closes the
    pattern and what precedes it matches in one way, so it is tested on
    the input after that match. *)
Definition row_end_re : regex := Seq (Grp pipe) nl.

Definition row_end_at (s : str) : option (str * str) :=
  match re_match row_end_re s with
  | Some (g, rest) =>
      match re_match pipe rest with
      | Some _ => None
      | None => Some (group1 g ++ [NL; NL], rest)
      end
  | None => None
  end.

(** [r'\n{4,}'] and three line feeds *)
Definition newlines_re : regex :=
  Seq nl (Seq nl (Seq nl (Seq nl (Star nl)))).

Definition newlines_at (s : str) : option (str * str) :=
  match re_match newlines_re s with
  | Some (_, rest) => Some ([NL; NL; NL], rest)
  | None => None
  end.

(** [#{1,6}]: one hash sign and up to five more, as many as there are *)
Definition hashes : regex :=
  Seq hash (Seq (Opt hash) (Seq (Opt hash) (Seq (Opt hash)
    (Seq (Opt hash) (Opt hash))))).

(** [r'([^\n])\n(#{1,6}\s)'] and [r'\1\n\n\2'].  Group 1 is the first
    character of the match; the group of the pattern below is group 2. *)
Definition heading_re : regex :=
  Seq (Chr not_nl) (Seq nl (Grp (Seq hashes (Chr isspace)))).

Definition heading_at (s : str) : option (str * str) :=
  match s, re_match heading_re s with
  | c :: _, Some (g, rest) => Some (c :: [NL; NL] ++ group1 g, rest)
  | _, _ => None
  end.

(** [MediumFormatter._clean_content] *)
Definition _clean_content (content : str) : str :=
  let content := strip content in
  let content := sub_with fence_at content in
  let content := sub_with pipe_at content in
  let content := sub_with row_end_at content in
  let content := sub_with newlines_at content in
  let content := sub_with heading_at content in
  content.

End CleanContent.
End Clean.

(* ================================================================== *)
(** * Vocabulary for the cleaned draft *)
(* ================================================================== *)

Module CleanSpec.

(** The characters of a text other than its line feeds. *)
Definition text_of (s : str) : str := filter not_nl s.

(** Every pipe that opens a line comes after an empty line. *)
Definition rows_apart (s : str) : Prop :=
  forall pre post : str,
    s = pre ++ NL :: PIPE :: post -> exists pre', pre = pre' ++ [NL].

(** No four line feeds in a row. *)
Definition short_runs (s : str) : Prop :=
  forall pre post : str, s <> pre ++ [NL; NL; NL; NL] ++ post.

(** Reading a text with the number of line feeds just read, counted up
    to two: a pipe may not come after exactly one. *)
Definition after (q : nat) (c : char) : nat :=
  if (c =? NL)%N then match q with O => 1 | _ => 2 end else 0.

Fixpoint apart (q : nat) (s : str) : bool :=
  match s with
  | [] => true
  | c :: s' =>
      (if (c =? PIPE)%N then negb (q =? 1) else true) && apart (after q c) s'
  end.

(** Reading a text with the length [r] of the run of line feeds just
    read: no run reaches four. *)
Fixpoint runs_below_four (r : nat) (s : str) : bool :=
  match s with
  | [] => true
  | c :: s' =>
      if (c =? NL)%N then (r <? 3) && runs_below_four (S r) s'
      else runs_below_four 0 s'
  end.

(** The number of line feeds a text opens with. *)
Fixpoint lead (s : str) : nat :=
  match s with
  | c :: s' => if (c =? NL)%N then S (lead s') else 0
  | [] => 0
  end.

(** [\w] on ASCII text, for examples. *)
Definition ascii_word (c : char) : bool :=
  (((48 <=? c) && (c <=? 57)) || ((65 <=? c) && (c <=? 90))
   || ((97 <=? c) && (c <=? 122)) || (c =? 95))%N.

End CleanSpec.
Export CleanSpec.

(* ================================================================== *)
(** * Texts up to the length of their runs of line feeds *)
(* ================================================================== *)

Module Squeeze.

Definition starts_nl (s : str) : bool :=
  match s with c :: _ => (c =? NL)%N | [] => false end.

(** A text with every run of line feeds cut down to one. *)
Fixpoint squeeze (s : str) : str :=
  match s with
  | [] => []
  | c :: s' =>
      if (c =? NL)%N && starts_nl s' then squeeze s' else c :: squeeze s'
  end.

(** The lines of a text that are not empty, read with the line under
    way in [cur], reversed. *)
Fixpoint lines_from (cur : str) (s : str) : list str :=
  match s with
  | [] => match cur with [] => [] | _ => [rev cur] end
  | c :: s' =>
      if (c =? NL)%N
      then match cur with
           | [] => lines_from [] s'
           | _ => rev cur :: lines_from [] s'
           end
      else lines_from (c :: cur) s'
  end.

Definition nonempty_lines (s : str) : list str := filter nonempty (lines s).

(** The number of table lines of a text, read with the line under way
    in [cur], reversed. *)
Definition table_line (cur : str) : nat :=
  if is_table_line (rev cur) then 1 else 0.

Fixpoint table_lines_from (cur : str) (s : str) : nat :=
  match s with
  | [] => table_line cur
  | c :: s' =>
      if (c =? NL)%N then table_line cur + table_lines_from [] s'
      else table_lines_from (c :: cur) s'
  end.

End Squeeze.
Export Squeeze.

(* ================================================================== *)
(** * A list section as the prompts ask for it *)
(* ================================================================== *)

Module Rendered.

(** One item on its line: a hyphen, a space, the item and a line feed. *)
Definition item_line (item : str) : str := of_string "- " ++ item ++ [NL].

(** A label, a colon, a line feed and the items, one on each line. *)
Definition list_section (label : str) (items : list str) : str :=
  label ++ [COLON; NL] ++ concat (map item_line items).

(** An item as [extract_list] returns them: not empty, within one
    line, and without whitespace at its ends. *)
Definition clean_item (item : str) : Prop :=
  item <> [] /\ Forall (fun c => not_nl c = true) item /\ strip item = item.

(** The repeated part of the section pattern: one bullet line. *)
Definition section_line : regex :=
  Seq (Chr bullet_ci)
      (Seq (Star (Chr isspace))
           (Seq (Plus (Chr not_nl)) (Opt (Chr (N.eqb NL))))).

(** A text that does not go on with a bullet. *)
Definition no_bullet_ahead (s : str) : Prop :=
  match s with c :: _ => bullet_ci c = false | [] => True end.

End Rendered.
Export Rendered.

(* ================================================================== *)
(** * Python strings: lemmas *)
(* ================================================================== *)

Lemma split_ws_from_length (s : str) :
  forall cur,
    length (split_ws_from cur s)
    = match cur with
      | [] => tokens_after true s
      | _ => S (tokens_after false s)
      end.
Proof.
  induction s as [|c s IH]; intros cur; simpl.
  - destruct cur; reflexivity.
  - destruct (isspace c).
    + destruct cur; simpl; rewrite IH; reflexivity.
    + rewrite IH. destruct cur; reflexivity.
Qed.

Lemma split_ws_from_tokens (s : str) :
  forall cur,
    Forall (fun c => isspace c = false) cur ->
    Forall is_token (split_ws_from cur s).
Proof.
  induction s as [|c s IH]; intros cur Hcur; simpl.
  - destruct cur as [|a cur]; constructor; [|constructor].
    split.
    + intro E. apply (f_equal (@length _)) in E.
      rewrite length_rev in E. discriminate.
    + apply Forall_rev. exact Hcur.
  - destruct (isspace c) eqn:Ec.
    + destruct cur as [|a cur].
      * apply IH. constructor.
      * constructor; [|apply IH; constructor].
        split.
        -- intro E. apply (f_equal (@length _)) in E.
           rewrite length_rev in E. discriminate.
        -- apply Forall_rev. exact Hcur.
    + apply IH. constructor; assumption.
Qed.

Lemma split_ws_from_concat (s : str) :
  forall cur,
    concat (split_ws_from cur s)
    = rev cur ++ filter (fun c => negb (isspace c)) s.
Proof.
  induction s as [|c s IH]; intros cur; simpl.
  - destruct cur; simpl; [reflexivity|].
    rewrite !app_nil_r. reflexivity.
  - destruct (isspace c) eqn:Ec; simpl.
    + destruct cur as [|a cur]; simpl; rewrite IH; reflexivity.
    + rewrite IH. simpl. rewrite <- app_assoc. reflexivity.
Qed.

(** [s.split()] yields tokens only, and together they are the text
    without its whitespace. *)
Lemma split_ws_tokens (s : str) :
  Forall is_token (split_ws s)
  /\ concat (split_ws s) = filter (fun c => negb (isspace c)) s.
Proof.
  split.
  - apply split_ws_from_tokens. constructor.
  - apply (split_ws_from_concat s []).
Qed.

Lemma count_words_tokens (content : str) :
  count_words content = Z.of_nat (whitespace_separated_tokens content).
Proof.
  unfold count_words, split_ws, whitespace_separated_tokens.
  rewrite split_ws_from_length. reflexivity.
Qed.

Lemma split_on_nonempty (sep : char) (s : str) : split_on sep s <> [].
Proof.
  destruct s as [|c s]; simpl; [discriminate|].
  destruct (c =? sep)%N; [discriminate|].
  destruct (split_on sep s); discriminate.
Qed.

Lemma split_on_no_sep (sep : char) (l : str) :
  ~ In sep l -> split_on sep l = [l].
Proof.
  induction l as [|c l IH]; intros Hn; simpl; [reflexivity|].
  destruct (N.eqb_spec c sep) as [->|Hne].
  - exfalso. apply Hn. left. reflexivity.
  - rewrite IH; [reflexivity|]. intro Hin. apply Hn. right. exact Hin.
Qed.

Lemma split_on_app (sep : char) (l rest : str) :
  ~ In sep l ->
  split_on sep (l ++ sep :: rest) = l :: split_on sep rest.
Proof.
  induction l as [|c l IH]; intros Hn; simpl.
  - rewrite N.eqb_refl. reflexivity.
  - destruct (N.eqb_spec c sep) as [->|Hne].
    + exfalso. apply Hn. left. reflexivity.
    + rewrite IH; [reflexivity|]. intro Hin. apply Hn. right. exact Hin.
Qed.

(** Splitting at line feeds recovers the lines a text was joined from. *)
Lemma lines_join (ls : list str) :
  ls <> [] ->
  Forall (fun l => ~ In NL l) ls ->
  lines (join [NL] ls) = ls.
Proof.
  unfold lines.
  induction ls as [|l ls IH]; intros Hne Hall; [contradiction|].
  inversion Hall as [|? ? Hl Hls]; subst.
  destruct ls as [|l' ls].
  - simpl. apply split_on_no_sep. exact Hl.
  - change (join [NL] (l :: l' :: ls)) with (l ++ NL :: join [NL] (l' :: ls)).
    rewrite split_on_app by exact Hl.
    rewrite IH; [reflexivity|discriminate|exact Hls].
Qed.

(* ================================================================== *)
(** * State updates: what a node leaves alone *)
(* ================================================================== *)

Lemma writer_node_metrics (rt : Runtime) (w : World) (e : Effects) (st : BlogState) :
  let st' := merge st (snd (writer_node rt w e st)) in
  draft_content st' = llm_invoke w (llm_calls e)
  /\ word_count st' = count_words (draft_content st')
  /\ code_block_count st' = count_code_blocks (draft_content st')
  /\ table_count st' = count_tables (draft_content st').
Proof. repeat split. Qed.

(* ================================================================== *)
(** * The text metrics of the writer stage *)
(* ================================================================== *)

(** C7.  The word count is the number of whitespace-separated tokens of
    the text, for every text; the value the writer stage stores is that
    number for the draft it stores, and computing it again on the stored
    draft gives the stored value. *)
Theorem word_count_is_token_count :
  (forall content : str,
      count_words content = Z.of_nat (whitespace_separated_tokens content)
      /\ Forall is_token (split_ws content)
      /\ concat (split_ws content)
         = filter (fun c => negb (isspace c)) content)
  /\ (forall (rt : Runtime) (w : World) (e : Effects) (st : BlogState),
         let st' := merge st (snd (writer_node rt w e st)) in
         word_count st'
         = Z.of_nat (whitespace_separated_tokens (draft_content st'))
         /\ count_words (draft_content st') = word_count st').
Proof.
  split.
  - intros content. split; [apply count_words_tokens|apply split_ws_tokens].
  - intros rt w e st st'.
    destruct (writer_node_metrics rt w e st) as (_ & Hw & _).
    fold st' in Hw. rewrite Hw. split; [apply count_words_tokens|reflexivity].
Qed.

Lemma count_tables_nonneg (content : str) : (0 <= count_tables content)%Z.
Proof. unfold count_tables. apply Z.le_max_l. Qed.

Lemma count_tables_thirds (content : str) :
  count_tables content
  = Z.of_nat (length (filter is_table_line (lines content)) / 3).
Proof.
  unfold count_tables, floordiv, lines.
  rewrite Z.max_r.
  - rewrite Nat2Z.inj_div. reflexivity.
  - apply Z.div_pos; lia.
Qed.

(** C6, as the code has it.  Each line is stripped of surrounding
    whitespace before it is tested: a text with exactly 9 lines that,
    once stripped, start and end with a pipe character has table count 3
    (the number of such lines divided by three, floored), and the table
    count is never negative. *)
Theorem count_tables_nine_stripped_lines (content : str) :
  (0 <= count_tables content)%Z
  /\ count_tables content
     = Z.of_nat (length (filter is_table_line (lines content)) / 3)
  /\ (length (filter is_table_line (lines content)) = 9 ->
      count_tables content = 3%Z).
Proof.
  split; [apply count_tables_nonneg|].
  split; [apply count_tables_thirds|].
  intros H. rewrite count_tables_thirds, H. reflexivity.
Qed.

Lemma count_tables_nine_stripped_lines_witness :
  length (filter is_table_line
            (lines (join [NL] (repeat (of_string " | a | b | ") 9)))) = 9
  /\ count_tables (join [NL] (repeat (of_string " | a | b | ") 9)) = 3%Z.
Proof.
  split; [reflexivity|].
  apply (proj2 (proj2 (count_tables_nine_stripped_lines
                         (join [NL] (repeat (of_string " | a | b | ") 9))))).
  reflexivity.
Defined.

(** C6 as stated fails: nine lines start and end with a pipe character,
    three more do so only once stripped, and the table count is 4. *)
Lemma count_tables_literal_pipe_lines_counterexample :
  let content :=
    join [NL] (repeat (of_string "|a|") 9 ++ repeat (of_string " |b| ") 3) in
  length (filter pipe_line (lines content)) = 9
  /\ count_tables content = 4%Z
  /\ count_tables content <> 3%Z.
Proof. repeat split. discriminate. Qed.

(* ================================================================== *)
(** * The matcher: lemmas *)
(* ================================================================== *)

Lemma dropwhile_length (p : char -> bool) (s : str) :
  length (dropwhile p s) <= length s.
Proof.
  induction s as [|c s IH]; simpl; [lia|].
  destruct (p c); simpl; lia.
Qed.

Lemma dropwhile_incl (p : char -> bool) (s : str) (c : char) :
  In c (dropwhile p s) -> In c s.
Proof.
  induction s as [|a s IH]; simpl; [tauto|].
  destruct (p a); simpl; tauto.
Qed.

Lemma dropwhile_head (p : char -> bool) (s : str) :
  match dropwhile p s with
  | [] => True
  | c :: _ => p c = false
  end.
Proof.
  induction s as [|a s IH]; simpl; [exact I|].
  destruct (p a) eqn:E; [exact IH|exact E].
Qed.

(** A greedy run over one class stops where the class stops, provided
    the rest of the pattern matches from there. *)
Lemma star_chr_greedy (R : Type) (q : char -> bool) (k : cont R) (x : R) :
  forall (s : str) (n : nat) (g : option str),
    length s <= n ->
    k (dropwhile q s) g = Some x ->
    star_loop (m (Chr q)) k n s g = Some x.
Proof.
  induction s as [|c s IH]; intros n g Hn Hk.
  - destruct n; simpl in *; exact Hk.
  - destruct n as [|n]; [simpl in Hn; lia|].
    simpl in *. destruct (q c) eqn:Eq.
    + replace (length s <? S (length s)) with true
        by (symmetry; apply Nat.ltb_lt; lia).
      rewrite (IH n g); [reflexivity|lia|exact Hk].
    + exact Hk.
Qed.

Lemma re_match_plus_chr (q : char -> bool) (s : str) :
  re_match (Plus (Chr q)) s
  = match s with
    | c :: s' => if q c then Some (None, dropwhile q s') else None
    | [] => None
    end.
Proof.
  unfold re_match, Plus. simpl.
  destruct s as [|c s]; [reflexivity|].
  destruct (q c); [|reflexivity].
  apply star_chr_greedy; [lia|reflexivity].
Qed.

Lemma sub_fuel_chr_delete (p : char -> bool) :
  forall (n : nat) (s : str),
    length s < n ->
    sub_fuel n (Chr p) [] s = filter (fun c => negb (p c)) s.
Proof.
  induction n as [|n IH]; intros s Hn; [lia|].
  destruct s as [|c s]; [reflexivity|].
  simpl in Hn. cbn [sub_fuel]. unfold re_match. cbn [m].
  destruct (p c) eqn:Ep; cbn [filter negb]; rewrite Ep; cbn [negb].
  - replace (length s <? length (c :: s)) with true
      by (symmetry; apply Nat.ltb_lt; simpl; lia).
    simpl. apply IH. lia.
  - f_equal. apply IH. lia.
Qed.

(** [re.sub] of a one-character class by the empty string deletes the
    characters of the class. *)
Lemma sub_chr_delete (p : char -> bool) (s : str) :
  sub (Chr p) [] s = filter (fun c => negb (p c)) s.
Proof. apply sub_fuel_chr_delete. lia. Qed.

Lemma sub_fuel_plus_chars (q : char -> bool) (u : char) :
  forall (n : nat) (s : str),
    length s < n ->
    Forall (fun c => c = u \/ (q c = false /\ In c s))
           (sub_fuel n (Plus (Chr q)) [u] s).
Proof.
  induction n as [|n IH]; intros s Hn; [lia|].
  destruct s as [|c s]; cbn [sub_fuel]; rewrite re_match_plus_chr.
  - constructor.
  - simpl in Hn. destruct (q c) eqn:Eq.
    + pose proof (dropwhile_length q s) as Hl.
      replace (length (dropwhile q s) <? length (c :: s)) with true
        by (symmetry; apply Nat.ltb_lt; simpl; lia).
      simpl. constructor; [left; reflexivity|].
      eapply Forall_impl; [|apply IH; lia].
      intros a [->|[Ha Hin]]; [left; reflexivity|].
      right. split; [exact Ha|]. right. eapply dropwhile_incl. exact Hin.
    + constructor; [right; split; [exact Eq|left; reflexivity]|].
      eapply Forall_impl; [|apply IH; lia].
      intros a [->|[Ha Hin]]; [left; reflexivity|].
      right. split; [exact Ha|]. right. exact Hin.
Qed.

(** [re.sub] of runs of a class by one character leaves that character
    and the characters outside the class. *)
Lemma sub_plus_chars (q : char -> bool) (u : char) (s : str) :
  Forall (fun c => c = u \/ (q c = false /\ In c s))
         (sub (Plus (Chr q)) [u] s).
Proof. apply sub_fuel_plus_chars. lia. Qed.

Lemma dropwhile_Forall (P : char -> Prop) (p : char -> bool) (s : str) :
  Forall P s -> Forall P (dropwhile p s).
Proof.
  induction 1 as [|c s Hc Hs IH]; simpl; [constructor|].
  destruct (p c); [exact IH|constructor; assumption].
Qed.

Lemma strip_with_Forall (P : char -> Prop) (p : char -> bool) (s : str) :
  Forall P s -> Forall P (strip_with p s).
Proof.
  intros H. unfold strip_with, rstrip_with, lstrip_with.
  apply Forall_rev, dropwhile_Forall, Forall_rev, dropwhile_Forall, H.
Qed.

Lemma firstn_Forall (P : char -> Prop) (n : nat) (s : str) :
  Forall P s -> Forall P (firstn n s).
Proof.
  intros H. revert n.
  induction H as [|c s Hc Hs IH]; intros [|n]; simpl; constructor; auto.
Qed.

Lemma dropwhile_suffix (p : char -> bool) (s : str) :
  exists pre, s = pre ++ dropwhile p s.
Proof.
  induction s as [|c s [pre IH]]; simpl.
  - exists []. reflexivity.
  - destruct (p c).
    + exists (c :: pre). simpl. f_equal. exact IH.
    + exists []. reflexivity.
Qed.

(** What [rstrip] returns is a prefix of its argument. *)
Lemma rstrip_with_prefix (p : char -> bool) (s : str) :
  exists t, s = rstrip_with p s ++ t.
Proof.
  unfold rstrip_with.
  destruct (dropwhile_suffix p (rev s)) as [pre E].
  exists (rev pre).
  rewrite <- rev_app_distr, <- E, rev_involutive. reflexivity.
Qed.

Lemma strip_with_head (p : char -> bool) (s : str) :
  match strip_with p s with
  | [] => True
  | c :: _ => p c = false
  end.
Proof.
  unfold strip_with.
  destruct (rstrip_with_prefix p (lstrip_with p s)) as [t E].
  pose proof (dropwhile_head p s) as H.
  unfold lstrip_with in *.
  destruct (rstrip_with p (dropwhile p s)) as [|c r]; [exact I|].
  rewrite E in H. exact H.
Qed.

(* ================================================================== *)
(** * The name of the output file *)
(* ================================================================== *)

(** C10.  For every topic, and whatever [str.lower] does to it, the slug
    has at most 50 characters, each of them a lowercase ASCII letter, a
    digit, a hyphen or an underscore, and it does not begin with an
    underscore. *)
Theorem slugify_shape (rt : Runtime) (text : str) :
  let slug := Main.slugify rt text in
  length slug <= 50
  /\ Forall (fun c => slug_alphabet c = true) slug
  /\ startswith [UNDERSCORE] slug = false.
Proof.
  unfold Main.slugify. cbv zeta.
  set (t0 := str_lower rt text).
  rewrite sub_chr_delete.
  set (t1 := filter _ t0).
  set (t2 := sub _ _ t1).
  assert (H1 : Forall (fun c => Main.slug_char c = true) t1).
  { apply Forall_forall. intros c Hc. apply filter_In in Hc.
    destruct Hc as [_ Hc]. rewrite negb_involutive in Hc. exact Hc. }
  assert (H2 : Forall (fun c => slug_alphabet c = true) t2).
  { eapply Forall_impl; [|apply sub_plus_chars].
    intros c [->|[Hq Hin]]; [reflexivity|].
    rewrite Forall_forall in H1. specialize (H1 c Hin).
    unfold Main.space_or_underscore in Hq.
    apply orb_false_elim in Hq. destruct Hq as [Hs Hu].
    unfold Main.slug_char in H1. unfold slug_alphabet.
    rewrite Hs, orb_false_r in H1. rewrite Hu, orb_false_r. exact H1. }
  split; [|split].
  - rewrite length_firstn. lia.
  - apply firstn_Forall. apply strip_with_Forall. exact H2.
  - pose proof (strip_with_head (N.eqb UNDERSCORE) t2) as Hh.
    unfold strip_char.
    destruct (strip_with (N.eqb UNDERSCORE) t2) as [|c r]; [reflexivity|].
    cbn [firstn startswith]. rewrite Hh. reflexivity.
Qed.

(* ================================================================== *)
(** * Labelled values: scores *)
(* ================================================================== *)

Lemma startswith_by_eqb (l s : str) : startswith_by N.eqb l s = startswith l s.
Proof.
  revert s. induction l as [|a l IH]; intros [|b s]; simpl; try reflexivity.
  rewrite IH. reflexivity.
Qed.

Lemma m_seq (R : Type) (r1 r2 : regex) (s : str) (g : option str) (k : cont R) :
  m (Seq r1 r2) s g k = m r1 s g (fun s' g' => m r2 s' g' k).
Proof. reflexivity. Qed.

Lemma m_chr_cons (R : Type) (p : char -> bool) (c : char) (s : str)
      (g : option str) (k : cont R) :
  m (Chr p) (c :: s) g k = if p c then k s g else None.
Proof. reflexivity. Qed.

Lemma m_star (R : Type) (r : regex) (s : str) (g : option str) (k : cont R) :
  m (Star r) s g k = star_loop (m r) k (length s) s g.
Proof. reflexivity. Qed.

(** A literal matches exactly where it starts the input. *)
Lemma m_lit (R : Type) (eqc : char -> char -> bool) (l : str) :
  forall (s : str) (g : option str) (k : cont R),
    m (Lit eqc l) s g k
    = if startswith_by eqc l s then k (skipn (length l) s) g else None.
Proof.
  induction l as [|a l IH]; intros s g k; simpl; [reflexivity|].
  destruct s as [|b s]; [reflexivity|].
  destruct (eqc a b); simpl; [apply IH|reflexivity].
Qed.

Lemma startswith_app (a b s : str) :
  startswith (a ++ b) s = startswith a s && startswith b (skipn (length a) s).
Proof.
  revert s. induction a as [|x a IH]; intros s; simpl.
  - reflexivity.
  - destruct s as [|y s]; simpl.
    + reflexivity.
    + rewrite IH, andb_assoc. reflexivity.
Qed.

Lemma startswith_self (a s : str) : startswith a (a ++ s) = true.
Proof.
  induction a as [|x a IH]; simpl; [reflexivity|].
  rewrite N.eqb_refl, IH. reflexivity.
Qed.

Lemma skipn_length_app (a s : str) : skipn (length a) (a ++ s) = s.
Proof. induction a as [|x a IH]; simpl; [reflexivity|exact IH]. Qed.

Lemma firstn_length_app (a s : str) : firstn (length a) (a ++ s) = a.
Proof. induction a as [|x a IH]; simpl; [reflexivity|f_equal; exact IH]. Qed.

(** [re.search] passes over the offsets that have no match. *)
Lemma search_skip (r : regex) (pre rest : str) :
  (forall i, i < length pre -> re_match r (skipn i (pre ++ rest)) = None) ->
  search r (pre ++ rest) = search r rest.
Proof.
  induction pre as [|c pre IH]; intros H; [reflexivity|].
  assert (H0 := H 0 ltac:(simpl; lia)).
  change (skipn 0 ((c :: pre) ++ rest)) with (c :: pre ++ rest) in H0.
  change ((c :: pre) ++ rest) with (c :: pre ++ rest).
  cbn [search]. rewrite H0. apply IH.
  intros i Hi. apply (H (S i)). simpl. lia.
Qed.

Lemma search_none (r : regex) (text : str) :
  (forall i, re_match r (skipn i text) = None) -> search r text = None.
Proof.
  induction text as [|c text IH]; intros H.
  - pose proof (H 0) as H0. simpl in H0. simpl. rewrite H0. reflexivity.
  - pose proof (H 0) as H0. cbn [skipn] in H0.
    cbn [search]. rewrite H0. apply IH.
    intros i. apply (H (S i)).
Qed.

Lemma search_here (r : regex) (text : str) (x : option str * str) :
  re_match r text = Some x -> search r text = Some x.
Proof. intros H. destruct text; simpl; rewrite H; reflexivity. Qed.

Section ScoreLemmas.
Variable rt : Runtime.

Lemma score_re_needs_label (label s : str) :
  startswith (label ++ [COLON]) s = false ->
  re_match (score_re rt label) s = None.
Proof.
  intros H. unfold re_match, score_re. cbn [m].
  rewrite m_lit, startswith_by_eqb.
  rewrite startswith_app in H.
  destruct (startswith label s); [|reflexivity].
  destruct (skipn (length label) s) as [|c t]; [reflexivity|].
  cbn [startswith andb] in H. rewrite andb_true_r in H.
  rewrite H. reflexivity.
Qed.

Lemma is_digit_digit_char (d : N) : (d <= 9)%N -> is_digit rt (48 + d)%N = true.
Proof.
  intros H. unfold is_digit, digit_value.
  replace (48 + d <? 128)%N with true by (symmetry; apply N.ltb_lt; lia).
  replace ((48 <=? 48 + d) && (48 + d <=? 57))%N with true; [reflexivity|].
  symmetry. apply andb_true_intro. split; apply N.leb_le; lia.
Qed.

Lemma isspace_digit_char (d : N) : (d <= 9)%N -> isspace (48 + d)%N = false.
Proof.
  intros H. unfold isspace.
  repeat match goal with
         | |- context [(?a <=? ?b)%N] =>
             destruct (N.leb_spec a b); try lia
         | |- context [(?a =? ?b)%N] =>
             destruct (N.eqb_spec a b); try lia
         end; reflexivity.
Qed.

Lemma dropwhile_app_all (p : char -> bool) (a rest : str) :
  Forall (fun c => p c = true) a ->
  match rest with [] => True | c :: _ => p c = false end ->
  dropwhile p (a ++ rest) = rest.
Proof.
  induction 1 as [|c a Hc Ha IH]; intros Hr; simpl.
  - destruct rest as [|c rest]; [reflexivity|]. simpl. rewrite Hr. reflexivity.
  - rewrite Hc. apply IH. exact Hr.
Qed.

Lemma digit_value_digit_char (d : N) :
  (d <= 9)%N -> digit_value rt (48 + d)%N = Some d.
Proof.
  intros H. unfold digit_value.
  replace (48 + d <? 128)%N with true by (symmetry; apply N.ltb_lt; lia).
  replace ((48 <=? 48 + d) && (48 + d <=? 57))%N with true
    by (symmetry; apply andb_true_intro; split; apply N.leb_le; lia).
  f_equal. lia.
Qed.

Lemma int_of_digits_digit_chars (ds : list N) :
  Forall (fun d => (d <= 9)%N) ds ->
  int_of_digits rt (digit_chars ds) = digits_value ds.
Proof.
  unfold int_of_digits, digits_value, digit_chars.
  set (f := fun (acc : Z) (c : char) => _).
  set (v := fun (acc : Z) (d : N) => _).
  intros H.
  enough (E : forall acc, fold_left f (map (fun d => (48 + d)%N) ds) acc
                          = fold_left v ds acc) by apply E.
  induction H as [|d ds Hd Hds IH]; intros acc; [reflexivity|].
  cbn [map fold_left]. rewrite IH. f_equal.
  unfold f, v. rewrite (digit_value_digit_char Hd). reflexivity.
Qed.

(** The score pattern at a label followed by whitespace and digits: the
    group is the whole digit run. *)
Lemma score_re_at_label (label ws suf : str) (ds : list N) :
  Forall (fun c => isspace c = true) ws ->
  ds <> [] ->
  Forall (fun d => (d <= 9)%N) ds ->
  match suf with [] => True | c :: _ => is_digit rt c = false end ->
  re_match (score_re rt label)
           (label ++ [COLON] ++ ws ++ digit_chars ds ++ suf)
  = Some (Some (digit_chars ds), suf).
Proof.
  intros Hws Hne Hds Hsuf.
  destruct ds as [|d ds]; [contradiction|].
  inversion Hds as [|? ? Hd Hds']; subst.
  unfold re_match, score_re. cbn [m].
  rewrite m_lit, startswith_by_eqb, startswith_self, skipn_length_app.
  cbn [app]. rewrite N.eqb_refl.
  apply star_chr_greedy; [lia|].
  rewrite dropwhile_app_all;
    [|exact Hws|cbn; apply isspace_digit_char; exact Hd].
  cbn [digit_chars map app m Plus].
  rewrite (is_digit_digit_char Hd).
  apply star_chr_greedy; [lia|].
  rewrite dropwhile_app_all; [|
    apply Forall_forall; intros c Hc; apply in_map_iff in Hc;
    destruct Hc as (d' & <- & Hin); apply is_digit_digit_char;
    rewrite Forall_forall in Hds'; apply Hds'; exact Hin
    | exact Hsuf].
  do 2 f_equal. f_equal.
  change ((48 + d)%N :: map (fun d0 => (48 + d0)%N) ds ++ suf)
    with (digit_chars (d :: ds) ++ suf).
  replace (length (digit_chars (d :: ds) ++ suf) - length suf)
    with (length (digit_chars (d :: ds)))
    by (rewrite length_app; lia).
  apply firstn_length_app.
Qed.

Lemma clamp_min_max (v : Z) : Z.min 10 (Z.max 1 v) = clamp v.
Proof.
  unfold clamp.
  destruct (Z.ltb_spec v 1); [lia|].
  destruct (Z.ltb_spec 10 v); lia.
Qed.

Lemma parse_score_range (label text : str) :
  (1 <= parse_score rt label text <= 10)%Z.
Proof.
  unfold parse_score.
  destruct (search (score_re rt label) text) as [[g rest]|]; lia.
Qed.

Lemma parse_score_labelled (label pre ws suf : str) (ds : list N) :
  let text := pre ++ label ++ [COLON] ++ ws ++ digit_chars ds ++ suf in
  (forall i, i < length pre -> occurs_at (label ++ [COLON]) i text = false) ->
  Forall (fun c => isspace c = true) ws ->
  ds <> [] ->
  Forall (fun d => (d <= 9)%N) ds ->
  match suf with [] => True | c :: _ => is_digit rt c = false end ->
  parse_score rt label text = clamp (digits_value ds).
Proof.
  intros text Hpre Hws Hne Hds Hsuf.
  unfold parse_score, text.
  rewrite search_skip.
  - erewrite search_here by (apply score_re_at_label; assumption).
    cbn [group1]. rewrite int_of_digits_digit_chars by exact Hds.
    apply clamp_min_max.
  - intros i Hi. apply score_re_needs_label. apply (Hpre i Hi).
Qed.

Lemma parse_score_absent (label text : str) :
  (forall i, occurs_at (label ++ [COLON]) i text = false) ->
  parse_score rt label text = 5%Z.
Proof.
  intros H. unfold parse_score.
  rewrite search_none; [reflexivity|].
  intros i. apply score_re_needs_label. apply H.
Qed.

End ScoreLemmas.

(** C5.  The stored score is the labelled integer clamped into [1, 10]:
    at the first occurrence of [LABEL:] followed by optional whitespace
    and a run of decimal digits (of a length [int] converts), the score
    is the clamped value of the run, so 15 gives 10 and 0 gives 1; where
    [LABEL:] does not occur the score is 5.  The reviewer stage stores
    this for [OVERALL_SCORE], the SEO stage for [SEO_SCORE]. *)
Theorem score_parsing_clamps (rt : Runtime) :
  (forall (label pre ws suf : str) (ds : list N),
      let text := pre ++ label ++ [COLON] ++ ws ++ digit_chars ds ++ suf in
      (forall i, i < length pre ->
                 occurs_at (label ++ [COLON]) i text = false) ->
      Forall (fun c => isspace c = true) ws ->
      ds <> [] ->
      length ds <= 4300 ->
      Forall (fun d => (d <= 9)%N) ds ->
      match suf with [] => True | c :: _ => is_digit rt c = false end ->
      parse_score rt label text = clamp (digits_value ds))
  /\ (forall label text : str, (1 <= parse_score rt label text <= 10)%Z)
  /\ (forall label : str,
         parse_score rt label (label ++ of_string ": 15") = 10%Z
         /\ parse_score rt label (label ++ of_string ": 0") = 1%Z)
  /\ (forall label text : str,
         (forall i, occurs_at (label ++ [COLON]) i text = false) ->
         parse_score rt label text = 5%Z)
  /\ (forall (w : World) (e : Effects) (st : BlogState),
         option_map overall_score
           (review_feedback (merge st (snd (reviewer_node rt w e st))))
         = Some (parse_score rt (of_string "OVERALL_SCORE")
                             (llm_invoke w (llm_calls e))))
  /\ (forall (w : World) (e : Effects) (st : BlogState),
         option_map seo_score
           (seo_analysis (merge st (snd (seo_node rt w e st))))
         = Some (parse_score rt (of_string "SEO_SCORE")
                             (llm_invoke w (llm_calls e)))).
Proof.
  split; [intros; apply parse_score_labelled; assumption|].
  split; [intros; apply parse_score_range|].
  split; [|split; [intros; apply parse_score_absent; assumption|]].
  - intros label. split.
    + apply (@parse_score_labelled rt label [] (of_string " ") [] [1; 5]%N);
        [intros i Hi; simpl in Hi; lia|repeat constructor| discriminate
        |repeat constructor; lia|exact I].
    + apply (@parse_score_labelled rt label [] (of_string " ") [] [0]%N);
        [intros i Hi; simpl in Hi; lia|repeat constructor| discriminate
        |repeat constructor; lia|exact I].
  - split; intros; reflexivity.
Qed.

Lemma score_parsing_clamps_witness :
  parse_score ascii_runtime (of_string "OVERALL_SCORE")
              (of_string "Review." ++ of_string "OVERALL_SCORE" ++ [COLON]
               ++ of_string "  " ++ digit_chars [1; 5]%N ++ of_string "/10")
  = 10%Z.
Proof.
  apply (proj1 (score_parsing_clamps ascii_runtime)
               (of_string "OVERALL_SCORE") (of_string "Review.")
               (of_string "  ") (of_string "/10") [1; 5]%N).
  - intros i Hi.
    do 7 (destruct i as [|i]; [reflexivity|]).
    simpl in Hi. lia.
  - repeat constructor.
  - discriminate.
  - simpl. lia.
  - repeat constructor; lia.
  - reflexivity.
Defined.

(* ================================================================== *)
(** * Labelled lists *)
(* ================================================================== *)

Lemma star_chr_none (R : Type) (q : char -> bool) (k : cont R) (g : option str) :
  forall (n : nat) (s : str),
    fails_along q k g s -> star_loop (m (Chr q)) k n s g = None.
Proof.
  induction n as [|n IH]; intros s H.
  - destruct s; exact (proj1 H).
  - destruct s as [|c t]; cbn [star_loop m].
    + exact (proj1 H).
    + destruct H as [H0 H1]. destruct (q c).
      * pose proof (IH t H1) as E. cbn [m] in E.
        destruct (_ <? _); [rewrite E|]; exact H0.
      * exact H0.
Qed.

Lemma bullet_ci_not_space (c : char) : bullet_ci c = true -> isspace c = false.
Proof.
  unfold bullet_ci, bullet. intros H.
  repeat (apply orb_prop in H; destruct H as [H|H]);
    apply N.eqb_eq in H; subst; reflexivity.
Qed.

Lemma section_body_fails_along (R : Type) (k : cont R) (r : regex) (g : option str) :
  forall s : str,
    match dropwhile isspace s with b :: _ => bullet_ci b | [] => false end
    = false ->
    fails_along isspace
      (fun s' g' => m (Grp (Plus (Seq (Chr bullet_ci) r))) s' g' k) g s.
Proof.
  induction s as [|c t IH]; intros H.
  - split; [reflexivity|exact I].
  - cbn [dropwhile] in H. cbn [fails_along m Plus].
    destruct (isspace c) eqn:Es.
    + split; [|apply IH; exact H].
      destruct (bullet_ci c) eqn:Eb; [|reflexivity].
      apply bullet_ci_not_space in Eb. congruence.
    + split; [|exact I]. rewrite H. reflexivity.
Qed.

Lemma list_section_re_needs_opening (label s : str) :
  section_opens_at label 0 s = false ->
  re_match (list_section_re label) s = None.
Proof.
  unfold section_opens_at, re_match, list_section_re. cbn [skipn].
  intros H. rewrite m_seq, m_lit.
  destruct (startswith_by ci_eqb label s); [|reflexivity].
  cbn [andb] in H. rewrite m_seq.
  destruct (skipn (length label) s) as [|c r]; [reflexivity|].
  rewrite m_chr_cons.
  destruct (COLON =? c)%N; [|reflexivity].
  cbn [andb] in H. rewrite m_seq, m_star.
  apply star_chr_none. apply section_body_fails_along. exact H.
Qed.

Lemma section_opens_at_skipn (label text : str) (i : nat) :
  section_opens_at label 0 (skipn i text) = section_opens_at label i text.
Proof. reflexivity. Qed.

Lemma extract_list_section_missing (text label : str) :
  section_missing label text -> extract_list text label = [].
Proof.
  intros H. unfold extract_list.
  rewrite search_none; [reflexivity|].
  intros i. apply list_section_re_needs_opening.
  rewrite section_opens_at_skipn. apply H.
Qed.

Lemma label_absent_section_missing (label text : str) :
  label_absent label text -> section_missing label text.
Proof.
  intros H i. unfold section_opens_at.
  specialize (H i). unfold label_occurs_at in H. rewrite H. reflexivity.
Qed.

(** Checking every offset of a text decides [section_missing]. *)
Lemma section_missing_check (label text : str) :
  forallb (fun i => negb (section_opens_at label i text))
          (seq 0 (S (length text))) = true ->
  section_missing label text.
Proof.
  intros H i. rewrite forallb_forall in H.
  destruct (Nat.le_gt_cases i (length text)) as [Hi|Hi].
  - specialize (H i). rewrite negb_true_iff in H. apply H.
    apply in_seq. lia.
  - specialize (H (length text)). rewrite negb_true_iff in H.
    unfold section_opens_at in *.
    rewrite skipn_all2 by lia.
    rewrite skipn_all in H. apply H. apply in_seq. lia.
Qed.

(** C9.  The list parser returns a list for every reply.  Where the
    label is absent, or is not followed by a colon, optional whitespace
    and a bullet, the list is empty: the researcher stage then stores an
    empty list, the reviewer stage its fixed one-element list, and the
    reviewer's lists are never empty. *)
Theorem list_parser_misses_are_silent
        (rt : Runtime) (w : World) (e : Effects) (st : BlogState) :
  let reply := llm_invoke w (llm_calls e) in
  (forall label : str,
      (label_absent label reply -> section_missing label reply)
      /\ (section_missing label reply -> extract_list reply label = []))
  /\ ((1 <? current_iteration st)%Z && truthy (research_context st) = false ->
      exists rc,
        research_context (merge st (snd (researcher_node w e st))) = Some rc
        /\ (section_missing (of_string "KEY_FACTS") reply -> key_facts rc = [])
        /\ (section_missing (of_string "STATISTICS") reply ->
            statistics rc = [])
        /\ (section_missing (of_string "BEST_PRACTICES") reply ->
            best_practices rc = [])
        /\ (section_missing (of_string "RECOMMENDED_TOPICS") reply ->
            recommended_topics rc = [])
        /\ (section_missing (of_string "KEY_SOURCES") reply ->
            key_sources rc = []))
  /\ (exists rf,
         review_feedback (merge st (snd (reviewer_node rt w e st))) = Some rf
         /\ strengths rf <> [] /\ improvements rf <> []
         /\ priority_fixes rf <> []
         /\ (section_missing (of_string "STRENGTHS") reply ->
             strengths rf = [of_string "Content is well-structured"])
         /\ (section_missing (of_string "IMPROVEMENTS") reply ->
             improvements rf = [of_string "Consider adding more depth"])
         /\ (section_missing (of_string "PRIORITY_FIXES") reply ->
             priority_fixes rf = [of_string "Expand key sections"])).
Proof.
  intros reply. split; [|split].
  - intros label. split.
    + apply label_absent_section_missing.
    + apply extract_list_section_missing.
  - intros Hpath. unfold researcher_node. rewrite Hpath.
    eexists. split; [reflexivity|].
    cbn [key_facts statistics best_practices recommended_topics key_sources].
    repeat split; apply extract_list_section_missing.
  - eexists. split; [reflexivity|].
    cbn [strengths improvements priority_fixes].
    assert (Hne : forall (xs : list str) (d : str), or_else xs [d] <> []).
    { intros [|x xs] d; discriminate. }
    repeat split; try apply Hne;
      intros H; unfold reply in H;
      rewrite (extract_list_section_missing H); reflexivity.
Qed.

Lemma list_parser_misses_are_silent_witness :
  let st := create_initial_state (of_string "topic") 3 in
  let w := constant_world (of_string "STRENGTHS none. KEY_FACTS: n/a") in
  (exists rc,
      research_context (merge st (snd (researcher_node w no_effects st)))
      = Some rc
      /\ key_facts rc = [])
  /\ (exists rf,
         review_feedback
           (merge st (snd (reviewer_node ascii_runtime w no_effects st)))
         = Some rf
         /\ strengths rf = [of_string "Content is well-structured"]).
Proof.
  intros st w.
  pose proof (list_parser_misses_are_silent ascii_runtime w no_effects st)
    as (_ & Hres & Hrev).
  split.
  - destruct (Hres eq_refl) as (rc & Hrc & Hkf & _).
    exists rc. split; [exact Hrc|].
    apply Hkf. apply section_missing_check. vm_compute. reflexivity.
  - destruct Hrev as (rf & Hrf & _ & _ & _ & Hs & _).
    exists rf. split; [exact Hrf|].
    apply Hs. apply section_missing_check. vm_compute. reflexivity.
Defined.

(* ================================================================== *)
(** * Code blocks *)
(* ================================================================== *)

Lemma count_from_none (sub : str) :
  forall (s : str) (k : nat),
    (forall i, k <= i -> startswith sub (skipn i s) = false) ->
    count_from sub k s = 0.
Proof.
  induction s as [|c t IH]; intros k H; [reflexivity|].
  destruct k as [|k]; cbn [count_from].
  - pose proof (H 0 (Nat.le_refl 0)) as H0. cbn [skipn] in H0.
    rewrite H0. apply IH.
    intros i _. apply (H (S i)). lia.
  - apply IH. intros i Hi. apply (H (S i)). lia.
Qed.

Lemma count_from_pre (sub pre s : str) :
  (forall i, i < length pre -> startswith sub (skipn i (pre ++ s)) = false) ->
  count_from sub 0 (pre ++ s) = count_from sub 0 s.
Proof.
  induction pre as [|c pre IH]; intros H; [reflexivity|].
  pose proof (H 0 ltac:(simpl; lia)) as H0. cbn [skipn app] in H0.
  cbn [app count_from]. rewrite H0. apply IH.
  intros i Hi. apply (H (S i)). simpl. lia.
Qed.

Lemma count_from_skip (sub x s : str) :
  count_from sub (length x) (x ++ s) = count_from sub 0 s.
Proof. induction x as [|c x IH]; [reflexivity|exact IH]. Qed.

Lemma skipn_add_app (pre s : str) (i : nat) :
  skipn (length pre + i) (pre ++ s) = skipn i s.
Proof. induction pre as [|c pre IH]; [reflexivity|exact IH]. Qed.

(** A string that occurs at one offset only is counted once. *)
Lemma count_single_occurrence (sub pre body : str) :
  sub <> [] ->
  occurs_only_at sub (length pre) (pre ++ sub ++ body) ->
  count sub (pre ++ sub ++ body) = 1.
Proof.
  intros Hne H. unfold occurs_only_at, occurs_at in H.
  destruct sub as [|c sub']; [contradiction|].
  unfold count. rewrite count_from_pre by (intros i Hi; apply H; lia).
  change ((c :: sub') ++ body) with (c :: (sub' ++ body)).
  cbn [count_from].
  change (c :: sub' ++ body) with ((c :: sub') ++ body).
  rewrite startswith_self.
  replace (length (c :: sub') - 1) with (length sub') by (simpl; lia).
  rewrite count_from_skip. f_equal.
  apply count_from_none. intros i _.
  rewrite <- (skipn_add_app (c :: sub') body i).
  rewrite <- (skipn_add_app pre ((c :: sub') ++ body)).
  apply H. simpl. lia.
Qed.

Lemma startswith_fence_python (s : str) :
  startswith fence_python s = true -> startswith fence_py s = true.
Proof.
  change fence_python with (fence_py ++ of_string "thon").
  rewrite startswith_app. intros H. apply andb_prop in H. apply H.
Qed.

(** C3 on every draft with one opener tagged [python] and no other
    [```py]: the code-block count is 2, not 1, because the opener is
    found once as [```python] and once more as [```py]. *)
Theorem count_code_blocks_counts_python_fence_twice (pre body : str) :
  let draft := pre ++ fence_python ++ body in
  occurs_only_at fence_py (length pre) draft ->
  count fence_python draft = 1
  /\ count fence_py draft = 1
  /\ count_code_blocks draft = 2%Z
  /\ forall (rt : Runtime) (e : Effects) (st : BlogState),
       code_block_count
         (merge st (snd (writer_node rt (constant_world draft) e st))) = 2%Z.
Proof.
  intros draft H.
  assert (H1 : count fence_python draft = 1).
  { apply count_single_occurrence; [discriminate|].
    intros i Hi. specialize (H i Hi). unfold occurs_at in *.
    destruct (startswith fence_python (skipn i draft)) eqn:E; [|exact E].
    apply startswith_fence_python in E. congruence. }
  assert (H2 : count fence_py draft = 1).
  { assert (Ed : draft = pre ++ fence_py ++ (of_string "thon" ++ body)).
    { unfold draft. change fence_python with (fence_py ++ of_string "thon").
      rewrite <- app_assoc. reflexivity. }
    rewrite Ed. apply count_single_occurrence; [discriminate|].
    rewrite <- Ed. exact H. }
  assert (H3 : count_code_blocks draft = 2%Z)
    by (unfold count_code_blocks; rewrite H1, H2; reflexivity).
  split; [exact H1|]. split; [exact H2|]. split; [exact H3|].
  intros rt e st. exact H3.
Qed.

(** Checking every offset of a text decides [occurs_only_at]. *)
Lemma occurs_only_at_check (needle : str) (i0 : nat) (text : str) :
  needle <> [] ->
  forallb (fun i => (i =? i0) || negb (occurs_at needle i text))
          (seq 0 (S (length text))) = true ->
  occurs_only_at needle i0 text.
Proof.
  intros Hne H i Hi. rewrite forallb_forall in H.
  destruct (Nat.le_gt_cases i (length text)) as [Hle|Hgt].
  - specialize (H i ltac:(apply in_seq; lia)).
    apply orb_prop in H. destruct H as [H|H].
    + apply Nat.eqb_eq in H. contradiction.
    + apply negb_true_iff in H. exact H.
  - unfold occurs_at. rewrite skipn_all2 by lia.
    destruct needle; [contradiction|reflexivity].
Qed.

Lemma count_code_blocks_counts_python_fence_twice_witness :
  let draft :=
    text_of_lines ["Intro"; "```python"; "print(1)"; "```"; "Done."]%string in
  count fence_python draft = 1 /\ count_code_blocks draft = 2%Z.
Proof.
  intros draft.
  destruct (@count_code_blocks_counts_python_fence_twice
              (of_string "Intro" ++ [NL])
              ([NL] ++ text_of_lines ["print(1)"; "```"; "Done."]%string))
    as (H1 & _ & H3 & _).
  - apply occurs_only_at_check; [discriminate|]. vm_compute. reflexivity.
  - split; [exact H1|exact H3].
Defined.

(* ================================================================== *)
(** * The meta description *)
(* ================================================================== *)

Lemma endswith_app (a b : str) : endswith b (a ++ b) = true.
Proof.
  unfold endswith. rewrite rev_app_distr. apply startswith_self.
Qed.

(** The SEO agent of [agents/seo_agent.py] cuts a long meta description
    to 157 characters and appends an ellipsis. *)
Lemma SEOAgent_meta_description_truncated (rt : Runtime) (response topic : str) :
  let candidate := SEOAgent.meta_description_candidate rt response topic in
  let stored := SEOAgent.parse_meta_description rt response topic in
  (160 < length candidate ->
   length stored = 160 /\ endswith (of_string "...") stored = true)
  /\ (length candidate <= 160 -> stored = candidate).
Proof.
  intros candidate stored. unfold stored, SEOAgent.parse_meta_description.
  fold candidate. unfold SEOAgent.ensure_proper_length.
  split; intros H.
  - replace (160 <? length candidate) with true
      by (symmetry; apply Nat.ltb_lt; exact H).
    split; [|apply endswith_app].
    rewrite length_app, length_firstn.
    change (length (of_string "...")) with 3. lia.
  - replace (160 <? length candidate) with false
      by (symmetry; apply Nat.ltb_ge; exact H).
    reflexivity.
Qed.

Lemma ci_eqb_refl (c : char) : ci_eqb c c = true.
Proof. unfold ci_eqb. rewrite N.eqb_refl. reflexivity. Qed.

Lemma startswith_by_ci_self (l s : str) : startswith_by ci_eqb l (l ++ s) = true.
Proof.
  induction l as [|a l IH]; simpl; [reflexivity|].
  rewrite ci_eqb_refl. exact IH.
Qed.

Lemma rstrip_with_length (p : char -> bool) (s : str) :
  length (rstrip_with p s) <= length s.
Proof.
  destruct (rstrip_with_prefix p s) as [t E].
  rewrite E at 2. rewrite length_app. lia.
Qed.

(** A string that [strip] leaves alone does not start with whitespace. *)
Lemma strip_fixed_head (c : char) (t : str) :
  strip (c :: t) = c :: t -> isspace c = false.
Proof.
  intros H. destruct (isspace c) eqn:E; [|reflexivity].
  exfalso. apply (f_equal (@length _)) in H.
  unfold strip, strip_with, lstrip_with in H. cbn [dropwhile] in H.
  rewrite E in H.
  pose proof (rstrip_with_length isspace (dropwhile isspace t)) as H1.
  pose proof (dropwhile_length isspace t) as H2.
  simpl in H. lia.
Qed.

Lemma dropwhile_all (p : char -> bool) (s : str) :
  Forall (fun c => p c = true) s -> dropwhile p s = [].
Proof.
  induction 1 as [|c s Hc Hs IH]; simpl; [reflexivity|].
  rewrite Hc. exact IH.
Qed.

(** [extract_value] at a label followed by a colon, a space and a value
    on one line. *)
Lemma extract_value_labelled (label value : str) :
  value <> [] ->
  Forall (fun c => not_nl c = true) value ->
  strip value = value ->
  extract_value (label ++ [COLON; 32%N] ++ value) label = value.
Proof.
  intros Hne Hnl Hstrip.
  destruct value as [|c t]; [contradiction|].
  pose proof (strip_fixed_head Hstrip) as Hc.
  inversion Hnl as [|? ? Hc_nl Ht_nl]; subst.
  unfold extract_value.
  rewrite (@search_here (value_re label) _ (Some (c :: t), []));
    [cbn [group1]; exact Hstrip|].
  unfold re_match, value_re.
  rewrite m_seq, m_lit, startswith_by_ci_self, skipn_length_app.
  rewrite m_seq. cbn [app]. rewrite m_chr_cons, N.eqb_refl.
  rewrite m_seq, m_star.
  apply star_chr_greedy; [lia|].
  cbn [dropwhile]. change (isspace 32%N) with true. cbv iota.
  cbn [dropwhile]. rewrite Hc.
  cbn [m Plus]. rewrite Hc_nl.
  apply star_chr_greedy; [lia|].
  rewrite (@dropwhile_all not_nl t Ht_nl).
  do 3 f_equal. cbn [length]. rewrite Nat.sub_0_r.
  apply (firstn_all (c :: t)).
Qed.

(** C4 on every reply that gives a meta description of more than 160
    characters on the line of its label: the SEO stage of the graph
    stores the description whole, longer than 160, where the SEO agent's
    step would have cut it to 160. *)
Theorem seo_node_keeps_long_meta_description
        (rt : Runtime) (e : Effects) (st : BlogState) (candidate : str) :
  160 < length candidate ->
  Forall (fun c => not_nl c = true) candidate ->
  strip candidate = candidate ->
  let reply := of_string "META_DESCRIPTION: " ++ candidate in
  exists sa,
    seo_analysis (merge st (snd (seo_node rt (constant_world reply) e st)))
    = Some sa
    /\ meta_description sa = candidate
    /\ 160 < length (meta_description sa)
    /\ length (SEOAgent.ensure_proper_length candidate) = 160
    /\ endswith (of_string "...") (SEOAgent.ensure_proper_length candidate)
       = true.
Proof.
  intros Hlen Hnl Hstrip reply. eexists. split; [reflexivity|].
  cbn [meta_description].
  assert (E : extract_value (llm_invoke (constant_world reply) (llm_calls e))
                            (of_string "META_DESCRIPTION") = candidate).
  { apply (@extract_value_labelled (of_string "META_DESCRIPTION") candidate);
      [intros ->; simpl in Hlen; lia|exact Hnl|exact Hstrip]. }
  rewrite E.
  assert (Hc : or_else candidate
                 (of_string "Learn about " ++ Models.topic st
                  ++ of_string " in this comprehensive guide.") = candidate)
    by (destruct candidate; [simpl in Hlen; lia|reflexivity]).
  rewrite Hc. split; [reflexivity|]. split; [exact Hlen|].
  unfold SEOAgent.ensure_proper_length.
  replace (160 <? length candidate) with true
    by (symmetry; apply Nat.ltb_lt; exact Hlen).
  split; [|apply endswith_app].
  rewrite length_app, length_firstn.
  change (length (of_string "...")) with 3. lia.
Qed.

Lemma seo_node_keeps_long_meta_description_witness :
  let candidate := repeat 97%N 161 in
  let reply := of_string "META_DESCRIPTION: " ++ candidate in
  exists sa,
    seo_analysis
      (merge (create_initial_state (of_string "Example Topic") 1)
             (snd (seo_node ascii_runtime (constant_world reply) no_effects
                            (create_initial_state (of_string "Example Topic") 1))))
    = Some sa
    /\ length (meta_description sa) = 161
    /\ endswith (of_string "...") (meta_description sa) = false.
Proof.
  intros candidate reply.
  destruct (@seo_node_keeps_long_meta_description
              ascii_runtime no_effects
              (create_initial_state (of_string "Example Topic") 1) candidate)
    as (sa & Hsa & Hmd & _).
  - vm_compute. lia.
  - apply Forall_forall. intros c Hc. apply repeat_spec in Hc. subst.
    reflexivity.
  - vm_compute. reflexivity.
  - exists sa. split; [exact Hsa|]. rewrite Hmd. split; reflexivity.
Defined.

(* ================================================================== *)
(** * The run of the graph *)
(* ================================================================== *)

Section Run.
Variable rt : Runtime.
Variable w : World.

Local Abbreviation step := (step rt w).
Local Abbreviation steps := (steps rt w).
Local Abbreviation run_node := (run_node rt w).

Lemma step_unfold (c : Config) :
  is_END (at_node c) = false ->
  step c
  = let r := run_node (at_node c) (effects c) (state c) in
    let s' := merge (state c) (snd r) in
    {| at_node := next_node (at_node c) s';
       state := s';
       effects := fst r;
       executed := executed c ++ [at_node c] |}.
Proof.
  intros H. unfold Graph.step. rewrite H.
  destruct (run_node (at_node c) (effects c) (state c)). reflexivity.
Qed.

Lemma steps_add (a b : nat) (c : Config) :
  steps (a + b) c = steps b (steps a c).
Proof.
  revert c. induction a as [|a IH]; intros c; [reflexivity|].
  simpl. apply IH.
Qed.

Lemma steps_S (n : nat) (c : Config) : steps (S n) c = step (steps n c).
Proof.
  replace (S n) with (n + 1) by lia. rewrite steps_add. reflexivity.
Qed.

Lemma step_at_END (c : Config) : at_node c = END -> step c = c.
Proof. intros H. unfold Graph.step. rewrite H. reflexivity. Qed.

Lemma steps_at_END (n : nat) (c : Config) : at_node c = END -> steps n c = c.
Proof.
  induction n as [|n IH]; intros H; [reflexivity|].
  simpl. rewrite step_at_END by exact H. apply IH, H.
Qed.

Lemma same_control_refl (a : BlogState) : same_control a a.
Proof. repeat split. Qed.

Lemma same_control_trans (a b c : BlogState) :
  same_control a b -> same_control b c -> same_control a c.
Proof.
  unfold same_control. intros (A1 & A2 & A3 & A4) (B1 & B2 & B3 & B4).
  repeat split; congruence.
Qed.

(** What the four stages leave alone. *)
Lemma stage_keeps_control (n : Node) (e : Effects) (st : BlogState) :
  n <> Controller ->
  same_control (merge st (snd (run_node n e st))) st.
Proof.
  intros Hn. destruct n; try contradiction; cbn [Graph.run_node].
  - unfold researcher_node. destruct (_ && _); repeat split.
  - repeat split.
  - repeat split.
  - repeat split.
  - repeat split.
Qed.

Lemma controller_keeps (st : BlogState) :
  let st' := after_controller st in
  max_iterations st' = max_iterations st
  /\ topic st' = topic st
  /\ research_context st' = research_context st
  /\ review_feedback st' = review_feedback st
  /\ seo_analysis st' = seo_analysis st
  /\ draft_content st' = draft_content st
  /\ word_count st' = word_count st.
Proof.
  unfold after_controller, iteration_controller.
  destruct (_ <? _)%Z; repeat split.
Qed.

(** The controller either moves to the next iteration or completes. *)
Lemma controller_decides (st : BlogState) :
  let st' := after_controller st in
  ((current_iteration st < max_iterations st)%Z ->
   current_iteration st' = (current_iteration st + 1)%Z
   /\ is_complete st' = is_complete st)
  /\ ((max_iterations st <= current_iteration st)%Z ->
      current_iteration st' = current_iteration st
      /\ is_complete st' = true).
Proof.
  unfold after_controller, iteration_controller.
  destruct (Z.ltb_spec (max_iterations st) (current_iteration st + 1));
    split; intros; try lia; split; reflexivity.
Qed.


Lemma step_stage (c : Config) :
  at_node c <> END -> at_node c <> Controller ->
  let r := run_node (at_node c) (effects c) (state c) in
  at_node (step c) = next_node (at_node c) (state c)
  /\ state (step c) = merge (state c) (snd r)
  /\ effects (step c) = fst r
  /\ executed (step c) = executed c ++ [at_node c].
Proof.
  intros H1 H2 r. rewrite step_unfold by (destruct (at_node c); tauto).
  cbv zeta. fold r. cbn [at_node state effects executed].
  repeat split. destruct (at_node c); try reflexivity; contradiction.
Qed.

Lemma step_controller (c : Config) :
  at_node c = Controller ->
  at_node (step c)
  = (if is_complete (after_controller (state c)) then END else Researcher)
  /\ state (step c) = after_controller (state c)
  /\ effects (step c) = effects c
  /\ executed (step c) = executed c ++ [Controller].
Proof.
  intros H. rewrite step_unfold by (rewrite H; reflexivity).
  rewrite H. cbv zeta. cbn [at_node state effects executed Graph.run_node fst snd].
  fold (after_controller (state c)).
  repeat split. unfold next_node, should_continue.
  destruct (is_complete _); reflexivity.
Qed.

(** The researcher stage: on its short path nothing but the message log
    changes and no call is made; otherwise one search and one model call
    are made and a context is stored. *)
Lemma researcher_facts (e : Effects) (st : BlogState) :
  let r := researcher_node w e st in
  let st' := merge st (snd r) in
  draft_content st' = draft_content st
  /\ word_count st' = word_count st
  /\ review_feedback st' = review_feedback st
  /\ seo_analysis st' = seo_analysis st
  /\ (cached st = true ->
      fst r = e /\ research_context st' = research_context st)
  /\ (cached st = false ->
      research_calls (fst r) = S (research_calls e)
      /\ llm_calls (fst r) = S (llm_calls e)
      /\ research_context st' <> None).
Proof.
  unfold cached, researcher_node.
  destruct (_ && _); repeat split; try discriminate.
Qed.

Lemma writer_facts (e : Effects) (st : BlogState) :
  let r := writer_node rt w e st in
  let st' := merge st (snd r) in
  word_count st' = count_words (draft_content st')
  /\ research_context st' = research_context st
  /\ review_feedback st' = review_feedback st
  /\ seo_analysis st' = seo_analysis st
  /\ research_calls (fst r) = research_calls e
  /\ llm_calls (fst r) = S (llm_calls e).
Proof. repeat split. Qed.

Lemma reviewer_facts (e : Effects) (st : BlogState) :
  let r := reviewer_node rt w e st in
  let st' := merge st (snd r) in
  draft_content st' = draft_content st
  /\ word_count st' = word_count st
  /\ research_context st' = research_context st
  /\ review_feedback st' <> None
  /\ seo_analysis st' = seo_analysis st
  /\ research_calls (fst r) = research_calls e
  /\ llm_calls (fst r) = S (llm_calls e).
Proof. repeat split. discriminate. Qed.

Lemma seo_facts (e : Effects) (st : BlogState) :
  let r := seo_node rt w e st in
  let st' := merge st (snd r) in
  draft_content st' = draft_content st
  /\ word_count st' = word_count st
  /\ research_context st' = research_context st
  /\ review_feedback st' = review_feedback st
  /\ seo_analysis st' <> None
  /\ research_calls (fst r) = research_calls e
  /\ llm_calls (fst r) = S (llm_calls e).
Proof. repeat split. discriminate. Qed.


(** One pass through the cycle, from the researcher to the decision of
    the controller. *)
Lemma pass (c : Config) :
  at_node c = Researcher ->
  let c4 := steps 4 c in
  let c5 := steps 5 c in
  (forall j, j < 5 ->
             at_node (steps j c) = nth j cycle END
             /\ same_control (state (steps j c)) (state c))
  /\ (forall j, 1 <= j <= 5 ->
                research_calls (effects (steps j c))
                = research_calls (effects (step c))
                /\ research_context (state (steps j c))
                   = research_context (state (step c)))
  /\ state c5 = after_controller (state c4)
  /\ at_node c5 = (if is_complete (state c5) then END else Researcher)
  /\ executed c5 = executed c ++ cycle
  /\ (cached (state c) = true ->
      research_calls (effects c5) = research_calls (effects c)
      /\ llm_calls (effects c5) = 3 + llm_calls (effects c)
      /\ research_context (state c5) = research_context (state c))
  /\ (cached (state c) = false ->
      research_calls (effects c5) = S (research_calls (effects c))
      /\ llm_calls (effects c5) = 4 + llm_calls (effects c)
      /\ research_context (state c5) = research_context (state (step c)))
  /\ research_context (state c5) <> None
  /\ review_feedback (state c5) <> None
  /\ seo_analysis (state c5) <> None
  /\ word_count (state c5) = count_words (draft_content (state c5)).
Proof.
  intros Hn.
  change (steps 4 c) with (step (step (step (step c)))).
  change (steps 5 c) with (step (step (step (step (step c))))).
  (* researcher *)
  destruct (step_stage c) as (A1 & S1 & E1 & X1);
    [rewrite Hn; discriminate ..|].
  pose proof (@stage_keeps_control Researcher (effects c) (state c)
                ltac:(discriminate)) as K1.
  pose proof (researcher_facts (effects c) (state c)) as F1.
  rewrite Hn in A1, S1, E1, X1. cbn [next_node Graph.run_node] in *.
  cbv zeta in F1. rewrite <- S1, <- E1 in *.
  set (c1 := step c) in *.
  (* writer *)
  destruct (step_stage c1) as (A2 & S2 & E2 & X2);
    [rewrite A1; discriminate ..|].
  pose proof (@stage_keeps_control Writer (effects c1) (state c1)
                ltac:(discriminate)) as K2.
  pose proof (writer_facts (effects c1) (state c1)) as F2.
  rewrite A1 in A2, S2, E2, X2. cbn [next_node Graph.run_node] in *.
  cbv zeta in F2. rewrite <- S2, <- E2 in *.
  set (c2 := step c1) in *.
  (* reviewer *)
  destruct (step_stage c2) as (A3 & S3 & E3 & X3);
    [rewrite A2; discriminate ..|].
  pose proof (@stage_keeps_control Reviewer (effects c2) (state c2)
                ltac:(discriminate)) as K3.
  pose proof (reviewer_facts (effects c2) (state c2)) as F3.
  rewrite A2 in A3, S3, E3, X3. cbn [next_node Graph.run_node] in *.
  cbv zeta in F3. rewrite <- S3, <- E3 in *.
  set (c3 := step c2) in *.
  (* seo *)
  destruct (step_stage c3) as (A4 & S4 & E4 & X4);
    [rewrite A3; discriminate ..|].
  pose proof (@stage_keeps_control Seo (effects c3) (state c3)
                ltac:(discriminate)) as K4.
  pose proof (seo_facts (effects c3) (state c3)) as F4.
  rewrite A3 in A4, S4, E4, X4. cbn [next_node Graph.run_node] in *.
  cbv zeta in F4. rewrite <- S4, <- E4 in *.
  set (c4 := step c3) in *.
  (* controller *)
  destruct (step_controller c4 A4) as (A5 & S5 & E5 & X5).
  pose proof (controller_keeps (state c4)) as F5.
  cbv zeta in F5. rewrite <- S5 in *.
  set (c5 := step c4) in *.
  destruct F1 as (F1d & F1w & F1r & F1s & F1c & F1n).
  destruct F2 as (F2w & F2c & F2r & F2s & F2rc & F2l).
  destruct F3 as (F3d & F3w & F3c & F3r & F3s & F3rc & F3l).
  destruct F4 as (F4d & F4w & F4c & F4r & F4s & F4rc & F4l).
  destruct F5 as (F5m & F5t & F5c & F5r & F5s & F5d & F5w).
  pose proof (same_control_trans K2 K1) as K12.
  pose proof (same_control_trans K3 K12) as K13.
  pose proof (same_control_trans K4 K13) as K14.
  split.
  { intros j Hj.
    destruct j as [|[|[|[|[|j]]]]]; try lia; cbn [nth cycle];
      (split; [assumption|]);
      [apply same_control_refl|exact K1|exact K12|exact K13|exact K14]. }
  split.
  { intros j Hj.
    destruct j as [|[|[|[|[|[|j]]]]]]; try lia;
      cbn [Graph.steps]; fold c1 c2 c3 c4 c5; split; congruence. }
  split; [reflexivity|].
  split; [exact A5|].
  split.
  { rewrite X5, X4, X3, X2, X1. unfold cycle.
    rewrite <- !app_assoc. reflexivity. }
  split.
  { intros Hc. destruct (F1c Hc) as (Fe & Fc).
    rewrite E5, F4rc, F3rc, F2rc, F4l, F3l, F2l, Fe.
    repeat split. congruence. }
  split.
  { intros Hc. destruct (F1n Hc) as (Fr & Fl & Fc).
    rewrite E5, F4rc, F3rc, F2rc, F4l, F3l, F2l, Fr, Fl.
    repeat split. congruence. }
  split.
  { rewrite F5c, F4c, F3c, F2c.
    destruct (cached (state c)) eqn:Hc.
    - destruct (F1c eq_refl) as (_ & Fc). rewrite Fc.
      unfold cached in Hc. apply andb_prop in Hc. destruct Hc as [_ Hc].
      destruct (research_context (state c)); [discriminate|discriminate].
    - apply (F1n eq_refl). }
  split; [rewrite F5r, F4r; exact F3r|].
  split; [rewrite F5s; exact F4s|].
  rewrite F5w, F5d, F4w, F4d, F3w, F3d. exact F2w.
Qed.


Lemma nth_cycle_not_END (j : nat) : j < 5 -> nth j cycle END <> END.
Proof.
  intros H. destruct j as [|[|[|[|[|j]]]]]; try lia; discriminate.
Qed.

(** The run from the start of a pass: [k] more passes follow it, the
    controller completes in the last one, and until then the run is
    neither complete nor at END.  After the researcher has run once, the
    research context and the number of searches stay as they are. *)
Lemma run_from (k : nat) :
  forall c : Config,
    at_node c = Researcher ->
    is_complete (state c) = false ->
    (1 <= current_iteration (state c))%Z ->
    k = Z.to_nat (max_iterations (state c) - current_iteration (state c)) ->
    let cf := steps (5 * S k) c in
    at_node cf = END
    /\ is_complete (state cf) = true
    /\ current_iteration (state cf)
       = (current_iteration (state c) + Z.of_nat k)%Z
    /\ max_iterations (state cf) = max_iterations (state c)
    /\ topic (state cf) = topic (state c)
    /\ executed cf = executed c ++ cycles (S k)
    /\ research_calls (effects cf)
       = research_calls (effects c) + (if cached (state c) then 0 else 1)
    /\ llm_calls (effects cf)
       = llm_calls (effects c) + 3 * S k
         + (if cached (state c) then 0 else 1)
    /\ research_context (state cf) <> None
    /\ review_feedback (state cf) <> None
    /\ seo_analysis (state cf) <> None
    /\ word_count (state cf) = count_words (draft_content (state cf))
    /\ (forall n, n < 5 * S k ->
                  at_node (steps n c) <> END
                  /\ is_complete (state (steps n c)) = false
                  /\ (current_iteration (state c)
                      <= current_iteration (state (steps n c))
                      <= current_iteration (state c) + Z.of_nat k)%Z
                  /\ (current_iteration (state (steps n c))
                      <= current_iteration (state (steps (S n) c)))%Z)
    /\ (forall n, 1 <= n ->
                  research_calls (effects (steps n c))
                  = research_calls (effects (step c))
                  /\ research_context (state (steps n c))
                     = research_context (state (step c))).
Proof.
  induction k as [|k IH]; intros c Hn Hic Hcur Hk cf.
  - (* the last pass *)
    assert (Hmax : (max_iterations (state c) <= current_iteration (state c))%Z)
      by lia.
    destruct (pass c Hn)
      as (Hj & Hr & S5 & A5 & X5 & Fc & Fn & Rc & Rf & Sa & Wc).
    change (steps (5 * 1) c) with (steps 5 c) in cf.
    fold cf in S5, A5, X5, Fc, Fn, Rc, Rf, Sa, Wc.
    destruct (Hj 4 ltac:(lia)) as (_ & K4).
    destruct K4 as (K4c & K4m & K4i & K4t).
    destruct (controller_decides (state (steps 4 c))) as (_ & D).
    cbv zeta in D. rewrite <- S5 in D.
    destruct D as (Dc & Di); [lia|].
    destruct (controller_keeps (state (steps 4 c))) as (M & T & _).
    rewrite <- S5 in M, T.
    rewrite Di in A5.
    assert (Hrest :
              forall n, n < 5 * 1 ->
                        at_node (steps n c) <> END
                        /\ is_complete (state (steps n c)) = false
                        /\ (current_iteration (state c)
                            <= current_iteration (state (steps n c))
                            <= current_iteration (state c) + Z.of_nat 0)%Z
                        /\ (current_iteration (state (steps n c))
                            <= current_iteration (state (steps (S n) c)))%Z).
    { intros n Hlt. destruct (Hj n ltac:(lia)) as (An & Kn).
      destruct Kn as (Knc & Knm & Kni & Knt).
      split; [rewrite An; apply nth_cycle_not_END; lia|].
      split; [congruence|]. split; [lia|].
      destruct (Nat.eq_dec n 4) as [->|Hne].
      - change (steps 5 c) with cf. lia.
      - destruct (Hj (S n) ltac:(lia)) as (_ & (Ksc & _)). lia. }
    assert (Hres :
              forall n, 1 <= n ->
                        research_calls (effects (steps n c))
                        = research_calls (effects (step c))
                        /\ research_context (state (steps n c))
                           = research_context (state (step c))).
    { intros n Hge.
      destruct (Nat.le_gt_cases n 5) as [Hs|Hs]; [apply Hr; lia|].
      replace n with (5 + (n - 5)) by lia.
      rewrite steps_add. fold cf. rewrite steps_at_END by exact A5.
      apply Hr. lia. }
    split; [exact A5|]. split; [exact Di|].
    split; [lia|]. split; [congruence|]. split; [congruence|].
    split; [rewrite X5; cbn [cycles]; rewrite app_nil_r; reflexivity|].
    destruct (cached (state c)) eqn:Hc;
      [destruct (Fc eq_refl) as (F1 & F2 & F3)
      |destruct (Fn eq_refl) as (F1 & F2 & F3)];
      (split; [lia|]); (split; [lia|]);
      (split; [exact Rc|]); (split; [exact Rf|]); (split; [exact Sa|]);
      (split; [exact Wc|]); (split; [exact Hrest|exact Hres]).
  - (* a pass that is followed by another *)
    assert (Hlt : (current_iteration (state c) < max_iterations (state c))%Z)
      by lia.
    destruct (pass c Hn)
      as (Hj & Hr & S5 & A5 & X5 & Fc & Fn & Rc & Rf & Sa & Wc).
    set (c5 := steps 5 c) in *.
    destruct (Hj 4 ltac:(lia)) as (_ & K4).
    destruct K4 as (K4c & K4m & K4i & K4t).
    destruct (controller_decides (state (steps 4 c))) as (D & _).
    cbv zeta in D. rewrite <- S5 in D.
    destruct D as (Dc & Di); [lia|].
    destruct (controller_keeps (state (steps 4 c))) as (M & T & _).
    rewrite <- S5 in M, T.
    assert (Hic5 : is_complete (state c5) = false) by congruence.
    rewrite Hic5 in A5.
    assert (Hcached5 : cached (state c5) = true).
    { unfold cached. apply andb_true_intro. split.
      - apply Z.ltb_lt. lia.
      - destruct (research_context (state c5)); [reflexivity|contradiction]. }
    assert (E : cf = steps (5 * S k) c5).
    { unfold cf, c5. rewrite <- steps_add. f_equal. lia. }
    destruct (IH c5 A5 Hic5 ltac:(lia) ltac:(lia))
      as (I1 & I2 & I3 & I4 & I5 & I6 & I7 & I8 & I10 & I11 & I12 & I13
          & I14 & I15).
    rewrite <- E in I1, I2, I3, I4, I5, I6, I7, I8, I10, I11, I12, I13.
    rewrite Hcached5 in I7, I8.
    destruct (pass c5 A5) as (_ & Hr5 & _ & _ & _ & Fc5 & _).
    destruct (Fc5 Hcached5) as (Fc5r & _ & Fc5c).
    destruct (Hr5 5 ltac:(lia)) as (Hr5r & Hr5c).
    destruct (Hr 5 ltac:(lia)) as (Hrr & Hrc). fold c5 in Hrr, Hrc.
    assert (Hrest :
              forall n, n < 5 * S (S k) ->
                        at_node (steps n c) <> END
                        /\ is_complete (state (steps n c)) = false
                        /\ (current_iteration (state c)
                            <= current_iteration (state (steps n c))
                            <= current_iteration (state c) + Z.of_nat (S k))%Z
                        /\ (current_iteration (state (steps n c))
                            <= current_iteration (state (steps (S n) c)))%Z).
    { intros n Hn5.
      destruct (Nat.lt_ge_cases n 5) as [Hs|Hs].
      - destruct (Hj n Hs) as (An & Kn).
        destruct Kn as (Knc & Knm & Kni & Knt).
        split; [rewrite An; apply nth_cycle_not_END; lia|].
        split; [congruence|]. split; [lia|].
        destruct (Nat.eq_dec n 4) as [->|Hne].
        + change (steps 5 c) with c5. lia.
        + destruct (Hj (S n) ltac:(lia)) as (_ & (Ksc & _)). lia.
      - destruct (I14 (n - 5) ltac:(lia)) as (J1 & J2 & J3 & J4).
        assert (En : steps n c = steps (n - 5) c5).
        { unfold c5. rewrite <- steps_add. f_equal. lia. }
        assert (Esn : steps (S n) c = steps (S (n - 5)) c5).
        { unfold c5. rewrite <- steps_add. f_equal. lia. }
        rewrite En, Esn.
        split; [exact J1|]. split; [exact J2|]. split; [lia|exact J4]. }
    assert (Hres :
              forall n, 1 <= n ->
                        research_calls (effects (steps n c))
                        = research_calls (effects (step c))
                        /\ research_context (state (steps n c))
                           = research_context (state (step c))).
    { intros n Hge.
      destruct (Nat.le_gt_cases n 5) as [Hs|Hs]; [apply Hr; lia|].
      replace n with (5 + (n - 5)) by lia.
      rewrite steps_add. fold c5.
      destruct (I15 (n - 5) ltac:(lia)) as (J1 & J2).
      rewrite J1, J2. split; congruence. }
    split; [exact I1|]. split; [exact I2|].
    split; [lia|]. split; [congruence|]. split; [congruence|].
    split.
    { rewrite I6, X5. change (cycles (S (S k))) with (cycle ++ cycles (S k)).
      rewrite app_assoc. reflexivity. }
    destruct (cached (state c)) eqn:Hc;
      [destruct (Fc eq_refl) as (F1 & F2 & F3)
      |destruct (Fn eq_refl) as (F1 & F2 & F3)];
      (split; [lia|]); (split; [lia|]);
      (split; [exact I10|]); (split; [exact I11|]); (split; [exact I12|]);
      (split; [exact I13|]); (split; [exact Hrest|exact Hres]).
Qed.

End Run.

Section Invoke.
Variable rt : Runtime.
Variable w : World.

Local Abbreviation step := (step rt w).
Local Abbreviation steps := (steps rt w).
Local Abbreviation invoke_from := (invoke_from rt w).

(** [invoke] returns the first configuration at END, given fuel for the
    steps that lead to it, and nothing with less. *)
Lemma invoke_from_reaches (m : nat) :
  forall c : Config,
    (forall n, n < m -> at_node (steps n c) <> END) ->
    at_node (steps m c) = END ->
    (forall fuel, m <= fuel -> invoke_from fuel c = Some (steps m c))
    /\ (forall fuel, fuel < m -> invoke_from fuel c = None).
Proof.
  induction m as [|m IH]; intros c Hbefore Hend.
  - split; [|intros; lia].
    intros fuel _. cbn [Graph.steps] in *.
    destruct fuel; cbn [Graph.invoke_from]; rewrite Hend; reflexivity.
  - assert (H0 : is_END (at_node c) = false).
    { specialize (Hbefore 0 ltac:(lia)). cbn [Graph.steps] in Hbefore.
      destruct (at_node c); try reflexivity. contradiction. }
    destruct (IH (step c)) as (I1 & I2).
    + intros n Hn. apply (Hbefore (S n)). lia.
    + exact Hend.
    + split; intros fuel Hf.
      * destruct fuel as [|fuel]; [lia|].
        cbn [Graph.invoke_from Graph.steps]. rewrite H0. apply I1. lia.
      * destruct fuel as [|fuel]; cbn [Graph.invoke_from]; rewrite H0;
          [reflexivity|]. apply I2. lia.
Qed.

Lemma invoke_from_some (fuel : nat) :
  forall (c final : Config),
    invoke_from fuel c = Some final ->
    exists n, final = steps n c /\ at_node final = END.
Proof.
  induction fuel as [|fuel IH]; intros c final H; cbn [Graph.invoke_from] in H.
  - destruct (is_END (at_node c)) eqn:E; [|discriminate].
    inversion H; subst. exists 0. split; [reflexivity|].
    destruct (at_node final); try discriminate. reflexivity.
  - destruct (is_END (at_node c)) eqn:E.
    + inversion H; subst. exists 0. split; [reflexivity|].
      destruct (at_node final); try discriminate. reflexivity.
    + destruct (IH _ _ H) as (n & Hn & He).
      exists (S n). split; [exact Hn|exact He].
Qed.

(** Whatever [invoke] returns is the configuration in which the run
    first reaches END. *)
Lemma invoke_from_unique (m fuel : nat) (c final : Config) :
  (forall n, n < m -> at_node (steps n c) <> END) ->
  at_node (steps m c) = END ->
  invoke_from fuel c = Some final ->
  final = steps m c.
Proof.
  intros Hbefore Hend H.
  destruct (invoke_from_some _ _ H) as (n & -> & He).
  destruct (Nat.lt_ge_cases n m) as [Hlt|Hge].
  - exfalso. apply (Hbefore n Hlt). exact He.
  - replace n with (m + (n - m)) by lia.
    rewrite steps_add. apply steps_at_END. exact Hend.
Qed.

End Invoke.

Lemma count_occ_cycles (n : nat) (x : Node) :
  count_occ Node_eq_dec (cycles n) x = if is_END x then 0 else n.
Proof.
  induction n as [|n IH]; [destruct x; reflexivity|].
  cbn [cycles]. rewrite count_occ_app, IH.
  destruct x; reflexivity.
Qed.

(** The run started by [generate_blog]: it takes [max 1 N] passes. *)
Lemma run_initial (rt : Runtime) (w : World) (topic : str) (N : Z) :
  let c0 := start (create_initial_state topic N) in
  let T := S (Z.to_nat (N - 1)) in
  let cf := steps rt w (5 * T) c0 in
  at_node cf = END
  /\ is_complete (state cf) = true
  /\ current_iteration (state cf) = (1 + Z.of_nat (Z.to_nat (N - 1)))%Z
  /\ executed cf = cycles T
  /\ research_calls (effects cf) = 1
  /\ llm_calls (effects cf) = 3 * T + 1
  /\ research_context (state cf) <> None
  /\ review_feedback (state cf) <> None
  /\ seo_analysis (state cf) <> None
  /\ word_count (state cf) = count_words (draft_content (state cf))
  /\ (forall n, n < 5 * T ->
                at_node (steps rt w n c0) <> END
                /\ is_complete (state (steps rt w n c0)) = false
                /\ (1 <= current_iteration (state (steps rt w n c0))
                    <= 1 + Z.of_nat (Z.to_nat (N - 1)))%Z
                /\ (current_iteration (state (steps rt w n c0))
                    <= current_iteration (state (steps rt w (S n) c0)))%Z)
  /\ (forall n, 1 <= n ->
                research_calls (effects (steps rt w n c0)) = 1
                /\ research_context (state (steps rt w n c0))
                   = research_context (state (step rt w c0))).
Proof.
  intros c0 T cf.
  destruct (@run_from rt w (Z.to_nat (N - 1)) c0 eq_refl eq_refl
                     ltac:(cbn; lia) eq_refl)
    as (I1 & I2 & I3 & I4 & I5 & I6 & I7 & I8 & I10 & I11 & I12 & I13
        & I14 & I15).
  fold T cf in I1, I2, I3, I4, I5, I6, I7, I8, I10, I11, I12, I13, I14.
  split; [exact I1|]. split; [exact I2|]. split; [exact I3|].
  split; [exact I6|]. split; [exact I7|]. split; [exact I8|].
  split; [exact I10|]. split; [exact I11|]. split; [exact I12|].
  split; [exact I13|]. split; [exact I14|].
  intros n Hn. destruct (I15 n Hn) as (J1 & J2).
  split; [rewrite J1; reflexivity|exact J2].
Qed.

Lemma step_keeps_max (rt : Runtime) (w : World) (c : Config) :
  max_iterations (state (step rt w c)) = max_iterations (state c).
Proof.
  destruct (at_node c) eqn:E.
  1-4: destruct (@step_stage rt w c) as (_ & S1 & _);
    [rewrite E; discriminate ..|];
    rewrite S1;
    apply (@stage_keeps_control rt w (at_node c) (effects c) (state c));
    rewrite E; discriminate.
  - destruct (@step_controller rt w c E) as (_ & S1 & _).
    rewrite S1. apply controller_keeps.
  - rewrite step_at_END by exact E. reflexivity.
Qed.

Lemma steps_keep_max (rt : Runtime) (w : World) (n : nat) (c : Config) :
  max_iterations (state (steps rt w n c)) = max_iterations (state c).
Proof.
  induction n as [|n IH]; [reflexivity|].
  rewrite steps_S, step_keeps_max. exact IH.
Qed.

(* ================================================================== *)
(** * The iteration controller *)
(* ================================================================== *)

(** C1, as the code has it.  A controller call with the counter below
    the bound adds 1 to the counter and leaves the completion flag; a
    call with the counter at or above the bound leaves the counter and
    sets the flag: the flag is set if and only if the counter plus one
    exceeds the bound.  In a run for N >= 1 the counter never decreases and
    stays within 1 .. max_iterations = N; the flag is false before the
    N-th controller call, which is step 5 N of the run, and true from
    then on, and that is when the run reaches END. *)
Theorem iteration_control (rt : Runtime) (w : World) (topic : str) (N : Z) :
  (1 <= N)%Z ->
  let c0 := start (create_initial_state topic N) in
  (forall st : BlogState,
      let st' := after_controller st in
      ((current_iteration st < max_iterations st)%Z ->
       current_iteration st' = (current_iteration st + 1)%Z
       /\ is_complete st' = is_complete st)
      /\ ((max_iterations st <= current_iteration st)%Z ->
          current_iteration st' = current_iteration st
          /\ is_complete st' = true)
      /\ (is_complete st = false ->
          (is_complete st' = true
           <-> (max_iterations st < current_iteration st + 1)%Z)))
  /\ (forall n : nat,
         let cn := steps rt w n c0 in
         max_iterations (state cn) = N
         /\ (1 <= current_iteration (state cn) <= max_iterations (state cn))%Z
         /\ (current_iteration (state cn)
             <= current_iteration (state (steps rt w (S n) c0)))%Z
         /\ (is_complete (state cn) = true <-> 5 * Z.to_nat N <= n)
         /\ (at_node cn = END <-> 5 * Z.to_nat N <= n)).
Proof.
  intros HN c0. split.
  { intros st st'. destruct (controller_decides st) as (D1 & D2).
    fold st' in D1, D2.
    split; [exact D1|]. split; [exact D2|].
    intros Hf.
    destruct (Z.lt_ge_cases (current_iteration st) (max_iterations st))
      as [Hlt|Hge].
    - destruct (D1 Hlt) as (_ & Hi). rewrite Hi, Hf.
      split; [discriminate|lia].
    - destruct (D2 Hge) as (_ & Hi). rewrite Hi.
      split; [lia|reflexivity]. }
  intros n cn.
  destruct (run_initial rt w topic N)
    as (I1 & I2 & I3 & _ & _ & _ & _ & _ & _ & _ & I14 & _).
  fold c0 in I1, I2, I3, I14.
  assert (ET : S (Z.to_nat (N - 1)) = Z.to_nat N) by lia.
  rewrite ET in I1, I2, I3, I14.
  assert (Hmax : max_iterations (state cn) = N)
    by (unfold cn; rewrite steps_keep_max; reflexivity).
  split; [exact Hmax|]. rewrite Hmax.
  destruct (Nat.lt_ge_cases n (5 * Z.to_nat N)) as [Hlt|Hge].
  - destruct (I14 n Hlt) as (J1 & J2 & J3 & J4). fold cn in J1, J2, J3, J4.
    split; [lia|]. split; [exact J4|].
    split; split; intros H; try lia; congruence.
  - assert (E : forall n', 5 * Z.to_nat N <= n' ->
                           steps rt w n' c0 = steps rt w (5 * Z.to_nat N) c0).
    { intros n' Hn'. replace n' with (5 * Z.to_nat N + (n' - 5 * Z.to_nat N))
        by lia.
      rewrite steps_add. apply steps_at_END. exact I1. }
    unfold cn. rewrite (E n Hge), (E (S n)) by lia.
    split; [lia|]. split; [lia|].
    split; split; intros; assumption.
Qed.

Lemma iteration_control_witness :
  let c0 := start (create_initial_state (of_string "Example Topic") 2) in
  let run n := steps ascii_runtime (constant_world (of_string "ok")) n c0 in
  current_iteration (state (run 4)) = 1%Z
  /\ current_iteration (state (run 5)) = 2%Z
  /\ is_complete (state (run 9)) = false
  /\ (is_complete (state (run 10)) = true <-> 5 * Z.to_nat 2 <= 10).
Proof.
  intros c0 run.
  pose proof (@iteration_control ascii_runtime
                (constant_world (of_string "ok"))
                (of_string "Example Topic") 2 ltac:(lia)) as (_ & H).
  split; [reflexivity|]. split; [reflexivity|]. split; [reflexivity|].
  apply (H 10).
Defined.

(** C1 as stated fails at the last controller call of a run with N = 1:
    the counter stays at 1 instead of becoming 2, and the flag is set
    although the counter does not exceed max_iterations. *)
Lemma iteration_controller_last_call_counterexample :
  let c4 :=
    steps ascii_runtime (constant_world (of_string "ok")) 4
          (start (create_initial_state (of_string "Example Topic") 1)) in
  let st' := after_controller (state c4) in
  at_node c4 = Controller
  /\ current_iteration (state c4) = 1%Z
  /\ current_iteration st' = 1%Z
  /\ current_iteration st' <> (current_iteration (state c4) + 1)%Z
  /\ is_complete st' = true
  /\ max_iterations st' = 1%Z
  /\ ~ (current_iteration st' > max_iterations st')%Z.
Proof.
  cbv zeta.
  split; [reflexivity|]. split; [reflexivity|]. split; [reflexivity|].
  split; [vm_compute; discriminate|].
  split; [reflexivity|]. split; [reflexivity|].
  vm_compute. discriminate.
Qed.

(* ================================================================== *)
(** * How often the stages run *)
(* ================================================================== *)

Lemma researcher_node_cached (w : World) (e : Effects) (st : BlogState) :
  cached st = true ->
  researcher_node w e st
  = (e, [Add_messages [Msg_researcher_cached (current_iteration st)]])
  /\ research_context (merge st (snd (researcher_node w e st)))
     = research_context st.
Proof.
  unfold cached, researcher_node. intros H. rewrite H. split; reflexivity.
Qed.

(** C2.  For N >= 1 the run reaches END after exactly 5 N steps, N
    passes through researcher, writer, reviewer, SEO and controller in
    that order: writer, reviewer and SEO run N times each.  The search
    is performed once, in the first step; from then on the number of
    searches stays 1 and the research context stays what the first step
    stored.  A researcher call that finds a context after iteration 1
    makes no call and returns only a log entry. *)
Theorem pipeline_stage_counts (rt : Runtime) (w : World) (topic : str) (N : Z) :
  (1 <= N)%Z ->
  let c0 := start (create_initial_state topic N) in
  exists final : Config,
    (forall fuel, 5 * Z.to_nat N <= fuel ->
                  generate_blog rt w fuel topic N = Some final)
    /\ (forall fuel, fuel < 5 * Z.to_nat N ->
                     generate_blog rt w fuel topic N = None)
    /\ executed final = cycles (Z.to_nat N)
    /\ times_run Writer final = Z.to_nat N
    /\ times_run Reviewer final = Z.to_nat N
    /\ times_run Seo final = Z.to_nat N
    /\ times_run Researcher final = Z.to_nat N
    /\ research_calls (effects c0) = 0
    /\ research_calls (effects final) = 1
    /\ llm_calls (effects final) = 3 * Z.to_nat N + 1
    /\ research_context (state final) <> None
    /\ (forall n, 1 <= n ->
                  research_calls (effects (steps rt w n c0)) = 1
                  /\ research_context (state (steps rt w n c0))
                     = research_context (state (step rt w c0)))
    /\ (forall (e : Effects) (st : BlogState),
           (1 < current_iteration st)%Z ->
           research_context st <> None ->
           researcher_node w e st
           = (e, [Add_messages [Msg_researcher_cached (current_iteration st)]])
           /\ research_context (merge st (snd (researcher_node w e st)))
              = research_context st).
Proof.
  intros HN c0.
  destruct (run_initial rt w topic N)
    as (I1 & I2 & I3 & I4 & I5 & I6 & I7 & I8 & I9 & I10 & I11 & I12).
  fold c0 in I1, I2, I3, I4, I5, I6, I7, I8, I9, I10, I11, I12.
  assert (ET : S (Z.to_nat (N - 1)) = Z.to_nat N) by lia.
  rewrite ET in *.
  destruct (@invoke_from_reaches rt w (5 * Z.to_nat N) c0) as (R1 & R2).
  { intros n Hn. apply (I11 n Hn). }
  { exact I1. }
  exists (steps rt w (5 * Z.to_nat N) c0).
  split; [exact R1|]. split; [exact R2|]. split; [exact I4|].
  unfold times_run. rewrite I4, !count_occ_cycles. cbn [is_END].
  repeat (split; [reflexivity|]).
  split; [exact I5|]. split; [exact I6|]. split; [exact I7|].
  split; [exact I12|].
  intros e st Hit Hrc. apply researcher_node_cached.
  unfold cached. apply andb_true_intro. split; [apply Z.ltb_lt; exact Hit|].
  destruct (research_context st); [reflexivity|contradiction].
Qed.

Lemma pipeline_stage_counts_witness :
  exists final : Config,
    generate_blog ascii_runtime (constant_world (of_string "ok")) 10
                  (of_string "Example Topic") 2 = Some final
    /\ times_run Writer final = 2
    /\ research_calls (effects final) = 1.
Proof.
  destruct (@pipeline_stage_counts ascii_runtime
              (constant_world (of_string "ok"))
              (of_string "Example Topic") 2 ltac:(lia))
    as (final & H1 & _ & _ & H4 & _ & _ & _ & _ & H9 & _).
  exists final.
  split; [apply (H1 10); simpl; lia|].
  split; [exact H4|exact H9].
Defined.

(* ================================================================== *)
(** * The footer of the output file *)
(* ================================================================== *)

Lemma firstn_incl (A : Type) (n : nat) (l : list A) (x : A) :
  In x (firstn n l) -> In x l.
Proof.
  revert l. induction n as [|n IH]; intros [|a l] H; simpl in *; try tauto.
  destruct H as [H|H]; [left; exact H|right; apply IH; exact H].
Qed.

(** The footer written by [main] carries the reading time and the tags. *)
Lemma main_footer_shape (result : BlogState) (seo : SEOAnalysis) :
  exists pre mid post : str,
    Main.footer result seo
    = pre ++ of_string "Reading time: ~"
      ++ str_of_int (floordiv (word_count result) 200)
      ++ of_string " minutes" ++ mid
      ++ of_string "**Tags:** "
      ++ join (of_string ", ") (firstn 5 (primary_keywords seo)) ++ post.
Proof.
  exists ([NL; NL] ++ of_string "---" ++ [NL; NL] ++ of_string "*"
          ++ Main.book_mark ++ of_string " ").
  exists (of_string " | " ++ Main.memo_mark ++ of_string " "
          ++ format_thousands (word_count result) ++ of_string " words*"
          ++ [NL; NL]).
  exists ([NL; NL] ++ of_string "---" ++ [NL; NL]
          ++ of_string "*This article was generated with AI assistance and reviewed for quality and accuracy.*"
          ++ [NL]).
  unfold Main.footer, Main.footer_tags. cbn [join].
  rewrite <- !app_assoc. reflexivity.
Qed.

(** So does the footer of [MediumFormatter]. *)
Lemma formatter_footer_shape (st : BlogState) :
  exists pre mid post : str,
    MediumFormatter._generate_footer st
    = pre ++ of_string "Reading time: ~"
      ++ str_of_int (floordiv (word_count st) 200)
      ++ of_string " minutes" ++ mid
      ++ of_string "**Tags:** "
      ++ join (of_string ", ") (MediumFormatter.footer_tags st) ++ post.
Proof.
  exists (of_string "---" ++ [NL; NL] ++ of_string "*"
          ++ MediumFormatter.book_mark ++ of_string " ").
  exists (of_string " | " ++ MediumFormatter.memo_mark ++ of_string " "
          ++ format_thousands (word_count st) ++ of_string " words*"
          ++ [NL; NL]).
  exists ([NL; NL] ++ of_string "---" ++ [NL; NL]
          ++ of_string "*This article was generated with AI assistance and reviewed for quality and accuracy.*").
  unfold MediumFormatter._generate_footer. cbv zeta. cbn [join].
  rewrite <- !app_assoc. reflexivity.
Qed.

(** C8.  Whatever state [generate_blog] returns holds an SEO analysis
    and the word count of its draft.  The footer of the file then reads
    [Reading time: ~m minutes] with m the word count divided by 200,
    floored, and its tags are the first five primary keywords of the
    analysis, in [main] and in [MediumFormatter] alike.  For a state
    without an analysis the formatter's tags are the topic alone. *)
Theorem footer_of_final_state
        (rt : Runtime) (w : World) (fuel : nat) (topic : str) (N : Z)
        (final : Config) (now : str) :
  generate_blog rt w fuel topic N = Some final ->
  let result := state final in
  let minutes := floordiv (count_words (draft_content result)) 200 in
  exists (seo : SEOAnalysis) (pre mid post pre' mid' post' : str),
    seo_analysis result = Some seo
    /\ word_count result = count_words (draft_content result)
    /\ Main.full_content result now
       = Some (Main.meta_block result seo now ++ draft_content result
               ++ Main.footer result seo)
    /\ Main.footer result seo
       = pre ++ of_string "Reading time: ~" ++ str_of_int minutes
         ++ of_string " minutes" ++ mid ++ of_string "**Tags:** "
         ++ join (of_string ", ") (firstn 5 (primary_keywords seo)) ++ post
    /\ MediumFormatter._generate_footer result
       = pre' ++ of_string "Reading time: ~" ++ str_of_int minutes
         ++ of_string " minutes" ++ mid' ++ of_string "**Tags:** "
         ++ join (of_string ", ") (firstn 5 (primary_keywords seo)) ++ post'
    /\ length (firstn 5 (primary_keywords seo)) <= 5
    /\ (forall t, In t (firstn 5 (primary_keywords seo)) ->
                  In t (primary_keywords seo))
    /\ (forall st : BlogState,
           seo_analysis st = None ->
           MediumFormatter.footer_tags st = [Models.topic st]).
Proof.
  intros H result minutes.
  destruct (run_initial rt w topic N)
    as (I1 & _ & _ & _ & _ & _ & _ & _ & I9 & I10 & I11 & _).
  assert (E : final = steps rt w (5 * S (Z.to_nat (N - 1)))
                            (start (create_initial_state topic N))).
  { eapply invoke_from_unique; [|exact I1|exact H].
    intros n Hn. apply (I11 n Hn). }
  rewrite <- E in I9, I10. fold result in I9, I10.
  destruct (seo_analysis result) as [seo|] eqn:Es; [|contradiction].
  destruct (main_footer_shape result seo) as (pre & mid & post & Hm).
  destruct (formatter_footer_shape result) as (pre' & mid' & post' & Hf).
  exists seo, pre, mid, post, pre', mid', post'.
  split; [reflexivity|]. split; [exact I10|].
  split; [unfold Main.full_content; rewrite Es; reflexivity|].
  unfold minutes. rewrite <- I10.
  split; [exact Hm|].
  split.
  { rewrite Hf. unfold MediumFormatter.footer_tags. rewrite Es. reflexivity. }
  split; [rewrite length_firstn; lia|].
  split; [intros t; apply firstn_incl|].
  intros st Hst. unfold MediumFormatter.footer_tags. rewrite Hst. reflexivity.
Qed.

Lemma footer_of_final_state_witness :
  let w := constant_world (of_string "one two three") in
  exists final : Config,
    generate_blog ascii_runtime w 5 (of_string "Example Topic") 1 = Some final
    /\ exists seo : SEOAnalysis,
        seo_analysis (state final) = Some seo
        /\ word_count (state final) = 3%Z
        /\ Main.footer_tags seo = [of_string "example topic"].
Proof.
  intros w.
  assert (E : exists final,
             generate_blog ascii_runtime w 5 (of_string "Example Topic") 1
             = Some final
             /\ word_count (state final) = 3%Z
             /\ option_map Main.footer_tags (seo_analysis (state final))
                = Some [of_string "example topic"])
    by (eexists; vm_compute; repeat split).
  destruct E as (final & E & Ew & Et).
  exists final. split; [exact E|].
  destruct (@footer_of_final_state ascii_runtime w 5
              (of_string "Example Topic") 1 final [] E)
    as (seo & _ & _ & _ & _ & _ & _ & Hs & _).
  exists seo. split; [exact Hs|]. split; [exact Ew|].
  rewrite Hs in Et. inversion Et. reflexivity.
Defined.

(* ================================================================== *)
(** * Examples *)
(* ================================================================== *)

Example str_of_int_ex : str_of_int 1234 = of_string "1234".
Proof. reflexivity. Qed.

Example format_thousands_ex :
  format_thousands 1234567 = of_string "1,234,567"
  /\ format_thousands 999 = of_string "999"
  /\ format_thousands (-1000) = of_string "-1,000".
Proof. repeat split; reflexivity. Qed.

Example split_ws_ex :
  split_ws (of_string "  a bc  d ") = map of_string ["a"; "bc"; "d"]%string.
Proof. reflexivity. Qed.

Example split_on_ex :
  split_on NL (text_of_lines [""; "a"; ""; "b"]%string)
  = map of_string [""; "a"; ""; "b"]%string.
Proof. reflexivity. Qed.

Example count_no_overlap_ex :
  count (of_string "aa") (of_string "aaaaa") = 2.
Proof. reflexivity. Qed.

Example count_tables_ex :
  count_tables
    (text_of_lines ["| a | b |"; "|---|---|"; "  | 1 | 2 |  "; "text"]%string)
  = 1%Z.
Proof. reflexivity. Qed.

Example extract_title_ex :
  extract_title ascii_runtime
    (text_of_lines [""; "intro"; "# My Title  "; "## Part"]%string)
    (of_string "topic")
  = of_string "My Title".
Proof. reflexivity. Qed.

Example extract_list_ex :
  extract_list
    (text_of_lines ["Key_Facts:"; "- fact one "; "- fact two"; "";
                    "STATISTICS:"; "- s1"]%string)
    (of_string "KEY_FACTS")
  = map of_string ["fact one"; "fact two"]%string.
Proof. reflexivity. Qed.

Example extract_list_first_bullet_runs_on_ex :
  extract_list (text_of_lines ["KEY_FACTS:"; "-"; "- a - b"]%string)
               (of_string "KEY_FACTS")
  = [of_string "- a - b"].
Proof. reflexivity. Qed.

Example extract_list_no_colon_ex :
  extract_list (text_of_lines ["KEY_FACTS"; "- a"]%string)
               (of_string "KEY_FACTS")
  = [].
Proof. reflexivity. Qed.

Example extract_value_ex :
  extract_value (text_of_lines ["meta_description:   "; " hello world  "]%string)
                (of_string "META_DESCRIPTION")
  = of_string "hello world".
Proof. reflexivity. Qed.

Example parse_score_ex :
  parse_score ascii_runtime (of_string "OVERALL_SCORE")
              (of_string "x OVERALL_SCORE:7/10") = 7%Z
  /\ parse_score ascii_runtime (of_string "OVERALL_SCORE")
                 (of_string "overall_score: 7") = 5%Z
  /\ parse_score ascii_runtime (of_string "SEO_SCORE")
                 (of_string "SEO_SCORE: 007") = 7%Z.
Proof. repeat split; reflexivity. Qed.

Example slugify_ex :
  Main.slugify ascii_runtime
    (of_string "  Machine Learning: Best_Practices (2024) - Part 1! ")
  = of_string "machine_learning_bestpractices_2024_-_part_1".
Proof. reflexivity. Qed.

Example parse_meta_description_ex :
  SEOAgent.parse_meta_description ascii_runtime
    (of_string "Meta Description: 'short one'") (of_string "Topic")
  = of_string "short one".
Proof. reflexivity. Qed.

Example generate_blog_needs_five_steps_ex :
  let w := constant_world (of_string "ok") in
  generate_blog ascii_runtime w 4 (of_string "Example Topic") 1 = None
  /\ option_map (fun c => executed c)
       (generate_blog ascii_runtime w 5 (of_string "Example Topic") 1)
     = Some cycle.
Proof. split; reflexivity. Qed.

(* ================================================================== *)
(** * The text metrics under concatenation *)
(* ================================================================== *)

Lemma tokens_after_sep (a b : str) (ws : char) :
  isspace ws = true ->
  forall f, tokens_after f (a ++ ws :: b) = tokens_after f a + tokens_after true b.
Proof.
  intros Hws. induction a as [|c a IH]; intros f; simpl.
  - rewrite Hws. reflexivity.
  - destruct (isspace c); rewrite IH; lia.
Qed.

Lemma tokens_after_false_true (b : str) :
  tokens_after false b <= tokens_after true b <= S (tokens_after false b).
Proof. destruct b as [|c b]; simpl; [lia|]. destruct (isspace c); lia. Qed.

Lemma tokens_after_app (a b : str) :
  forall f, exists f', tokens_after f (a ++ b) = tokens_after f a + tokens_after f' b.
Proof.
  induction a as [|c a IH]; intros f; simpl.
  - exists f. reflexivity.
  - destruct (isspace c).
    + apply IH.
    + destruct (IH false) as [f' E]. exists f'. rewrite E. lia.
Qed.

(** X1.  Word counts add up across a whitespace character, and gluing
    two texts without one loses at most one word. *)
Theorem count_words_concat (a b : str) :
  (forall ws : char, isspace ws = true ->
                     count_words (a ++ ws :: b)
                     = (count_words a + count_words b)%Z)
  /\ (count_words a + count_words b - 1 <= count_words (a ++ b)
      <= count_words a + count_words b)%Z.
Proof.
  rewrite !count_words_tokens. unfold whitespace_separated_tokens. split.
  - intros ws Hws. rewrite count_words_tokens.
    unfold whitespace_separated_tokens.
    rewrite (@tokens_after_sep a b ws Hws). lia.
  - destruct (tokens_after_app a b true) as [f' E]. rewrite E.
    pose proof (tokens_after_false_true b). destruct f'; lia.
Qed.

Lemma lines_app (a b : str) :
  lines (a ++ NL :: b) = lines a ++ lines b.
Proof.
  unfold lines. induction a as [|c a IH]; simpl.
  - reflexivity.
  - destruct (c =? NL)%N; [rewrite IH; reflexivity|].
    rewrite IH.
    pose proof (split_on_nonempty NL a) as Hne.
    destruct (split_on NL a) as [|l ls]; [contradiction|reflexivity].
Qed.

(** X2.  The table count of two drafts put on separate lines is the sum
    of their table counts or one more: no table is lost, and the
    left-over table lines of the two can make up one further table. *)
Theorem count_tables_concat (a b : str) :
  (count_tables a + count_tables b <= count_tables (a ++ NL :: b)
   <= count_tables a + count_tables b + 1)%Z.
Proof.
  rewrite !count_tables_thirds, lines_app, filter_app, length_app.
  set (x := length (filter is_table_line (lines a))).
  set (y := length (filter is_table_line (lines b))).
  pose proof (Nat.div_mod_eq x 3). pose proof (Nat.div_mod_eq y 3).
  pose proof (Nat.div_mod_eq (x + y) 3).
  pose proof (Nat.mod_upper_bound x 3 ltac:(lia)).
  pose proof (Nat.mod_upper_bound y 3 ltac:(lia)).
  pose proof (Nat.mod_upper_bound (x + y) 3 ltac:(lia)).
  lia.
Qed.

Lemma count_from_hit (sub : str) :
  sub <> [] ->
  forall (s : str) (i : nat),
    startswith sub (skipn i s) = true -> 1 <= count_from sub 0 s.
Proof.
  intros Hne. induction s as [|c s IH]; intros i H.
  - rewrite skipn_nil in H. destruct sub; [contradiction|discriminate].
  - cbn [count_from]. destruct (startswith sub (c :: s)) eqn:E; [lia|].
    destruct i as [|i]; [cbn [skipn] in H; congruence|].
    apply (IH i). exact H.
Qed.

(** X3.  The code-block count is zero exactly for the drafts in which
    [```py] occurs nowhere: a fence without a tag or with another
    language is never counted, a fence whose tag begins with [py]
    always is. *)
Theorem count_code_blocks_zero_iff (content : str) :
  count_code_blocks content = 0%Z <-> ~ occurs fence_py content.
Proof.
  unfold count_code_blocks, occurs, occurs_at. split.
  - intros H [i Hi].
    pose proof (@count_from_hit fence_py ltac:(discriminate) content i Hi).
    change (count fence_py content) with (count_from fence_py 0 content) in H.
    lia.
  - intros H.
    assert (Hpy : forall i, startswith fence_py (skipn i content) = false).
    { intros i. destruct (startswith fence_py (skipn i content)) eqn:E;
        [|reflexivity]. exfalso. apply H. exists i. exact E. }
    change (count fence_py content) with (count_from fence_py 0 content).
    change (count fence_python content)
      with (count_from fence_python 0 content).
    rewrite !count_from_none; [reflexivity| |].
    + intros i _. apply Hpy.
    + intros i _.
      destruct (startswith fence_python (skipn i content)) eqn:E;
        [|reflexivity].
      apply startswith_fence_python in E. rewrite Hpy in E. discriminate.
Qed.

(* ================================================================== *)
(** * More on the slug *)
(* ================================================================== *)

Lemma no_adjacent_app (u : char) (a b : str) :
  no_adjacent u (a ++ b) -> no_adjacent u a /\ no_adjacent u b.
Proof.
  induction a as [|x a IH]; intros H; [split; [exact I|exact H]|].
  cbn [app no_adjacent] in H. destruct H as [H1 H2].
  destruct (IH H2) as [Ha Hb]. split; [|exact Hb].
  cbn [no_adjacent]. split; [|exact Ha].
  destruct a as [|y a]; [exact I|exact H1].
Qed.

Lemma no_adjacent_rev (u : char) (s : str) :
  no_adjacent u s -> no_adjacent u (rev s).
Proof.
  induction s as [|x s IH]; intros H; [exact I|].
  cbn [no_adjacent] in H. destruct H as [H1 H2]. specialize (IH H2).
  cbn [rev].
  assert (K : forall (l : str) (y : char),
             no_adjacent u l ->
             (match last l y with z => l = [] \/ ~ (z = u /\ y = u) end) ->
             no_adjacent u (l ++ [y])).
  { induction l as [|a l IHl]; intros y Hl Hy; [split; exact I|].
    cbn [app no_adjacent]. cbn [no_adjacent] in Hl. destruct Hl as [Hl1 Hl2].
    split.
    - destruct l as [|b l]; cbn [app].
      + destruct Hy as [Hy|Hy]; [discriminate|]. cbn [last] in Hy.
        intros [E1 E2]. apply Hy. split; assumption.
      + exact Hl1.
    - apply IHl; [exact Hl2|].
      destruct l as [|b l]; [left; reflexivity|].
      right. destruct Hy as [Hy|Hy]; [discriminate|]. exact Hy. }
  apply K; [exact IH|].
  destruct s as [|y s]; [left; reflexivity|]. right.
  replace (last (rev (y :: s)) x) with y.
  - intros [E1 E2]. apply H1. split; assumption.
  - cbn [rev]. rewrite last_last. reflexivity.
Qed.

Lemma sub_fuel_plus_no_adjacent (q : char -> bool) (u : char) :
  q u = true ->
  forall (n : nat) (s : str),
    length s < n ->
    let r := sub_fuel n (Plus (Chr q)) [u] s in
    no_adjacent u r
    /\ match r with
       | x :: _ => x = u -> match s with c :: _ => q c = true | [] => False end
       | [] => True
       end.
Proof.
  intros Hu. induction n as [|n IH]; intros s Hn; [lia|].
  destruct s as [|c s]; cbn [sub_fuel]; rewrite re_match_plus_chr.
  - split; exact I.
  - simpl in Hn. destruct (q c) eqn:Eq.
    + pose proof (dropwhile_length q s) as Hl.
      replace (length (dropwhile q s) <? length (c :: s)) with true
        by (symmetry; apply Nat.ltb_lt; simpl; lia).
      destruct (IH (dropwhile q s) ltac:(lia)) as [I1 I2].
      cbn [app]. split; [|intros _; reflexivity].
      cbn [no_adjacent]. split; [|exact I1].
      destruct (sub_fuel n (Plus (Chr q)) [u] (dropwhile q s)) as [|x r];
        [exact I|].
      intros [_ Ex]. specialize (I2 Ex).
      pose proof (dropwhile_head q s) as Hh.
      destruct (dropwhile q s) as [|d ds]; [contradiction|congruence].
    + destruct (IH s ltac:(lia)) as [I1 I2].
      assert (Hc : c <> u) by congruence.
      split; [|intros E; contradiction].
      cbn [no_adjacent]. split; [|exact I1].
      destruct (sub_fuel n (Plus (Chr q)) [u] s) as [|x r]; [exact I|].
      intros [E _]. contradiction.
Qed.

(** X4.  Whatever the topic, the slug never has two underscores in a
    row: every run of whitespace and underscores has become one
    underscore. *)
Theorem slugify_no_double_underscore (rt : Runtime) (text : str) :
  no_adjacent UNDERSCORE (Main.slugify rt text).
Proof.
  unfold Main.slugify. cbv zeta.
  set (t1 := sub (Chr _) [] _).
  assert (H2 : no_adjacent UNDERSCORE
                 (sub (Plus (Chr Main.space_or_underscore)) [UNDERSCORE] t1)).
  { apply (@sub_fuel_plus_no_adjacent Main.space_or_underscore UNDERSCORE
             eq_refl (S (length t1)) t1). lia. }
  set (t2 := sub _ _ t1) in *.
  assert (H3 : no_adjacent UNDERSCORE (strip_char UNDERSCORE t2)).
  { unfold strip_char, strip_with, rstrip_with, lstrip_with.
    apply no_adjacent_rev.
    destruct (dropwhile_suffix (N.eqb UNDERSCORE)
                (rev (dropwhile (N.eqb UNDERSCORE) t2))) as [p1 E1].
    apply (f_equal (@rev _)) in E1. rewrite rev_involutive in E1.
    destruct (dropwhile_suffix (N.eqb UNDERSCORE) t2) as [p2 E2].
    rewrite E2 in H2. apply no_adjacent_app in H2. destruct H2 as [_ H2].
    apply no_adjacent_rev in H2.
    rewrite <- (rev_involutive (dropwhile (N.eqb UNDERSCORE) t2)) in E1.
    apply (f_equal (@rev _)) in E1. rewrite !rev_involutive in E1.
    rewrite E1 in H2. apply no_adjacent_app in H2. apply H2. }
  rewrite <- (firstn_skipn 50 (strip_char UNDERSCORE t2)) in H3.
  apply no_adjacent_app in H3. apply H3.
Qed.

Lemma sub_fuel_plus_no_match (q : char -> bool) (repl : str) :
  forall (n : nat) (s : str),
    Forall (fun c => q c = false) s ->
    sub_fuel n (Plus (Chr q)) repl s = s.
Proof.
  induction n as [|n IH]; intros s H; [reflexivity|].
  destruct H as [|c s Hc Hs]; cbn [sub_fuel]; rewrite re_match_plus_chr.
  - reflexivity.
  - rewrite Hc. f_equal. apply IH. exact Hs.
Qed.

Lemma dropwhile_none (p : char -> bool) (s : str) :
  Forall (fun c => p c = false) s -> dropwhile p s = s.
Proof. intros [|c t Hc Ht]; simpl; [reflexivity|]. rewrite Hc. reflexivity. Qed.

Lemma filter_all (f : char -> bool) (s : str) :
  Forall (fun c => f c = true) s -> filter f s = s.
Proof.
  induction 1 as [|c s Hc Hs IH]; simpl; [reflexivity|].
  rewrite Hc, IH. reflexivity.
Qed.

(** X5.  A topic that already is a slug is its own slug: at most 50
    lowercase ASCII letters, digits and hyphens, which [str.lower]
    leaves as they are, come back unchanged. *)
Theorem slugify_fixed_point (rt : Runtime) (text : str) :
  length text <= 50 ->
  Forall (fun c => slug_letter c = true) text ->
  str_lower rt text = text ->
  Main.slugify rt text = text.
Proof.
  intros Hlen Hall Hlow. unfold Main.slugify. rewrite Hlow.
  rewrite sub_chr_delete.
  rewrite filter_all.
  2:{ eapply Forall_impl; [|exact Hall]. intros c Hc.
      rewrite negb_involutive. unfold slug_letter in Hc.
      unfold Main.slug_char.
      repeat (apply orb_prop in Hc; destruct Hc as [Hc|Hc]);
        rewrite Hc, ?orb_true_r; reflexivity. }
  assert (Hq : Forall (fun c => Main.space_or_underscore c = false) text).
  { eapply Forall_impl; [|exact Hall]. intros c Hc.
    unfold slug_letter in Hc. unfold Main.space_or_underscore, isspace.
    repeat (apply orb_prop in Hc; destruct Hc as [Hc|Hc]);
      try (apply andb_prop in Hc; destruct Hc as [Hc1 Hc2];
           apply N.leb_le in Hc1; apply N.leb_le in Hc2);
      try (apply N.eqb_eq in Hc; unfold HYPHEN in Hc);
      unfold UNDERSCORE;
      repeat match goal with
             | |- context [(?a <=? ?b)%N] =>
                 destruct (N.leb_spec a b); try lia
             | |- context [(?a =? ?b)%N] =>
                 destruct (N.eqb_spec a b); try lia
             end; reflexivity. }
  unfold sub. rewrite sub_fuel_plus_no_match by exact Hq.
  assert (Hu : Forall (fun c => (UNDERSCORE =? c)%N = false) text).
  { eapply Forall_impl; [|exact Hq]. intros c Hc.
    unfold Main.space_or_underscore in Hc. apply orb_false_elim in Hc.
    rewrite N.eqb_sym. apply Hc. }
  unfold strip_char, strip_with, rstrip_with, lstrip_with.
  rewrite (@dropwhile_none (N.eqb UNDERSCORE) text Hu).
  rewrite (@dropwhile_none (N.eqb UNDERSCORE) (rev text))
    by (apply Forall_rev; exact Hu).
  rewrite rev_involutive. apply firstn_all2. exact Hlen.
Qed.

Lemma slugify_fixed_point_witness :
  Main.slugify ascii_runtime (of_string "api-design-2024")
  = of_string "api-design-2024".
Proof.
  apply slugify_fixed_point.
  - simpl. lia.
  - repeat constructor.
  - reflexivity.
Defined.

(* ================================================================== *)
(** * The web research *)
(* ================================================================== *)

Lemma seen_url_true (u : str) (seen : list str) :
  Research.seen_url u seen = true <-> In u seen.
Proof.
  unfold Research.seen_url.
  destruct (in_dec (list_eq_dec N.eq_dec) u seen); split; intros H;
    try assumption; try reflexivity; try discriminate. contradiction.
Qed.

Lemma unique_from_spec (all_results : list Source) :
  forall seen : list str,
    let unique := Research.unique_from seen all_results in
    NoDup (map url unique)
    /\ (forall r, In r unique -> In r all_results /\ ~ In (url r) seen)
    /\ (forall r, In r all_results ->
                  In (url r) seen \/ In (url r) (map url unique)).
Proof.
  induction all_results as [|r rest IH]; intros seen; cbn [Research.unique_from].
  - split; [constructor|]. split; intros r []; contradiction.
  - destruct (Research.seen_url (url r) seen) eqn:E.
    + destruct (IH seen) as (N1 & N2 & N3).
      split; [exact N1|]. split.
      * intros x Hx. destruct (N2 x Hx). split; [right|]; assumption.
      * intros x [<-|Hx]; [left; apply seen_url_true; exact E|].
        apply N3. exact Hx.
    + assert (Hns : ~ In (url r) seen).
      { intro Hin. apply seen_url_true in Hin. congruence. }
      destruct (IH (url r :: seen)) as (N1 & N2 & N3).
      split; [|split].
      * cbn [map]. constructor; [|exact N1].
        intro Hin. apply in_map_iff in Hin. destruct Hin as (x & Hx & Hin).
        destruct (N2 x Hin) as (_ & Hn). apply Hn. left. symmetry. exact Hx.
      * intros x [<-|Hx]; [split; [left; reflexivity|exact Hns]|].
        destruct (N2 x Hx) as (H1 & H2).
        split; [right; exact H1|]. intro Hin. apply H2. right. exact Hin.
      * intros x [<-|Hx]; [right; left; reflexivity|].
        destruct (N3 x Hx) as [[Hu|Hs]|Hu].
        -- right. left. exact Hu.
        -- left. exact Hs.
        -- right. right. exact Hu.
Qed.

Lemma NoDup_firstn_str (n : nat) (l : list str) :
  NoDup l -> NoDup (firstn n l).
Proof.
  intros H. rewrite <- (firstn_skipn n l) in H.
  apply NoDup_app_remove_r in H. exact H.
Qed.

(** X6.  For a result budget that is not negative, the research keeps at
    most that many sources, no two with the same URL, each one a hit of
    one of the five queries; it reports how many distinct URLs were
    found, and when they fit the budget, every URL found is kept. *)
Theorem perform_research_unique_sources
        (use_tavily : bool) (search_func : str -> Z -> list Source)
        (topic : str) (max_results : Z) :
  (0 <= max_results)%Z ->
  let data := Research.perform_research use_tavily search_func topic max_results in
  let hits query := search_func query (max_results / 5)%Z in
  NoDup (map url (Research.sources data))
  /\ (Z.of_nat (length (Research.sources data)) <= max_results)%Z
  /\ (Z.of_nat (length (Research.sources data))
      <= Research.total_results data)%Z
  /\ (forall r, In r (Research.sources data) ->
                exists query, In query (Research.queries topic)
                              /\ In r (hits query))
  /\ ((Research.total_results data <= max_results)%Z ->
      forall query r,
        In query (Research.queries topic) -> In r (hits query) ->
        In (url r) (map url (Research.sources data))).
Proof.
  intros Hm data hits.
  unfold data, Research.perform_research. cbv zeta.
  cbn [Research.sources Research.total_results].
  change (Z.of_nat (length (Research.queries topic))) with 5%Z.
  unfold floordiv. fold hits.
  set (all := flat_map _ (Research.queries topic)).
  destruct (unique_from_spec all []) as (N1 & N2 & N3). cbv zeta in N1, N2, N3.
  set (unique := Research.unique_from [] all) in *.
  unfold Research.slice_to.
  replace (0 <=? max_results)%Z with true by (symmetry; apply Z.leb_le; lia).
  split; [rewrite <- firstn_map; apply NoDup_firstn_str; exact N1|].
  split; [rewrite length_firstn; lia|].
  split; [rewrite length_firstn; lia|].
  split.
  - intros r Hr. apply firstn_incl in Hr. destruct (N2 r Hr) as (Hall & _).
    unfold all in Hall. apply in_flat_map in Hall. exact Hall.
  - intros Hfit query r Hq Hr.
    rewrite firstn_all2 by lia.
    destruct (N3 r) as [[]|H]; [|exact H].
    unfold all. apply in_flat_map. exists query. split; assumption.
Qed.

Lemma perform_research_unique_sources_witness :
  let hit u := {| source := of_string "t"; url := of_string u;
                  content := [] |} in
  let search (_ : str) (_ : Z) := [hit "a"; hit "b"; hit "a"]%string in
  map url (Research.sources
             (Research.perform_research true search (of_string "x") 10))
  = map of_string ["a"; "b"]%string
  /\ NoDup (map url (Research.sources
                       (Research.perform_research true search
                                                  (of_string "x") 10))).
Proof.
  intros hit search. split; [reflexivity|].
  apply (@perform_research_unique_sources true search (of_string "x") 10).
  lia.
Defined.

(* ================================================================== *)
(** * The items of a parsed list *)
(* ================================================================== *)

(** What a greedy run over one class hands on: the input without some
    leading characters of the class. *)
Lemma star_chr_inv (R : Type) (q : char -> bool) (k : cont R) (x : R) :
  forall (n : nat) (s : str) (g : option str),
    star_loop (m (Chr q)) k n s g = Some x ->
    exists pre s',
      s = pre ++ s' /\ Forall (fun c => q c = true) pre /\ k s' g = Some x.
Proof.
  induction n as [|n IH]; intros s g H.
  - exists [], s. split; [reflexivity|]. split; [constructor|exact H].
  - cbn [star_loop m] in H. destruct s as [|c t].
    + exists [], []. split; [reflexivity|]. split; [constructor|exact H].
    + destruct (q c) eqn:Eq.
      * destruct (length t <? length (c :: t)).
        -- pose proof (IH t g) as IHt. cbn [m] in IHt.
           destruct (star_loop _ k n t g) as [y|] eqn:El.
           ++ destruct (IHt H) as (pre & s' & E1 & E2 & E3).
              exists (c :: pre), s'. split; [rewrite E1; reflexivity|].
              split; [constructor; assumption|exact E3].
           ++ exists [], (c :: t). split; [reflexivity|].
              split; [constructor|exact H].
        -- exists [], (c :: t). split; [reflexivity|].
           split; [constructor|exact H].
      * exists [], (c :: t). split; [reflexivity|].
        split; [constructor|exact H].
Qed.

(** The group of the item pattern is a non-empty piece of one line. *)
Lemma item_re_group (s rest : str) (g : option str) :
  re_match item_re s = Some (g, rest) ->
  exists item, g = Some item /\ item <> []
               /\ Forall (fun c => not_nl c = true) item.
Proof.
  unfold re_match, item_re. rewrite m_seq.
  destruct s as [|b s1]; [discriminate|]. rewrite m_chr_cons.
  destruct (bullet b); [|discriminate].
  rewrite m_seq, m_star. intros H.
  apply star_chr_inv in H. destruct H as (pre & s2 & _ & _ & H).
  cbn [m Plus] in H.
  destruct s2 as [|c s3]; [discriminate|].
  destruct (not_nl c) eqn:Ec; [|discriminate].
  change (star_loop
            (m (Chr not_nl))
            (fun (s' : str) (_ : option str) =>
               Some (Some (firstn (length (c :: s3) - length s') (c :: s3)), s'))
            (length s3) s3 None = Some (g, rest)) in H.
  apply star_chr_inv in H. destruct H as (pre3 & s4 & E & Hall & H).
  assert (Eg : firstn (length (c :: s3) - length s4) (c :: s3) = c :: pre3).
  { rewrite E.
    replace (length (c :: pre3 ++ s4) - length s4) with (length (c :: pre3))
      by (cbn [length]; rewrite length_app; lia).
    apply (firstn_length_app (c :: pre3) s4). }
  rewrite Eg in H. inversion H; subst.
  exists (c :: pre3).
  split; [reflexivity|]. split; [discriminate|constructor; assumption].
Qed.

Lemma findall_fuel_Forall (P : str -> Prop) (r : regex) :
  (forall t g rest, re_match r t = Some (g, rest) -> P (group1 g)) ->
  forall (n : nat) (s : str), Forall P (findall_fuel n r s).
Proof.
  intros HP. induction n as [|n IH]; intros s; [constructor|].
  cbn [findall_fuel].
  assert (Hnext : Forall P match s with
                           | [] => []
                           | _ :: s' => findall_fuel n r s'
                           end)
    by (destruct s; [constructor|apply IH]).
  destruct (re_match r s) as [[g rest]|] eqn:E; [|exact Hnext].
  constructor; [eapply HP; exact E|].
  destruct (length rest <? length s); [apply IH|exact Hnext].
Qed.

Lemma dropwhile_id (p : char -> bool) (s : str) :
  match s with [] => True | c :: _ => p c = false end -> dropwhile p s = s.
Proof. destruct s as [|c t]; simpl; [reflexivity|]. intros ->. reflexivity. Qed.

(** [strip] leaves a stripped string alone. *)
Lemma strip_with_idempotent (p : char -> bool) (s : str) :
  strip_with p (strip_with p s) = strip_with p s.
Proof.
  pose proof (strip_with_head p s) as Hh.
  unfold strip_with, rstrip_with, lstrip_with in *.
  set (z := rev (dropwhile p (rev (dropwhile p s)))) in *.
  rewrite (dropwhile_id p z Hh).
  assert (Hl : match rev z with [] => True | c :: _ => p c = false end).
  { unfold z. rewrite rev_involutive. apply dropwhile_head. }
  rewrite (dropwhile_id p (rev z) Hl). apply rev_involutive.
Qed.

Lemma strip_with_keeps (P : char -> Prop) (p : char -> bool) (s : str) :
  Forall P s -> Forall P (strip_with p s).
Proof. apply strip_with_Forall. Qed.

(** X7.  Every item [extract_list] returns is non-empty, lies within
    one line, and has no whitespace at either end, whatever the reply
    and the label. *)
Theorem extract_list_items_clean (text pattern : str) :
  Forall (fun item => item <> []
                      /\ Forall (fun c => not_nl c = true) item
                      /\ strip item = item)
         (extract_list text pattern).
Proof.
  unfold extract_list.
  destruct (search (list_section_re pattern) text) as [[g rest]|];
    [|constructor].
  cbv zeta.
  assert (Hitems : Forall (fun it => Forall (fun c => not_nl c = true) it)
                          (findall item_re (group1 g))).
  { apply findall_fuel_Forall. intros t g' rest' H.
    apply item_re_group in H. destruct H as (item & -> & _ & H). exact H. }
  apply Forall_forall. intros item Hin.
  apply in_map_iff in Hin. destruct Hin as (it & <- & Hin).
  apply filter_In in Hin. destruct Hin as (Hin & Hne).
  rewrite Forall_forall in Hitems.
  split; [destruct (strip it); [discriminate|discriminate]|].
  split; [apply strip_with_keeps; apply Hitems; exact Hin|].
  apply strip_with_idempotent.
Qed.

(* ================================================================== *)
(** * More on the run of the graph *)
(* ================================================================== *)

Section MoreRun.
Variable rt : Runtime.
Variable w : World.

Local Abbreviation step := (step rt w).
Local Abbreviation steps := (steps rt w).

(** The states of one pass, written out. *)
Lemma pass_chain (c : Config) :
  at_node c = Researcher ->
  let r1 := researcher_node w (effects c) (state c) in
  let s1 := merge (state c) (snd r1) in
  let r2 := writer_node rt w (fst r1) s1 in
  let s2 := merge s1 (snd r2) in
  let r3 := reviewer_node rt w (fst r2) s2 in
  let s3 := merge s2 (snd r3) in
  let r4 := seo_node rt w (fst r3) s3 in
  let s4 := merge s3 (snd r4) in
  state (steps 4 c) = s4
  /\ effects (steps 4 c) = fst r4
  /\ state (steps 5 c) = after_controller s4
  /\ effects (steps 5 c) = fst r4
  /\ at_node (steps 5 c)
     = (if is_complete (after_controller s4) then END else Researcher).
Proof.
  intros Hn.
  change (steps 4 c) with (step (step (step (step c)))).
  change (steps 5 c) with (step (step (step (step (step c))))).
  destruct (@step_stage rt w c) as (A1 & S1 & E1 & _);
    [rewrite Hn; discriminate ..|].
  rewrite Hn in A1, S1, E1. cbn [next_node run_node] in A1, S1, E1.
  destruct (@step_stage rt w (step c)) as (A2 & S2 & E2 & _);
    [rewrite A1; discriminate ..|].
  rewrite A1 in A2, S2, E2. rewrite S1 in A2, S2, E2.
  rewrite E1 in S2, E2. cbn [next_node run_node] in A2, S2, E2.
  destruct (@step_stage rt w (step (step c))) as (A3 & S3 & E3 & _);
    [rewrite A2; discriminate ..|].
  rewrite A2 in A3, S3, E3. rewrite S2 in A3, S3, E3.
  rewrite E2 in S3, E3. cbn [next_node run_node] in A3, S3, E3.
  destruct (@step_stage rt w (step (step (step c)))) as (A4 & S4 & E4 & _);
    [rewrite A3; discriminate ..|].
  rewrite A3 in A4, S4, E4. rewrite S3 in A4, S4, E4.
  rewrite E3 in S4, E4. cbn [next_node run_node] in A4, S4, E4.
  destruct (@step_controller rt w (step (step (step (step c)))) A4)
    as (A5 & S5 & E5 & _).
  rewrite S4 in A5, S5. rewrite E4 in E5.
  cbv zeta. repeat split; assumption.
Qed.

(** What each node does to the log and to the counter. *)
Lemma researcher_message (e : Effects) (st : BlogState) :
  let st' := merge st (snd (researcher_node w e st)) in
  map entry (messages st')
  = map entry (messages st) ++ [(Researcher, current_iteration st)]
  /\ current_iteration st' = current_iteration st.
Proof.
  unfold researcher_node. destruct (_ && _); cbv zeta; cbn; rewrite map_app;
    split; reflexivity.
Qed.

Lemma writer_message (e : Effects) (st : BlogState) :
  let st' := merge st (snd (writer_node rt w e st)) in
  map entry (messages st')
  = map entry (messages st) ++ [(Writer, current_iteration st)]
  /\ current_iteration st' = current_iteration st.
Proof. cbv zeta; cbn; rewrite map_app; split; reflexivity. Qed.

Lemma reviewer_message (e : Effects) (st : BlogState) :
  let st' := merge st (snd (reviewer_node rt w e st)) in
  map entry (messages st')
  = map entry (messages st) ++ [(Reviewer, current_iteration st)]
  /\ current_iteration st' = current_iteration st.
Proof. cbv zeta; cbn; rewrite map_app; split; reflexivity. Qed.

Lemma seo_message (e : Effects) (st : BlogState) :
  let st' := merge st (snd (seo_node rt w e st)) in
  map entry (messages st')
  = map entry (messages st) ++ [(Seo, current_iteration st)]
  /\ current_iteration st' = current_iteration st.
Proof. cbv zeta; cbn; rewrite map_app; split; reflexivity. Qed.

Lemma controller_messages (st : BlogState) :
  messages (after_controller st) = messages st.
Proof.
  unfold after_controller, iteration_controller.
  destruct (_ <? _)%Z; reflexivity.
Qed.

(** One pass adds its four entries to the log, stamped with the
    iteration it started in. *)
Lemma pass_messages (c : Config) :
  at_node c = Researcher ->
  map entry (messages (state (steps 5 c)))
  = map entry (messages (state c))
    ++ log_of_pass (current_iteration (state c)).
Proof.
  intros Hn. destruct (pass_chain c Hn) as (_ & _ & S5 & _).
  rewrite S5, controller_messages.
  set (r1 := researcher_node w (effects c) (state c)).
  set (s1 := merge (state c) (snd r1)).
  set (r2 := writer_node rt w (fst r1) s1).
  set (s2 := merge s1 (snd r2)).
  set (r3 := reviewer_node rt w (fst r2) s2).
  set (s3 := merge s2 (snd r3)).
  destruct (researcher_message (effects c) (state c)) as (M1 & I1).
  destruct (writer_message (fst r1) s1) as (M2 & I2).
  destruct (reviewer_message (fst r2) s2) as (M3 & I3).
  destruct (seo_message (fst r3) s3) as (M4 & _).
  fold r1 s1 in M1, I1. fold r2 s2 in M2, I2. fold r3 s3 in M3, I3.
  rewrite M4, M3, M2, M1, I3, I2, I1.
  unfold log_of_pass. rewrite <- !app_assoc. reflexivity.
Qed.

(** The configuration at the start of pass [j] of a run. *)
Lemma pass_start (j : nat) :
  forall c : Config,
    at_node c = Researcher ->
    is_complete (state c) = false ->
    (current_iteration (state c) + Z.of_nat j <= max_iterations (state c))%Z
    \/ j = 0 ->
    let cj := steps (5 * j) c in
    at_node cj = Researcher
    /\ is_complete (state cj) = false
    /\ current_iteration (state cj)
       = (current_iteration (state c) + Z.of_nat j)%Z
    /\ max_iterations (state cj) = max_iterations (state c)
    /\ topic (state cj) = topic (state c)
    /\ map entry (messages (state cj))
       = map entry (messages (state c))
         ++ log_of_passes (current_iteration (state c)) j.
Proof.
  induction j as [|j IH]; intros c Hn Hic Hj cj.
  - unfold cj. change (5 * 0) with 0. cbn [Graph.steps log_of_passes].
    rewrite app_nil_r, Z.add_0_r. repeat split; assumption.
  - destruct Hj as [Hj|Hj]; [|discriminate].
    assert (E : cj = steps (5 * j) (steps 5 c)).
    { unfold cj. rewrite <- steps_add. f_equal. lia. }
    destruct (@pass rt w c Hn) as (Hjs & _ & S5 & A5 & _).
    destruct (Hjs 4 ltac:(lia)) as (_ & (K4c & K4m & K4i & K4t)).
    destruct (controller_decides (state (steps 4 c))) as (D & _).
    cbv zeta in D. rewrite <- S5 in D.
    destruct D as (Dc & Di); [lia|].
    destruct (controller_keeps (state (steps 4 c))) as (M & Mt & _).
    rewrite <- S5 in M, Mt.
    assert (Hic5 : is_complete (state (steps 5 c)) = false) by congruence.
    rewrite Hic5 in A5.
    destruct (IH (steps 5 c) A5 Hic5 ltac:(left; lia))
      as (I1 & I2 & I3 & I4 & It & I5).
    rewrite <- E in I1, I2, I3, I4, It, I5.
    split; [exact I1|]. split; [exact I2|]. split; [lia|].
    split; [congruence|]. split; [congruence|].
    rewrite I5, (pass_messages c Hn). cbn [log_of_passes].
    rewrite <- app_assoc. do 3 f_equal. lia.
Qed.

(** The start of the last pass: the counter has reached the bound (or
    started above it). *)
Lemma last_pass_start (c : Config) :
  at_node c = Researcher ->
  is_complete (state c) = false ->
  let k := Z.to_nat (max_iterations (state c) - current_iteration (state c)) in
  let cl := steps (5 * k) c in
  at_node cl = Researcher
  /\ is_complete (state cl) = false
  /\ (max_iterations (state cl) <= current_iteration (state cl))%Z
  /\ current_iteration (state cl)
     = (current_iteration (state c) + Z.of_nat k)%Z
  /\ topic (state cl) = topic (state c)
  /\ map entry (messages (state cl))
     = map entry (messages (state c))
       ++ log_of_passes (current_iteration (state c)) k
  /\ steps (5 * S k) c = steps 5 cl.
Proof.
  intros Hn Hic k cl.
  destruct (@pass_start k c Hn Hic) as (I1 & I2 & I3 & I4 & It & I5).
  { destruct (Nat.eq_dec k 0) as [E|E]; [right; exact E|left]. lia. }
  fold cl in I1, I2, I3, I4, It, I5.
  split; [exact I1|]. split; [exact I2|]. split; [lia|].
  split; [exact I3|]. split; [exact It|]. split; [exact I5|].
  unfold cl. rewrite <- steps_add. f_equal. lia.
Qed.

Lemma log_of_passes_snoc (n : nat) :
  forall i : Z,
    log_of_passes i (S n)
    = log_of_passes i n ++ log_of_pass (i + Z.of_nat n).
Proof.
  induction n as [|n IH]; intros i.
  - cbn [log_of_passes]. rewrite app_nil_r, Z.add_0_r. reflexivity.
  - change (log_of_passes i (S (S n)))
      with (log_of_pass i ++ log_of_passes (i + 1) (S n)).
    rewrite IH. cbn [log_of_passes]. rewrite <- app_assoc.
    do 3 f_equal. lia.
Qed.

Lemma log_of_passes_length (n : nat) :
  forall i : Z, length (log_of_passes i n) = 4 * n.
Proof.
  induction n as [|n IH]; intros i; [reflexivity|].
  cbn [log_of_passes]. rewrite length_app, IH. cbn [log_of_pass length]. lia.
Qed.

(** What [generate_blog] returns is the end of the last pass. *)
Lemma final_last_pass (fuel : nat) (topic : str) (N : Z) (final : Config) :
  generate_blog rt w fuel topic N = Some final ->
  let k := Z.to_nat (N - 1) in
  let cl := steps (5 * k) (start (create_initial_state topic N)) in
  final = steps 5 cl
  /\ at_node cl = Researcher
  /\ (max_iterations (state cl) <= current_iteration (state cl))%Z
  /\ current_iteration (state cl) = (1 + Z.of_nat k)%Z
  /\ Models.topic (state cl) = topic
  /\ map entry (messages (state cl)) = log_of_passes 1 k
  /\ llm_calls (effects final) = 3 * k + 4.
Proof.
  intros H k cl.
  destruct (run_initial rt w topic N)
    as (I1 & _ & _ & _ & _ & I6 & _ & _ & _ & _ & I11 & _).
  assert (E : final = steps (5 * S (Z.to_nat (N - 1)))
                            (start (create_initial_state topic N))).
  { eapply invoke_from_unique; [|exact I1|exact H].
    intros n Hn. apply (I11 n Hn). }
  destruct (@last_pass_start (start (create_initial_state topic N))
              eq_refl eq_refl) as (L1 & _ & L3 & L4 & Lt & L5 & L6).
  change (max_iterations (state (start (create_initial_state topic N))))
    with N in L1, L3, L4, Lt, L5, L6.
  change (current_iteration (state (start (create_initial_state topic N))))
    with 1%Z in L1, L3, L4, Lt, L5, L6.
  fold k in L1, L3, L4, Lt, L5, L6, E, I6. fold cl in L1, L3, L4, Lt, L5, L6.
  rewrite L6 in E, I6. rewrite <- E in I6.
  split; [exact E|]. split; [exact L1|]. split; [exact L3|].
  split; [exact L4|]. split; [exact Lt|]. split; [exact L5|]. lia.
Qed.

(** What the last pass leaves in the state: the three replies of that
    pass and what the nodes read off them. *)
Lemma pass_content (c : Config) :
  at_node c = Researcher ->
  (max_iterations (state c) <= current_iteration (state c))%Z ->
  let st := state (steps 5 c) in
  exists j : nat,
    llm_calls (effects (steps 5 c)) = 3 + j
    /\ let draft := llm_invoke w j in
       let review := llm_invoke w (1 + j) in
       let seo := llm_invoke w (2 + j) in
       draft_content st = draft
       /\ title st = extract_title rt draft (topic (state c))
       /\ word_count st = count_words draft
       /\ code_block_count st = count_code_blocks draft
       /\ table_count st = count_tables draft
       /\ option_map detailed_feedback (review_feedback st) = Some review
       /\ option_map detailed_analysis (seo_analysis st) = Some seo
       /\ final_review_score st
          = parse_score rt (of_string "OVERALL_SCORE") review
       /\ option_map overall_score (review_feedback st)
          = Some (final_review_score st)
       /\ final_seo_score st = parse_score rt (of_string "SEO_SCORE") seo
       /\ option_map seo_score (seo_analysis st)
          = Some (final_seo_score st)
       /\ is_complete st = true.
Proof.
  intros Hn Hmax st.
  destruct (pass_chain c Hn) as (_ & _ & S5 & E5 & _).
  unfold st. rewrite S5, E5. clear S5 E5 st.
  exists (llm_calls (fst (researcher_node w (effects c) (state c)))).
  unfold after_controller, iteration_controller.
  unfold researcher_node.
  destruct ((1 <? current_iteration (state c))%Z
            && truthy (research_context (state c)));
    cbn [fst snd];
    match goal with
    | |- context [if (?a <? ?b)%Z then _ else _] =>
        replace (a <? b)%Z with true
          by (symmetry; apply Z.ltb_lt;
              change (max_iterations (state c)
                      < current_iteration (state c) + 1)%Z; lia)
    end;
    (split; [reflexivity|]); cbv zeta; repeat split.
Qed.

End MoreRun.

(** X8.  The log of a finished run: whatever [generate_blog] returns,
    its messages are, in order, one entry of the researcher, the writer,
    the reviewer and the SEO optimizer for each pass, stamped with the
    iterations 1, 2, ... of the passes; the controller writes nothing.
    So the log has four entries for each pass. *)
Theorem message_log_of_run
        (rt : Runtime) (w : World) (fuel : nat) (topic : str) (N : Z)
        (final : Config) :
  generate_blog rt w fuel topic N = Some final ->
  map entry (messages (state final)) = log_of_passes 1 (passes N)
  /\ length (messages (state final)) = 4 * passes N.
Proof.
  intros H.
  destruct (final_last_pass rt w fuel topic N H)
    as (E & L1 & _ & L4 & _ & L5 & _).
  assert (M : map entry (messages (state final))
              = log_of_passes 1 (passes N)).
  { rewrite E, (pass_messages rt w _ L1), L5, L4.
    unfold passes. rewrite log_of_passes_snoc. reflexivity. }
  split; [exact M|].
  rewrite <- (length_map entry), M. apply log_of_passes_length.
Qed.

Lemma message_log_of_run_witness :
  exists final : Config,
    generate_blog ascii_runtime (constant_world (of_string "ok")) 10
                  (of_string "Example Topic") 2 = Some final
    /\ map entry (messages (state final))
       = [(Researcher, 1%Z); (Writer, 1%Z); (Reviewer, 1%Z); (Seo, 1%Z);
          (Researcher, 2%Z); (Writer, 2%Z); (Reviewer, 2%Z); (Seo, 2%Z)].
Proof.
  assert (E : exists final,
             generate_blog ascii_runtime (constant_world (of_string "ok")) 10
                           (of_string "Example Topic") 2 = Some final)
    by (eexists; vm_compute; reflexivity).
  destruct E as (final & E). exists final. split; [exact E|].
  exact (proj1 (@message_log_of_run ascii_runtime
                  (constant_world (of_string "ok")) 10
                  (of_string "Example Topic") 2 final E)).
Defined.

(** X9.  A node never rewrites the log: each step of the graph leaves
    the messages it found in place and appends at most one. *)
Theorem message_log_append_only
        (rt : Runtime) (w : World) (n : nat) (c : Config) :
  exists added : list Message,
    messages (state (steps rt w n c)) = messages (state c) ++ added
    /\ length added <= n.
Proof.
  revert c. induction n as [|n IH]; intros c.
  - exists []. cbn [Graph.steps length]. rewrite app_nil_r. split; [reflexivity|lia].
  - cbn [Graph.steps].
    destruct (IH (step rt w c)) as (added & Ha & Hl).
    assert (S1 : exists one, messages (state (step rt w c))
                             = messages (state c) ++ one
                             /\ length one <= 1).
    { destruct (at_node c) eqn:En.
      1-4: destruct (@step_stage rt w c) as (_ & S1 & _);
        [rewrite En; discriminate ..|]; rewrite S1, En;
        cbn [Graph.run_node].
      - unfold researcher_node. destruct (_ && _); eexists;
          (split; [reflexivity|cbn [length]; lia]).
      - eexists; split; [reflexivity|cbn [length]; lia].
      - eexists; split; [reflexivity|cbn [length]; lia].
      - eexists; split; [reflexivity|cbn [length]; lia].
      - destruct (@step_controller rt w c En) as (_ & S1 & _).
        rewrite S1, controller_messages. exists [].
        rewrite app_nil_r. split; [reflexivity|cbn [length]; lia].
      - rewrite step_at_END by exact En. exists [].
        rewrite app_nil_r. split; [reflexivity|cbn [length]; lia]. }
    destruct S1 as (one & H1 & L1).
    exists (one ++ added). rewrite Ha, H1, <- app_assoc.
    split; [reflexivity|]. rewrite length_app. lia.
Qed.

(** X10.  The result of a run is the work of its last pass: with
    k + 1 passes, the final draft is the model's reply number 3 k + 1
    (counting from 0), its title and the three metrics are computed from
    that draft, the stored review is reply 3 k + 2 and the stored SEO
    analysis is reply 3 k + 3. *)
Theorem final_state_is_last_pass
        (rt : Runtime) (w : World) (fuel : nat) (topic : str) (N : Z)
        (final : Config) :
  generate_blog rt w fuel topic N = Some final ->
  let k := Z.to_nat (N - 1) in
  let draft := llm_invoke w (3 * k + 1) in
  let st := state final in
  draft_content st = draft
  /\ title st = extract_title rt draft topic
  /\ word_count st = count_words draft
  /\ code_block_count st = count_code_blocks draft
  /\ table_count st = count_tables draft
  /\ option_map detailed_feedback (review_feedback st)
     = Some (llm_invoke w (3 * k + 2))
  /\ option_map detailed_analysis (seo_analysis st)
     = Some (llm_invoke w (3 * k + 3)).
Proof.
  intros H k draft st.
  destruct (final_last_pass rt w fuel topic N H)
    as (E & L1 & L3 & _ & Lt & _ & Lc).
  fold k in E, L1, L3, Lt, Lc.
  destruct (pass_content rt w _ L1 L3)
    as (j & Hj & P1 & P2 & P3 & P4 & P5 & P6 & P7 & _).
  rewrite <- E in Hj, P1, P2, P3, P4, P5, P6, P7. fold st in P1, P2, P3, P4, P5, P6, P7.
  assert (Ej : j = 3 * k + 1) by lia. subst j.
  rewrite Lt in P2.
  replace (1 + (3 * k + 1)) with (3 * k + 2) in P6 by lia.
  replace (2 + (3 * k + 1)) with (3 * k + 3) in P7 by lia.
  repeat split; assumption.
Qed.

Lemma final_state_is_last_pass_witness :
  let w := {| llm_invoke := fun n => str_of_int (Z.of_nat n);
              perform_research := fun _ => ([], of_string "DuckDuckGo") |} in
  exists final : Config,
    generate_blog ascii_runtime w 10 (of_string "Example Topic") 2
    = Some final
    /\ draft_content (state final) = of_string "4".
Proof.
  intros w.
  assert (E : exists final,
             generate_blog ascii_runtime w 10 (of_string "Example Topic") 2
             = Some final)
    by (eexists; vm_compute; reflexivity).
  destruct E as (final & E). exists final. split; [exact E|].
  exact (proj1 (@final_state_is_last_pass ascii_runtime w 10
                  (of_string "Example Topic") 2 final E)).
Defined.

(** X11.  The scores of a finished run are those of its last pass: the
    final review score is the score stored with the last review, parsed
    from the last review reply, the final SEO score likewise, and both
    lie between 1 and 10. *)
Theorem final_scores_of_run
        (rt : Runtime) (w : World) (fuel : nat) (topic : str) (N : Z)
        (final : Config) :
  generate_blog rt w fuel topic N = Some final ->
  let k := Z.to_nat (N - 1) in
  let st := state final in
  final_review_score st
  = parse_score rt (of_string "OVERALL_SCORE") (llm_invoke w (3 * k + 2))
  /\ final_seo_score st
     = parse_score rt (of_string "SEO_SCORE") (llm_invoke w (3 * k + 3))
  /\ option_map overall_score (review_feedback st)
     = Some (final_review_score st)
  /\ option_map seo_score (seo_analysis st) = Some (final_seo_score st)
  /\ (1 <= final_review_score st <= 10)%Z
  /\ (1 <= final_seo_score st <= 10)%Z.
Proof.
  intros H k st.
  destruct (final_last_pass rt w fuel topic N H)
    as (E & L1 & L3 & _ & _ & _ & Lc).
  fold k in E, L1, L3, Lc.
  destruct (pass_content rt w _ L1 L3)
    as (j & Hj & _ & _ & _ & _ & _ & _ & _ & P8 & P9 & P10 & P11 & _).
  rewrite <- E in Hj, P8, P9, P10, P11. fold st in P8, P9, P10, P11.
  assert (Ej : j = 3 * k + 1) by lia. subst j.
  replace (1 + (3 * k + 1)) with (3 * k + 2) in P8 by lia.
  replace (2 + (3 * k + 1)) with (3 * k + 3) in P10 by lia.
  split; [exact P8|]. split; [exact P10|].
  split; [exact P9|]. split; [exact P11|].
  rewrite P8, P10. split; apply parse_score_range.
Qed.

Lemma final_scores_of_run_witness :
  let w := constant_world (of_string "OVERALL_SCORE: 12 SEO_SCORE: 7") in
  exists final : Config,
    generate_blog ascii_runtime w 5 (of_string "Example Topic") 1
    = Some final
    /\ final_review_score (state final) = 10%Z
    /\ final_seo_score (state final) = 7%Z.
Proof.
  intros w.
  assert (E : exists final,
             generate_blog ascii_runtime w 5 (of_string "Example Topic") 1
             = Some final
             /\ parse_score ascii_runtime (of_string "OVERALL_SCORE")
                            (llm_invoke w 2) = 10%Z
             /\ parse_score ascii_runtime (of_string "SEO_SCORE")
                            (llm_invoke w 3) = 7%Z)
    by (eexists; vm_compute; repeat split).
  destruct E as (final & E & E1 & E2). exists final. split; [exact E|].
  destruct (@final_scores_of_run ascii_runtime w 5
              (of_string "Example Topic") 1 final E) as (F1 & F2 & _).
  split; [rewrite F1; exact E1|rewrite F2; exact E2].
Defined.

(** X12.  A bound of zero or less does not stop the run before it
    starts: the graph still makes one full pass, in five steps, with
    four model calls and one search, and ends with the counter at 1,
    above the bound. *)
Theorem nonpositive_iterations_run_once
        (rt : Runtime) (w : World) (topic : str) (N : Z) :
  (N <= 0)%Z ->
  exists final : Config,
    (forall fuel, 5 <= fuel -> generate_blog rt w fuel topic N = Some final)
    /\ (forall fuel, fuel < 5 -> generate_blog rt w fuel topic N = None)
    /\ executed final = cycle
    /\ llm_calls (effects final) = 4
    /\ research_calls (effects final) = 1
    /\ is_complete (state final) = true
    /\ current_iteration (state final) = 1%Z
    /\ max_iterations (state final) = N.
Proof.
  intros HN.
  destruct (run_initial rt w topic N)
    as (I1 & I2 & I3 & I4 & I5 & I6 & _ & _ & _ & _ & I11 & _).
  assert (Ek : Z.to_nat (N - 1) = 0) by lia.
  rewrite Ek in I1, I2, I3, I4, I5, I6, I11.
  change (5 * 1) with 5 in I1, I2, I3, I4, I5, I6, I11.
  destruct (@invoke_from_reaches rt w 5 (start (create_initial_state topic N)))
    as (R1 & R2).
  { intros n Hn. apply (I11 n Hn). }
  { exact I1. }
  exists (steps rt w 5 (start (create_initial_state topic N))).
  split; [exact R1|]. split; [exact R2|].
  split; [rewrite I4; cbn [cycles]; apply app_nil_r|].
  split; [exact I6|]. split; [exact I5|]. split; [exact I2|].
  split; [exact I3|].
  rewrite steps_keep_max. reflexivity.
Qed.

Lemma nonpositive_iterations_run_once_witness :
  exists final : Config,
    generate_blog ascii_runtime (constant_world (of_string "ok")) 5
                  (of_string "Example Topic") (-3) = Some final
    /\ executed final = cycle.
Proof.
  destruct (@nonpositive_iterations_run_once ascii_runtime
              (constant_world (of_string "ok"))
              (of_string "Example Topic") (-3) ltac:(lia))
    as (final & H1 & _ & H3 & _).
  exists final. split; [apply (H1 5); lia|exact H3].
Defined.

(* ================================================================== *)
(** * What the stages store *)
(* ================================================================== *)

Lemma extract_list_items_nonempty (text pattern : str) :
  Forall (fun item => item <> []) (extract_list text pattern).
Proof.
  unfold extract_list.
  destruct (search (list_section_re pattern) text) as [[g rest]|];
    [|constructor].
  cbv zeta. apply Forall_forall. intros item Hin.
  apply in_map_iff in Hin. destruct Hin as (it & <- & Hin).
  apply filter_In in Hin. destruct Hin as (_ & Hne).
  destruct (strip it); discriminate.
Qed.

Lemma or_else_nonempty (A : Type) (xs fallback : list A) :
  fallback <> [] -> or_else xs fallback <> [].
Proof. destruct xs; [intros H; exact H|discriminate]. Qed.

Lemma or_else_Forall (A : Type) (P : A -> Prop) (xs fallback : list A) :
  Forall P xs -> Forall P fallback -> Forall P (or_else xs fallback).
Proof. destruct xs; intros H1 H2; [exact H2|exact H1]. Qed.

Section Stored.
Variable rt : Runtime.
Variable w : World.

(** The review and the analysis of the final state are the ones the
    reviewer and the SEO optimizer stored in the last pass. *)
Lemma pass_records (c : Config) :
  at_node c = Researcher ->
  exists (e2 e3 : Effects) (s2 s3 : BlogState),
    review_feedback (state (steps rt w 5 c))
    = review_feedback (merge s2 (snd (reviewer_node rt w e2 s2)))
    /\ seo_analysis (state (steps rt w 5 c))
       = seo_analysis (merge s3 (snd (seo_node rt w e3 s3))).
Proof.
  intros Hn. destruct (pass_chain rt w c Hn) as (_ & _ & S5 & _).
  rewrite S5.
  set (r1 := researcher_node w (effects c) (state c)).
  set (s1 := merge (state c) (snd r1)).
  set (r2 := writer_node rt w (fst r1) s1).
  set (s2 := merge s1 (snd r2)).
  set (r3 := reviewer_node rt w (fst r2) s2).
  set (s3 := merge s2 (snd r3)).
  set (s4 := merge s3 (snd (seo_node rt w (fst r3) s3))).
  exists (fst r2), (fst r3), s2, s3.
  destruct (controller_keeps s4) as (_ & _ & _ & K1 & K2 & _).
  rewrite K1, K2. split; reflexivity.
Qed.

End Stored.


(** X13.  The value of a label may come from a later line: the
    whitespace skipped after the colon includes line feeds, so when
    nothing else follows the colon on its line, [extract_value] returns
    the next line that has text, whatever that line is. *)
Theorem extract_value_reads_next_line (label ws value tail : str) :
  Forall (fun c => isspace c = true) ws ->
  value <> [] ->
  Forall (fun c => not_nl c = true) value ->
  strip value = value ->
  match tail with [] => True | c :: _ => c = NL end ->
  extract_value (label ++ COLON :: ws ++ value ++ tail) label = value.
Proof.
  intros Hws Hne Hnl Hstrip Htail.
  destruct value as [|c t]; [contradiction|].
  pose proof (strip_fixed_head Hstrip) as Hc.
  inversion Hnl as [|? ? Hc_nl Ht_nl]; subst.
  unfold extract_value.
  rewrite (@search_here (value_re label) _ (Some (c :: t), tail));
    [cbn [group1]; exact Hstrip|].
  unfold re_match, value_re.
  rewrite m_seq, m_lit, startswith_by_ci_self, skipn_length_app.
  rewrite m_seq, m_chr_cons, N.eqb_refl.
  rewrite m_seq, m_star.
  apply star_chr_greedy; [lia|].
  rewrite (@dropwhile_app_all isspace ws ((c :: t) ++ tail) Hws Hc).
  change ((c :: t) ++ tail) with (c :: (t ++ tail)).
  cbn [m Plus]. rewrite Hc_nl.
  apply star_chr_greedy; [lia|].
  assert (Ht : match tail with [] => True | a :: _ => not_nl a = false end).
  { destruct tail as [|a tail']; [exact I|]. rewrite Htail. reflexivity. }
  rewrite (@dropwhile_app_all not_nl t tail Ht_nl Ht).
  do 3 f_equal.
  replace (length (c :: t ++ tail) - length tail) with (length (c :: t))
    by (cbn [length]; rewrite length_app; lia).
  apply (firstn_length_app (c :: t) tail).
Qed.

Lemma extract_value_reads_next_line_witness :
  extract_value
    (of_string "OPTIMIZED_TITLE:" ++ [NL; NL]
     ++ of_string "META_DESCRIPTION: Short" ++ [NL] ++ of_string "rest")
    (of_string "OPTIMIZED_TITLE")
  = of_string "META_DESCRIPTION: Short".
Proof.
  apply (@extract_value_reads_next_line
           (of_string "OPTIMIZED_TITLE") [NL; NL]
           (of_string "META_DESCRIPTION: Short") (NL :: of_string "rest")).
  - repeat constructor.
  - discriminate.
  - repeat constructor.
  - reflexivity.
  - reflexivity.
Defined.

(** X14.  The records of a finished run are filled: the review has at
    least one strength, one improvement and one priority fix, none of
    them empty, and the analysis has at least one primary keyword and a
    meta description that is not empty; so both footers carry a tag. *)
Theorem final_records_are_filled
        (rt : Runtime) (w : World) (fuel : nat) (topic : str) (N : Z)
        (final : Config) :
  generate_blog rt w fuel topic N = Some final ->
  exists (rf : ReviewFeedback) (sa : SEOAnalysis),
    review_feedback (state final) = Some rf
    /\ seo_analysis (state final) = Some sa
    /\ strengths rf <> []
    /\ improvements rf <> []
    /\ priority_fixes rf <> []
    /\ Forall (fun s => s <> [])
              (strengths rf ++ improvements rf ++ priority_fixes rf)
    /\ primary_keywords sa <> []
    /\ meta_description sa <> []
    /\ Main.footer_tags sa <> []
    /\ MediumFormatter.footer_tags (state final) <> [].
Proof.
  intros H.
  destruct (final_last_pass rt w fuel topic N H) as (E & L1 & _).
  destruct (pass_records rt w _ L1) as (e2 & e3 & s2 & s3 & R & A).
  rewrite <- E in R, A.
  eexists. eexists.
  split; [rewrite R; reflexivity|].
  split; [rewrite A; reflexivity|].
  cbn [strengths improvements priority_fixes primary_keywords
       meta_description].
  assert (Hn : forall a : str, (a :: nil) <> nil) by discriminate.
  split; [apply or_else_nonempty, Hn|].
  split; [apply or_else_nonempty, Hn|].
  split; [apply or_else_nonempty, Hn|].
  split.
  { assert (Hl : forall (label : str) (fb : str),
                 fb <> [] ->
                 Forall (fun s : str => s <> [])
                        (or_else (extract_list (llm_invoke w (llm_calls e2))
                                               label) [fb])).
    { intros label fb Hfb. apply or_else_Forall;
        [apply extract_list_items_nonempty
        |constructor; [exact Hfb|constructor]]. }
    apply Forall_app. split; [apply Hl; discriminate|].
    apply Forall_app. split; apply Hl; discriminate. }
  assert (Hp : or_else (extract_list (llm_invoke w (llm_calls e3))
                                     (of_string "PRIMARY_KEYWORDS"))
                       [str_lower rt (Models.topic s3)] <> [])
    by apply or_else_nonempty, Hn.
  split; [exact Hp|].
  split; [apply or_else_nonempty; discriminate|].
  assert (Hf : forall xs : list str, xs <> [] -> firstn 5 xs <> []).
  { intros [|x xs] Hx; [contradiction|discriminate]. }
  split; [apply Hf, Hp|].
  unfold MediumFormatter.footer_tags. rewrite A. apply Hf, Hp.
Qed.

Lemma final_records_are_filled_witness :
  exists (final : Config) (sa : SEOAnalysis),
    generate_blog ascii_runtime (constant_world (of_string "ok")) 5
                  (of_string "Example Topic") 1 = Some final
    /\ seo_analysis (state final) = Some sa
    /\ primary_keywords sa <> [].
Proof.
  assert (E : exists final,
             generate_blog ascii_runtime (constant_world (of_string "ok")) 5
                           (of_string "Example Topic") 1 = Some final)
    by (eexists; vm_compute; reflexivity).
  destruct E as (final & E).
  destruct (@final_records_are_filled ascii_runtime
              (constant_world (of_string "ok")) 5
              (of_string "Example Topic") 1 final E)
    as (rf & sa & _ & Hs & _ & _ & _ & _ & Hp & _).
  exists final, sa. split; [exact E|]. split; [exact Hs|exact Hp].
Defined.

(** X15.  The research a finished run carries is that of its first
    step, however many passes follow: the sources are those of the first
    search, and the synthesis and the five lists are read off the model's
    first reply. *)
Theorem research_is_from_first_reply
        (rt : Runtime) (w : World) (fuel : nat) (topic : str) (N : Z)
        (final : Config) :
  generate_blog rt w fuel topic N = Some final ->
  let reply := llm_invoke w 0 in
  exists rc : ResearchContext,
    research_context (state final) = Some rc
    /\ raw_sources rc = fst (perform_research w 0)
    /\ Models.search_engine rc = snd (perform_research w 0)
    /\ synthesis rc = reply
    /\ key_facts rc = extract_list reply (of_string "KEY_FACTS")
    /\ statistics rc = extract_list reply (of_string "STATISTICS")
    /\ best_practices rc = extract_list reply (of_string "BEST_PRACTICES")
    /\ recommended_topics rc
       = extract_list reply (of_string "RECOMMENDED_TOPICS")
    /\ key_sources rc = extract_list reply (of_string "KEY_SOURCES").
Proof.
  intros H reply.
  destruct (run_initial rt w topic N)
    as (I1 & _ & _ & _ & _ & _ & _ & _ & _ & _ & I11 & I12).
  assert (E : final = steps rt w (5 * S (Z.to_nat (N - 1)))
                            (start (create_initial_state topic N))).
  { eapply invoke_from_unique; [|exact I1|exact H].
    intros n Hn. apply (I11 n Hn). }
  destruct (I12 (5 * S (Z.to_nat (N - 1))) ltac:(lia)) as (_ & R).
  rewrite <- E in R. rewrite R.
  destruct (@step_stage rt w (start (create_initial_state topic N)))
    as (_ & S1 & _); [discriminate ..|].
  rewrite S1. eexists. split; [reflexivity|]. repeat split.
Qed.

Lemma research_is_from_first_reply_witness :
  exists (final : Config) (rc : ResearchContext),
    generate_blog ascii_runtime (constant_world (of_string "ok")) 10
                  (of_string "Example Topic") 2 = Some final
    /\ research_context (state final) = Some rc
    /\ synthesis rc = of_string "ok".
Proof.
  assert (E : exists final,
             generate_blog ascii_runtime (constant_world (of_string "ok")) 10
                           (of_string "Example Topic") 2 = Some final)
    by (eexists; vm_compute; reflexivity).
  destruct E as (final & E).
  destruct (@research_is_from_first_reply ascii_runtime
              (constant_world (of_string "ok")) 10
              (of_string "Example Topic") 2 final E)
    as (rc & Hs & _ & _ & Hy & _).
  exists final, rc. split; [exact E|]. split; [exact Hs|exact Hy].
Defined.

(* ================================================================== *)
(** * The title of a draft *)
(* ================================================================== *)

Lemma split_on_pieces (sep : char) (s : str) :
  Forall (fun l => Forall (fun c => (c =? sep)%N = false) l) (split_on sep s).
Proof.
  induction s as [|c s IH]; cbn [split_on].
  - repeat constructor.
  - destruct (c =? sep)%N eqn:E.
    + constructor; [constructor|exact IH].
    + destruct (split_on sep s) as [|l ls].
      * repeat constructor. exact E.
      * inversion IH as [|? ? Hl Hls]; subst.
        constructor; [constructor; [exact E|exact Hl]|exact Hls].
Qed.

Lemma startswith_skipn (p s : str) :
  startswith p s = true -> s = p ++ skipn (length p) s.
Proof.
  revert s. induction p as [|a p IH]; intros s H; [reflexivity|].
  destruct s as [|b s]; [discriminate|].
  cbn [startswith] in H. apply andb_prop in H. destruct H as (Hab & H).
  apply N.eqb_eq in Hab. subst b.
  cbn [length skipn app]. f_equal. apply IH. exact H.
Qed.

Lemma skipn_Forall (P : char -> Prop) (n : nat) (s : str) :
  Forall P s -> Forall P (skipn n s).
Proof.
  intros H. revert n. induction H as [|c s Hc Hs IH]; intros [|n];
    cbn [skipn]; try constructor; auto.
Qed.

(** The loop of [extract_title] returns at the first line that opens
    with a hash sign and a space. *)
Lemma first_heading_found (pre post : list str) (h : str) :
  Forall (fun l => startswith (of_string "# ") l = false) pre ->
  first_heading (pre ++ (of_string "# " ++ h) :: post) = Some (strip h).
Proof.
  induction 1 as [|l pre Hl Hpre IH]; cbn [app first_heading].
  - rewrite startswith_self.
    change (length (of_string "# ")) with 2. reflexivity.
  - rewrite Hl. exact IH.
Qed.

Lemma first_heading_none (ls : list str) :
  Forall (fun l => startswith (of_string "# ") l = false) ls ->
  first_heading ls = None.
Proof.
  induction 1 as [|l ls Hl Hls IH]; cbn [first_heading]; [reflexivity|].
  rewrite Hl. exact IH.
Qed.

Lemma first_heading_some (ls : list str) (t : str) :
  first_heading ls = Some t ->
  exists line, In line ls /\ t = strip (skipn 2 line).
Proof.
  induction ls as [|l ls IH]; cbn [first_heading]; [discriminate|].
  destruct (startswith (of_string "# ") l).
  - intros H. inversion H; subst. exists l. split; [left|]; reflexivity.
  - intros H. destruct (IH H) as (line & Hin & E).
    exists line. split; [right; exact Hin|exact E].
Qed.

(** X16.  The title of a draft is what follows the hash sign and the
    space on the first line that opens with them, without the whitespace
    around it; lines before it that open otherwise, deeper headings
    among them, are passed over.  A draft with no such line gets the
    fallback in title case.  Whitespace around the draft makes no
    difference, and a title read off the draft lies within one line and
    has no whitespace at either end (it may be empty). *)
Theorem extract_title_first_heading (rt : Runtime) (content fallback : str) :
  let ls := lines (strip content) in
  let other := fun l : str => startswith (of_string "# ") l = false in
  let t := extract_title rt content fallback in
  (forall (pre post : list str) (h : str),
      ls = pre ++ (of_string "# " ++ h) :: post ->
      Forall other pre -> t = strip h)
  /\ (Forall other ls -> t = str_title rt fallback)
  /\ extract_title rt (strip content) fallback = t
  /\ (t = str_title rt fallback
      \/ (strip t = t /\ Forall (fun c => not_nl c = true) t)).
Proof.
  intros ls other t. unfold t, extract_title. fold (lines (strip content)).
  fold ls.
  split.
  { intros pre post h E Hpre. rewrite E, first_heading_found by exact Hpre.
    reflexivity. }
  split.
  { intros H. rewrite (first_heading_none H). reflexivity. }
  split.
  { unfold strip at 1. rewrite strip_with_idempotent.
    fold (strip content). fold (lines (strip content)). reflexivity. }
  destruct (first_heading ls) as [x|] eqn:E; [right|left; reflexivity].
  destruct (first_heading_some _ E) as (line & Hin & ->).
  split; [apply strip_with_idempotent|].
  apply strip_with_keeps, skipn_Forall.
  pose proof (split_on_pieces NL (strip content)) as Hp.
  rewrite Forall_forall in Hp. specialize (Hp line Hin).
  eapply Forall_impl; [|exact Hp].
  intros c Hc. unfold not_nl. rewrite Hc. reflexivity.
Qed.

(* ================================================================== *)
(** * Cleaning the draft *)
(* ================================================================== *)

(** Whatever a pattern matches, the rest of the pattern goes on from a
    suffix of the input. *)
Lemma star_loop_suffix (R : Type) (body : str -> option str -> cont R -> option R)
      (k : cont R) (x : R) :
  (forall s g k', body s g k' = Some x ->
                  exists pre s' g', s = pre ++ s' /\ k' s' g' = Some x) ->
  forall (n : nat) (s : str) (g : option str),
    star_loop body k n s g = Some x ->
    exists pre s' g', s = pre ++ s' /\ k s' g' = Some x.
Proof.
  intros Hbody. induction n as [|n IH]; intros s g H; cbn [star_loop] in H.
  - exists [], s, g. split; [reflexivity|exact H].
  - destruct (body s g _) as [y|] eqn:E.
    + inversion H; subst y.
      apply Hbody in E. destruct E as (pre & s' & g' & -> & E).
      destruct (length s' <? length (pre ++ s')); [|discriminate].
      apply IH in E. destruct E as (pre2 & s2 & g2 & -> & E).
      exists (pre ++ pre2), s2, g2. rewrite app_assoc. split; [reflexivity|exact E].
    + exists [], s, g. split; [reflexivity|exact H].
Qed.

Lemma m_suffix (R : Type) (x : R) (r : regex) :
  forall (s : str) (g : option str) (k : cont R),
    m r s g k = Some x ->
    exists pre s' g', s = pre ++ s' /\ k s' g' = Some x.
Proof.
  induction r as [|p|r1 IH1 r2 IH2|r1 IH1|r1 IH1|r1 IH1]; intros s g k H;
    cbn [m] in H.
  - exists [], s, g. split; [reflexivity|exact H].
  - destruct s as [|c s']; [discriminate|].
    destruct (p c); [|discriminate].
    exists [c], s', g. split; [reflexivity|exact H].
  - apply IH1 in H. destruct H as (pre1 & s1 & g1 & -> & H).
    apply IH2 in H. destruct H as (pre2 & s2 & g2 & -> & H).
    exists (pre1 ++ pre2), s2, g2. rewrite app_assoc. split; [reflexivity|exact H].
  - destruct (m r1 s g k) as [y|] eqn:E.
    + inversion H; subst y. apply IH1 in E. exact E.
    + exists [], s, g. split; [reflexivity|exact H].
  - eapply star_loop_suffix; [|exact H].
    intros s0 g0 k' H0. apply IH1 in H0. exact H0.
  - apply IH1 in H. destruct H as (pre & s' & g' & -> & H).
    exists pre, s'. eexists. split; [reflexivity|exact H].
Qed.

Lemma m_grp (R : Type) (r : regex) (s : str) (g : option str) (k : cont R) :
  m (Grp r) s g k
  = m r s g (fun s' _ => k s' (Some (firstn (length s - length s') s))).
Proof. reflexivity. Qed.

Lemma firstn_app_sub (pre s : str) :
  firstn (length (pre ++ s) - length s) (pre ++ s) = pre.
Proof.
  replace (length (pre ++ s) - length s) with (length pre)
    by (rewrite length_app; lia).
  apply firstn_length_app.
Qed.

(** The text of a group and what follows it. *)
Lemma m_grp_inv (R : Type) (x : R) (r : regex) (s : str) (g : option str)
      (k : cont R) :
  m (Grp r) s g k = Some x ->
  exists pre s', s = pre ++ s' /\ k s' (Some pre) = Some x.
Proof.
  rewrite m_grp. intros H. apply m_suffix in H.
  destruct H as (pre & s' & _ & -> & H). rewrite firstn_app_sub in H.
  exists pre, s'. split; [reflexivity|exact H].
Qed.

Lemma m_chr_nil (R : Type) (p : char -> bool) (g : option str) (k : cont R) :
  m (Chr p) [] g k = None.
Proof. reflexivity. Qed.

Lemma group_of_one (c : char) (s : str) :
  firstn (length (c :: s) - length s) (c :: s) = [c].
Proof. apply (firstn_app_sub [c] s). Qed.

(** ** What the five patterns match *)

Section Matchers.
Variable word : char -> bool.

Lemma fence_at_inv (s repl rest : str) :
  Clean.fence_at word s = Some (repl, rest) ->
  s = repl ++ rest /\ repl <> [].
Proof.
  unfold Clean.fence_at, re_match, Clean.fence_re.
  rewrite m_seq, m_lit, startswith_by_eqb.
  destruct (startswith (of_string "```") s) eqn:Es; [|discriminate].
  apply startswith_skipn in Es.
  remember (skipn (length (of_string "```")) s) as t eqn:Et0. clear Et0.
  rewrite m_seq.
  destruct (m (Grp (Plus (Chr word))) t None _) as [[g r]|] eqn:E;
    [|discriminate].
  intros H. inversion H as [[Hrepl Hrest]]. clear H.
  apply m_grp_inv in E. destruct E as (pre & s' & Et & E).
  unfold Clean.nl in E. destruct s' as [|c s']; [discriminate|].
  rewrite m_chr_cons in E. destruct (N.eqb_spec NL c) as [<-|]; [|discriminate].
  inversion E as [[Hg Hr]]. clear E.
  split; [|discriminate].
  rewrite Es, Et, <- Hrest, <- Hr.
  change (of_string "```") with [96%N; 96%N; 96%N]. cbn [group1 app].
  rewrite <- app_assoc. reflexivity.
Qed.

Lemma pipe_at_hit (rest : str) :
  Clean.pipe_at (NL :: PIPE :: rest) = Some ([NL; NL; PIPE], rest).
Proof.
  unfold Clean.pipe_at, re_match, Clean.pipe_re, Clean.nl, Clean.pipe.
  rewrite m_seq, m_chr_cons, N.eqb_refl, m_grp, m_chr_cons, N.eqb_refl.
  rewrite group_of_one. reflexivity.
Qed.

Lemma pipe_at_inv (s repl rest : str) :
  Clean.pipe_at s = Some (repl, rest) ->
  s = NL :: PIPE :: rest /\ repl = [NL; NL; PIPE].
Proof.
  unfold Clean.pipe_at, re_match, Clean.pipe_re, Clean.nl, Clean.pipe.
  rewrite m_seq. destruct s as [|a [|b s2]].
  - rewrite m_chr_nil. discriminate.
  - rewrite m_chr_cons. destruct (NL =? a)%N; [|discriminate].
    rewrite m_grp, m_chr_nil. discriminate.
  - rewrite m_chr_cons. destruct (N.eqb_spec NL a) as [<-|]; [|discriminate].
    rewrite m_grp, m_chr_cons.
    destruct (N.eqb_spec PIPE b) as [<-|]; [|discriminate].
    rewrite group_of_one. intros H. inversion H; subst. split; reflexivity.
Qed.

Lemma row_end_at_inv (s repl rest : str) :
  Clean.row_end_at s = Some (repl, rest) ->
  s = PIPE :: NL :: rest /\ repl = [PIPE; NL; NL].
Proof.
  unfold Clean.row_end_at, re_match at 1, Clean.row_end_re, Clean.nl, Clean.pipe.
  rewrite m_seq, m_grp. destruct s as [|a [|b s2]].
  - rewrite m_chr_nil. discriminate.
  - rewrite m_chr_cons. destruct (PIPE =? a)%N; [|discriminate].
    rewrite m_chr_nil. discriminate.
  - rewrite m_chr_cons. destruct (N.eqb_spec PIPE a) as [<-|]; [|discriminate].
    rewrite m_chr_cons. destruct (N.eqb_spec NL b) as [<-|]; [|discriminate].
    change (length (PIPE :: NL :: s2) - length (NL :: s2))
      with (length (PIPE :: (NL :: s2)) - length (NL :: s2)).
    rewrite (group_of_one PIPE (NL :: s2)).
    destruct (re_match _ s2); [discriminate|].
    intros H. inversion H; subst. split; reflexivity.
Qed.

Lemma newlines_at_hit (t : str) :
  Clean.newlines_at (NL :: NL :: NL :: NL :: t)
  = Some ([NL; NL; NL], dropwhile (N.eqb NL) t).
Proof.
  unfold Clean.newlines_at, re_match, Clean.newlines_re, Clean.nl.
  do 4 (rewrite m_seq, m_chr_cons, N.eqb_refl). rewrite m_star.
  rewrite (@star_chr_greedy _ (N.eqb NL) _ (None, dropwhile (N.eqb NL) t));
    [reflexivity|lia|reflexivity].
Qed.

Lemma newlines_at_inv (s repl rest : str) :
  Clean.newlines_at s = Some (repl, rest) ->
  exists t, s = NL :: NL :: NL :: NL :: t
            /\ repl = [NL; NL; NL] /\ rest = dropwhile (N.eqb NL) t.
Proof.
  intros H.
  assert (Hs : exists t, s = NL :: NL :: NL :: NL :: t).
  { unfold Clean.newlines_at, re_match, Clean.newlines_re, Clean.nl in H.
    rewrite m_seq in H. destruct s as [|a s1]; [discriminate|].
    rewrite m_chr_cons in H.
    destruct (N.eqb_spec NL a) as [<-|]; [|discriminate].
    rewrite m_seq in H. destruct s1 as [|b s2]; [discriminate|].
    rewrite m_chr_cons in H.
    destruct (N.eqb_spec NL b) as [<-|]; [|discriminate].
    rewrite m_seq in H. destruct s2 as [|c s3]; [discriminate|].
    rewrite m_chr_cons in H.
    destruct (N.eqb_spec NL c) as [<-|]; [|discriminate].
    rewrite m_seq in H. destruct s3 as [|d s4]; [discriminate|].
    rewrite m_chr_cons in H.
    destruct (N.eqb_spec NL d) as [<-|]; [|discriminate].
    exists s4. reflexivity. }
  destruct Hs as (t & ->). rewrite newlines_at_hit in H.
  inversion H; subst. exists t. repeat split.
Qed.

Lemma heading_at_inv (s repl rest : str) :
  Clean.heading_at s = Some (repl, rest) ->
  exists (c : char) (tail : str),
    not_nl c = true
    /\ s = c :: NL :: Clean.HASH :: tail ++ rest
    /\ repl = c :: NL :: NL :: Clean.HASH :: tail.
Proof.
  unfold Clean.heading_at. destruct s as [|c s1]; [discriminate|].
  destruct (re_match Clean.heading_re (c :: s1)) as [[g r]|] eqn:E;
    [|discriminate].
  intros H. inversion H; subst; clear H.
  unfold re_match, Clean.heading_re, Clean.nl in E.
  rewrite m_seq, m_chr_cons in E.
  destruct (not_nl c) eqn:Ec; [|discriminate].
  rewrite m_seq in E. destruct s1 as [|b s2]; [discriminate|].
  rewrite m_chr_cons in E.
  destruct (N.eqb_spec NL b) as [<-|]; [|discriminate].
  rewrite m_grp in E. unfold Clean.hashes at 1, Clean.hash at 1 in E.
  rewrite !m_seq in E. destruct s2 as [|h s3]; [discriminate|].
  rewrite m_chr_cons in E.
  destruct (N.eqb_spec Clean.HASH h) as [<-|]; [|discriminate].
  apply m_suffix in E. destruct E as (pre & s' & g' & -> & E).
  destruct s' as [|ws s'']; [discriminate|].
  rewrite m_chr_cons in E. destruct (isspace ws); [|discriminate].
  assert (Eg : firstn (length (Clean.HASH :: pre ++ ws :: s'') - length s'')
                      (Clean.HASH :: pre ++ ws :: s'')
               = Clean.HASH :: pre ++ [ws]).
  { pose proof (firstn_app_sub (Clean.HASH :: pre ++ [ws]) s'') as F.
    cbn [app] in F. rewrite <- app_assoc in F. cbn [app] in F. exact F. }
  rewrite Eg in E. inversion E; subst; clear E.
  exists c, (pre ++ [ws]). split; [exact Ec|].
  rewrite <- app_assoc. split; reflexivity.
Qed.

End Matchers.

(** ** Substitution, one match at a time *)

Section SubWith.
Variable at_start : str -> option (str * str).
Hypothesis consumes :
  forall s repl rest, at_start s = Some (repl, rest) -> length rest < length s.
Variable P : str -> str -> Prop.
Hypothesis P_nil : P [] [].
Hypothesis P_copy :
  forall c s out, at_start (c :: s) = None -> P s out -> P (c :: s) (c :: out).
Hypothesis P_match :
  forall s repl rest out,
    at_start s = Some (repl, rest) -> P rest out -> P s (repl ++ out).

Lemma sub_with_fuel_rel (n : nat) :
  forall s : str, length s < n -> P s (Clean.sub_with_fuel n at_start s).
Proof.
  induction n as [|n IH]; intros s Hs; [lia|].
  cbn [Clean.sub_with_fuel].
  destruct (at_start s) as [[repl rest]|] eqn:E.
  - pose proof E as Hc. apply consumes in Hc.
    replace (length rest <? length s) with true
      by (symmetry; apply Nat.ltb_lt; exact Hc).
    eapply P_match; [exact E|]. apply IH. lia.
  - destruct s as [|c s']; [exact P_nil|].
    apply P_copy; [exact E|]. apply IH. cbn [length] in Hs. lia.
Qed.

Lemma sub_with_rel (s : str) : P s (Clean.sub_with at_start s).
Proof. apply sub_with_fuel_rel. lia. Qed.
End SubWith.

Section Consumes.
Variable word : char -> bool.

Lemma fence_at_consumes (s repl rest : str) :
  Clean.fence_at word s = Some (repl, rest) -> length rest < length s.
Proof.
  intros H. apply fence_at_inv in H. destruct H as (-> & Hr).
  rewrite length_app. destruct repl; [contradiction|cbn [length]; lia].
Qed.

Lemma pipe_at_consumes (s repl rest : str) :
  Clean.pipe_at s = Some (repl, rest) -> length rest < length s.
Proof.
  intros H. apply pipe_at_inv in H. destruct H as (-> & _). cbn [length]. lia.
Qed.

Lemma row_end_at_consumes (s repl rest : str) :
  Clean.row_end_at s = Some (repl, rest) -> length rest < length s.
Proof.
  intros H. apply row_end_at_inv in H. destruct H as (-> & _).
  cbn [length]. lia.
Qed.

Lemma newlines_at_consumes (s repl rest : str) :
  Clean.newlines_at s = Some (repl, rest) -> length rest < length s.
Proof.
  intros H. apply newlines_at_inv in H. destruct H as (t & -> & _ & ->).
  pose proof (dropwhile_length (N.eqb NL) t). cbn [length]. lia.
Qed.

Lemma heading_at_consumes (s repl rest : str) :
  Clean.heading_at s = Some (repl, rest) -> length rest < length s.
Proof.
  intros H. apply heading_at_inv in H. destruct H as (c & tail & _ & -> & _).
  cbn [length]. rewrite length_app. lia.
Qed.

(** The first substitution puts back what it takes out. *)
Lemma sub_fence_same (s : str) : Clean.sub_with (Clean.fence_at word) s = s.
Proof.
  apply (@sub_with_rel (Clean.fence_at word) fence_at_consumes
                       (fun s out => out = s)).
  - reflexivity.
  - intros c s0 out _ ->. reflexivity.
  - intros s0 repl rest out H ->. apply fence_at_inv in H.
    destruct H as (-> & _). reflexivity.
Qed.

End Consumes.

(** X17.  The first substitution of the cleaning changes nothing, on
    any text: its template writes back the three backticks, the word and
    the line feed it matched.  So the cleaned draft does not depend on
    which characters count as word characters. *)
Theorem clean_content_fence_substitution_is_noop
        (word : char -> bool) (content : str) :
  (forall s, Clean.sub_with (Clean.fence_at word) s = s)
  /\ (forall word' : char -> bool,
         Clean._clean_content word' content
         = Clean._clean_content word content).
Proof.
  split; [apply sub_fence_same|].
  intros word'. unfold Clean._clean_content. cbv zeta.
  rewrite !sub_fence_same. reflexivity.
Qed.

(** ** The text is kept *)

Lemma text_of_app (a b : str) : text_of (a ++ b) = text_of a ++ text_of b.
Proof. apply filter_app. Qed.

Lemma text_of_dropwhile_nl (t : str) :
  text_of (dropwhile (N.eqb NL) t) = text_of t.
Proof.
  induction t as [|c t IH]; [reflexivity|].
  cbn [dropwhile]. destruct (N.eqb_spec NL c) as [<-|Hc]; [exact IH|reflexivity].
Qed.

(** A substitution whose matches and replacements have the same text
    keeps the text. *)
Lemma sub_with_keeps_text (at_start : str -> option (str * str)) :
  (forall s repl rest,
      at_start s = Some (repl, rest) ->
      length rest < length s
      /\ text_of s = text_of repl ++ text_of rest) ->
  forall s, text_of (Clean.sub_with at_start s) = text_of s.
Proof.
  intros H s.
  apply (@sub_with_rel at_start (fun s r t E => proj1 (H s r t E))
                       (fun s out => text_of out = text_of s)).
  - reflexivity.
  - intros c s0 out _ E. unfold text_of in *. cbn [filter]. rewrite E.
    reflexivity.
  - intros s0 repl rest out E Eo. destruct (H _ _ _ E) as (_ & ->).
    rewrite text_of_app, Eo. reflexivity.
Qed.

(** Cleaning only moves line feeds. *)
Lemma clean_keeps_text (word : char -> bool) (content : str) :
  text_of (Clean._clean_content word content) = text_of (strip content).
Proof.
  unfold Clean._clean_content. cbv zeta.
  rewrite sub_fence_same.
  rewrite (@sub_with_keeps_text Clean.heading_at).
  2:{ intros s repl rest H. split; [eapply heading_at_consumes; exact H|].
      apply heading_at_inv in H. destruct H as (c & tail & Hc & -> & ->).
      unfold text_of. cbn [filter app]. rewrite Hc.
      change (not_nl NL) with false. cbv iota.
      change (not_nl Clean.HASH) with true. cbv iota.
      cbn [app]. rewrite filter_app. reflexivity. }
  rewrite (@sub_with_keeps_text Clean.newlines_at).
  2:{ intros s repl rest H. split; [eapply newlines_at_consumes; exact H|].
      apply newlines_at_inv in H. destruct H as (t & -> & -> & ->).
      rewrite text_of_dropwhile_nl. reflexivity. }
  rewrite (@sub_with_keeps_text Clean.row_end_at).
  2:{ intros s repl rest H. split; [eapply row_end_at_consumes; exact H|].
      apply row_end_at_inv in H. destruct H as (-> & ->). reflexivity. }
  rewrite (@sub_with_keeps_text Clean.pipe_at).
  2:{ intros s repl rest H. split; [eapply pipe_at_consumes; exact H|].
      apply pipe_at_inv in H. destruct H as (-> & ->). reflexivity. }
  reflexivity.
Qed.

(** ** Table rows end up apart *)

Lemma apart_NL (q : nat) (t : str) :
  apart q (NL :: t) = apart (match q with O => 1 | _ => 2 end) t.
Proof. reflexivity. Qed.

Lemma apart_NL_NL (q : nat) (t : str) :
  apart q (NL :: NL :: t) = apart 2 t.
Proof. destruct q; reflexivity. Qed.

Lemma apart_2_NL (t : str) : apart 2 (NL :: t) = apart 2 t.
Proof. reflexivity. Qed.

Lemma apart_0_NL (t : str) : apart 0 (NL :: t) = apart 1 t.
Proof. reflexivity. Qed.

Lemma apart_PIPE (q : nat) (t : str) :
  apart q (PIPE :: t) = negb (q =? 1) && apart 0 t.
Proof. reflexivity. Qed.

Lemma apart_HASH (q : nat) (t : str) : apart q (Clean.HASH :: t) = apart 0 t.
Proof. reflexivity. Qed.

Lemma apart_not_nl (q : nat) (c : char) (t : str) :
  not_nl c = true ->
  apart q (c :: t)
  = (if (c =? PIPE)%N then negb (q =? 1) else true) && apart 0 t.
Proof.
  intros H. cbn [apart]. unfold after. unfold not_nl in H.
  destruct (c =? NL)%N; [discriminate|reflexivity].
Qed.

Lemma apart_1_2 (s : str) : apart 1 s = true -> apart 2 s = true.
Proof.
  destruct s as [|c s]; [reflexivity|]. cbn [apart].
  unfold after. destruct (c =? PIPE)%N; [discriminate|].
  destruct (c =? NL)%N; intros H; exact H.
Qed.

Lemma apart_2_dropwhile (t : str) :
  apart 2 t = apart 2 (dropwhile (N.eqb NL) t).
Proof.
  induction t as [|c t IH]; [reflexivity|].
  cbn [dropwhile]. destruct (N.eqb_spec NL c) as [<-|Hc]; [|reflexivity].
  rewrite apart_NL. exact IH.
Qed.

Lemma apart_app_mono (a b : str) :
  (forall q, apart q a = true -> apart q b = true) ->
  forall (t : str) (q : nat), apart q (t ++ a) = true -> apart q (t ++ b) = true.
Proof.
  intros H. induction t as [|c t IH]; intros q; [apply H|].
  cbn [app apart]. intros E. apply andb_prop in E. destruct E as (E1 & E2).
  rewrite E1. apply IH. exact E2.
Qed.

(** What the automaton accepts has its rows apart. *)
Lemma apart_at (pre post : str) :
  forall q : nat,
    apart q (pre ++ NL :: PIPE :: post) = true ->
    (pre = [] /\ q <> 0) \/ exists pre', pre = pre' ++ [NL].
Proof.
  induction pre as [|c pre IH]; intros q H.
  - left. split; [reflexivity|]. intros ->.
    cbn [app] in H. rewrite apart_NL, apart_PIPE in H. discriminate.
  - right. cbn [app apart] in H. apply andb_prop in H. destruct H as (_ & H).
    destruct (IH _ H) as [(-> & Hq)|(pre' & ->)].
    + exists []. cbn [app]. f_equal. unfold after in Hq.
      destruct (N.eqb_spec c NL) as [->|]; [reflexivity|contradiction].
    + exists (c :: pre'). reflexivity.
Qed.

Lemma apart_rows_apart (s : str) : apart 0 s = true -> rows_apart s.
Proof.
  intros H pre post ->. destruct (apart_at _ _ _ H) as [(_ & Hq)|Hp];
    [contradiction|exact Hp].
Qed.

(** The second substitution sets the rows apart. *)
Lemma sub_pipe_apart (s : str) (q : nat) :
  (q = 1 -> match s with c :: _ => (c =? PIPE)%N = false | [] => True end) ->
  apart q (Clean.sub_with Clean.pipe_at s) = true.
Proof.
  revert q.
  apply (@sub_with_rel Clean.pipe_at pipe_at_consumes
           (fun s out =>
              forall q,
                (q = 1 -> match s with
                          | c :: _ => (c =? PIPE)%N = false
                          | [] => True
                          end) ->
                apart q out = true)).
  - reflexivity.
  - intros c s0 out E IH q Hq. cbn [apart]. apply andb_true_intro. split.
    + destruct (c =? PIPE)%N eqn:Ec; [|reflexivity].
      destruct (Nat.eqb_spec q 1) as [->|]; [|reflexivity].
      specialize (Hq eq_refl). discriminate.
    + apply IH. unfold after. intros Ha.
      destruct (N.eqb_spec c NL) as [->|]; [|discriminate].
      destruct s0 as [|b s1]; [exact I|].
      destruct (N.eqb_spec b PIPE) as [->|]; [|reflexivity].
      rewrite pipe_at_hit in E. discriminate.
  - intros s0 repl rest out E IH q _.
    apply pipe_at_inv in E. destruct E as (-> & ->).
    cbn [app]. rewrite apart_NL_NL, apart_PIPE.
    cbn [Nat.eqb negb andb]. apply IH. discriminate.
Qed.

(** The later substitutions leave them apart. *)
Lemma sub_row_end_apart (s : str) (q : nat) :
  apart q s = true -> apart q (Clean.sub_with Clean.row_end_at s) = true.
Proof.
  revert q.
  apply (@sub_with_rel Clean.row_end_at row_end_at_consumes
           (fun s out => forall q, apart q s = true -> apart q out = true)).
  - reflexivity.
  - intros c s0 out _ IH q H. cbn [apart] in *.
    apply andb_prop in H. destruct H as (H1 & H2).
    rewrite H1. apply IH. exact H2.
  - intros s0 repl rest out E IH q H.
    apply row_end_at_inv in E. destruct E as (-> & ->).
    cbn [app]. rewrite apart_PIPE in *.
    apply andb_prop in H. destruct H as (H1 & H2). rewrite H1.
    rewrite apart_0_NL in H2. rewrite apart_NL_NL. cbn [andb].
    apply IH, apart_1_2, H2.
Qed.

Lemma sub_newlines_apart (s : str) (q : nat) :
  apart q s = true -> apart q (Clean.sub_with Clean.newlines_at s) = true.
Proof.
  revert q.
  apply (@sub_with_rel Clean.newlines_at newlines_at_consumes
           (fun s out => forall q, apart q s = true -> apart q out = true)).
  - reflexivity.
  - intros c s0 out _ IH q H. cbn [apart] in *.
    apply andb_prop in H. destruct H as (H1 & H2).
    rewrite H1. apply IH. exact H2.
  - intros s0 repl rest out E IH q H.
    apply newlines_at_inv in E. destruct E as (t & -> & -> & ->).
    cbn [app]. rewrite !apart_NL_NL in H.
    rewrite apart_NL_NL, apart_2_NL.
    apply IH. rewrite <- apart_2_dropwhile. exact H.
Qed.

Lemma sub_heading_apart (s : str) (q : nat) :
  apart q s = true -> apart q (Clean.sub_with Clean.heading_at s) = true.
Proof.
  revert q.
  apply (@sub_with_rel Clean.heading_at heading_at_consumes
           (fun s out => forall q, apart q s = true -> apart q out = true)).
  - reflexivity.
  - intros c s0 out _ IH q H. cbn [apart] in *.
    apply andb_prop in H. destruct H as (H1 & H2).
    rewrite H1. apply IH. exact H2.
  - intros s0 repl rest out E IH q H.
    apply heading_at_inv in E. destruct E as (c & tail & Hc & -> & ->).
    cbn [app]. rewrite !(@apart_not_nl _ c _ Hc) in *.
    apply andb_prop in H. destruct H as (H1 & H2). rewrite H1.
    rewrite apart_0_NL, apart_HASH in H2.
    rewrite apart_NL_NL, apart_HASH. cbn [andb].
    apply (@apart_app_mono rest out IH). exact H2.
Qed.

(** X18.  In the cleaned draft every pipe that opens a line comes
    after an empty line: no two rows of a table are left on adjacent
    lines. *)
Theorem clean_content_sets_rows_apart (word : char -> bool) (content : str) :
  rows_apart (Clean._clean_content word content).
Proof.
  apply apart_rows_apart. unfold Clean._clean_content. cbv zeta.
  apply sub_heading_apart, sub_newlines_apart, sub_row_end_apart,
    sub_pipe_apart.
  discriminate.
Qed.

(** ** No long runs of line feeds *)

Lemma runs_NL (r : nat) (t : str) :
  runs_below_four r (NL :: t) = (r <? 3) && runs_below_four (S r) t.
Proof. reflexivity. Qed.

Lemma runs_not_nl (r : nat) (c : char) (t : str) :
  not_nl c = true -> runs_below_four r (c :: t) = runs_below_four 0 t.
Proof.
  intros H. cbn [runs_below_four]. unfold not_nl in H.
  destruct (c =? NL)%N; [discriminate|reflexivity].
Qed.

Lemma runs_app_mono (a b : str) :
  (forall r, runs_below_four r a = true -> runs_below_four r b = true) ->
  forall (t : str) (r : nat),
    runs_below_four r (t ++ a) = true -> runs_below_four r (t ++ b) = true.
Proof.
  intros H. induction t as [|c t IH]; intros r; [apply H|].
  cbn [app runs_below_four]. destruct (c =? NL)%N.
  - intros E. apply andb_prop in E. destruct E as (E1 & E2).
    rewrite E1. apply IH. exact E2.
  - apply IH.
Qed.

Lemma runs_short (pre post : str) :
  forall r : nat,
    runs_below_four r (pre ++ [NL; NL; NL; NL] ++ post) = false.
Proof.
  induction pre as [|c pre IH]; intros r.
  - cbn [app]. rewrite !runs_NL.
    destruct r as [|[|[|r]]]; reflexivity.
  - cbn [app runs_below_four]. destruct (c =? NL)%N; rewrite IH;
      [apply andb_false_r|reflexivity].
Qed.

Lemma runs_short_runs (s : str) : runs_below_four 0 s = true -> short_runs s.
Proof. intros H pre post ->. rewrite runs_short in H. discriminate. Qed.

Lemma lead_dropwhile (t : str) : lead (dropwhile (N.eqb NL) t) = 0.
Proof.
  induction t as [|c t IH]; [reflexivity|].
  cbn [dropwhile]. destruct (N.eqb_spec NL c) as [<-|Hc]; [exact IH|].
  cbn [lead]. destruct (N.eqb_spec c NL) as [->|]; [contradiction|reflexivity].
Qed.

(** The fourth substitution cuts the runs. *)
Lemma sub_newlines_runs (s : str) (r : nat) :
  r = 0 \/ r + lead s <= 3 ->
  runs_below_four r (Clean.sub_with Clean.newlines_at s) = true.
Proof.
  revert r.
  apply (@sub_with_rel Clean.newlines_at newlines_at_consumes
           (fun s out =>
              forall r, r = 0 \/ r + lead s <= 3 ->
                        runs_below_four r out = true)).
  - reflexivity.
  - intros c s0 out E IH r Hr.
    assert (Hl : lead (c :: s0) <= 3).
    { destruct (le_gt_dec (lead (c :: s0)) 3) as [Hle|Hgt]; [exact Hle|].
      exfalso. cbn [lead] in Hgt.
      destruct (N.eqb_spec c NL) as [->|]; [|lia].
      destruct s0 as [|c1 s1]; [cbn [lead] in Hgt; lia|]. cbn [lead] in Hgt.
      destruct (N.eqb_spec c1 NL) as [->|]; [|lia].
      destruct s1 as [|c2 s2]; [cbn [lead] in Hgt; lia|]. cbn [lead] in Hgt.
      destruct (N.eqb_spec c2 NL) as [->|]; [|lia].
      destruct s2 as [|c3 s3]; [cbn [lead] in Hgt; lia|]. cbn [lead] in Hgt.
      destruct (N.eqb_spec c3 NL) as [->|]; [|lia].
      rewrite newlines_at_hit in E. discriminate. }
    cbn [runs_below_four]. cbn [lead] in Hl, Hr.
    destruct (c =? NL)%N.
    + apply andb_true_intro. split; [apply Nat.ltb_lt; lia|].
      apply IH. right. lia.
    + apply IH. left. reflexivity.
  - intros s0 repl rest out E IH r Hr.
    apply newlines_at_inv in E. destruct E as (t & -> & -> & ->).
    assert (r = 0) as -> by (cbn in Hr; lia).
    cbn [app]. rewrite !runs_NL. cbn [Nat.ltb Nat.leb andb].
    apply IH. right. rewrite lead_dropwhile. lia.
Qed.

Lemma sub_heading_runs (s : str) (r : nat) :
  runs_below_four r s = true ->
  runs_below_four r (Clean.sub_with Clean.heading_at s) = true.
Proof.
  revert r.
  apply (@sub_with_rel Clean.heading_at heading_at_consumes
           (fun s out =>
              forall r, runs_below_four r s = true ->
                        runs_below_four r out = true)).
  - reflexivity.
  - intros c s0 out _ IH r H. cbn [runs_below_four] in *.
    destruct (c =? NL)%N.
    + apply andb_prop in H. destruct H as (H1 & H2).
      rewrite H1. apply IH. exact H2.
    + apply IH. exact H.
  - intros s0 repl rest out E IH r H.
    apply heading_at_inv in E. destruct E as (c & tail & Hc & -> & ->).
    cbn [app]. rewrite !(@runs_not_nl _ c _ Hc) in *.
    rewrite !runs_NL in *. cbn [Nat.ltb Nat.leb andb] in *.
    rewrite (@runs_not_nl _ Clean.HASH) in * by reflexivity.
    apply (@runs_app_mono rest out IH). exact H.
Qed.

(** X19.  The cleaned draft never has four line feeds in a row. *)
Theorem clean_content_has_short_runs (word : char -> bool) (content : str) :
  short_runs (Clean._clean_content word content).
Proof.
  apply runs_short_runs. unfold Clean._clean_content. cbv zeta.
  apply sub_heading_runs, sub_newlines_runs. left. reflexivity.
Qed.

Example clean_content_table_ex :
  Clean._clean_content ascii_word
    (of_string "| a |" ++ [NL] ++ of_string "| b |" ++ [NL] ++ of_string "end")
  = of_string "| a |" ++ [NL; NL; NL] ++ of_string "| b |" ++ [NL; NL]
    ++ of_string "end".
Proof. vm_compute. reflexivity. Qed.

Example clean_content_heading_ex :
  Clean._clean_content ascii_word
    (of_string "intro" ++ [NL] ++ of_string "## Part" ++ [NL; NL; NL; NL; NL]
     ++ of_string "text")
  = of_string "intro" ++ [NL; NL] ++ of_string "## Part" ++ [NL; NL; NL]
    ++ of_string "text".
Proof. vm_compute. reflexivity. Qed.

(* ================================================================== *)
(** * Cleaning changes the runs of line feeds only *)
(* ================================================================== *)

Lemma squeeze_NL_NL (t : str) : squeeze (NL :: NL :: t) = squeeze (NL :: t).
Proof. reflexivity. Qed.

Lemma squeeze_not_nl (c : char) (t : str) :
  not_nl c = true -> squeeze (c :: t) = c :: squeeze t.
Proof.
  intros H. cbn [squeeze]. unfold not_nl in H.
  destruct (c =? NL)%N; [discriminate|reflexivity].
Qed.

Lemma starts_nl_squeeze (s : str) : starts_nl (squeeze s) = starts_nl s.
Proof.
  induction s as [|c s IH]; [reflexivity|].
  cbn [squeeze]. destruct (N.eqb_spec c NL) as [->|Hc]; cbn [andb].
  - destruct (starts_nl s) eqn:E; [rewrite IH; reflexivity|reflexivity].
  - cbn [starts_nl]. destruct (N.eqb_spec c NL); [contradiction|reflexivity].
Qed.

(** Two texts with the same squeeze stay so behind a common character. *)
Lemma squeeze_cons (c : char) (a b : str) :
  squeeze a = squeeze b -> squeeze (c :: a) = squeeze (c :: b).
Proof.
  intros H. cbn [squeeze].
  rewrite <- (starts_nl_squeeze a), <- (starts_nl_squeeze b), H.
  destruct ((c =? NL)%N && starts_nl (squeeze b)); reflexivity.
Qed.

Lemma squeeze_app (t a b : str) :
  squeeze a = squeeze b -> squeeze (t ++ a) = squeeze (t ++ b).
Proof.
  intros H. induction t as [|c t IH]; [exact H|].
  cbn [app]. apply squeeze_cons, IH.
Qed.

Lemma squeeze_NL_dropwhile (t : str) :
  squeeze (NL :: dropwhile (N.eqb NL) t) = squeeze (NL :: t).
Proof.
  induction t as [|c t IH]; [reflexivity|].
  cbn [dropwhile]. destruct (N.eqb_spec NL c) as [<-|Hc]; [|reflexivity].
  rewrite squeeze_NL_NL. exact IH.
Qed.

(** A substitution whose matches and replacements have the same squeeze
    before any text keeps the squeeze. *)
Lemma sub_with_keeps_squeeze (at_start : str -> option (str * str)) :
  (forall s repl rest,
      at_start s = Some (repl, rest) ->
      length rest < length s
      /\ forall out, squeeze out = squeeze rest ->
                     squeeze (repl ++ out) = squeeze s) ->
  forall s, squeeze (Clean.sub_with at_start s) = squeeze s.
Proof.
  intros H s.
  apply (@sub_with_rel at_start (fun s r t E => proj1 (H s r t E))
                       (fun s out => squeeze out = squeeze s)).
  - reflexivity.
  - intros c s0 out _ E. apply squeeze_cons, E.
  - intros s0 repl rest out E Eo. destruct (H _ _ _ E) as (_ & Hs).
    apply Hs, Eo.
Qed.

Lemma clean_keeps_squeeze (word : char -> bool) (content : str) :
  squeeze (Clean._clean_content word content) = squeeze (strip content).
Proof.
  unfold Clean._clean_content. cbv zeta.
  rewrite sub_fence_same.
  rewrite (@sub_with_keeps_squeeze Clean.heading_at).
  2:{ intros s repl rest H. split; [eapply heading_at_consumes; exact H|].
      apply heading_at_inv in H. destruct H as (c & tail & Hc & -> & ->).
      intros out Ho. cbn [app].
      rewrite !(@squeeze_not_nl c _ Hc). f_equal.
      rewrite squeeze_NL_NL.
      apply (@squeeze_app (NL :: Clean.HASH :: tail) out rest Ho). }
  rewrite (@sub_with_keeps_squeeze Clean.newlines_at).
  2:{ intros s repl rest H. split; [eapply newlines_at_consumes; exact H|].
      apply newlines_at_inv in H. destruct H as (t & -> & -> & ->).
      intros out Ho. cbn [app]. rewrite !squeeze_NL_NL.
      rewrite <- (squeeze_NL_dropwhile t). apply squeeze_cons, Ho. }
  rewrite (@sub_with_keeps_squeeze Clean.row_end_at).
  2:{ intros s repl rest H. split; [eapply row_end_at_consumes; exact H|].
      apply row_end_at_inv in H. destruct H as (-> & ->).
      intros out Ho. cbn [app].
      rewrite !(@squeeze_not_nl PIPE _ eq_refl). f_equal.
      rewrite squeeze_NL_NL. apply squeeze_cons, Ho. }
  rewrite (@sub_with_keeps_squeeze Clean.pipe_at).
  2:{ intros s repl rest H. split; [eapply pipe_at_consumes; exact H|].
      apply pipe_at_inv in H. destruct H as (-> & ->).
      intros out Ho. cbn [app]. rewrite squeeze_NL_NL.
      apply (@squeeze_app [NL; PIPE] out rest Ho). }
  reflexivity.
Qed.

(** ** Words *)

Lemma split_ws_from_squeeze (s : str) :
  forall cur, split_ws_from cur (squeeze s) = split_ws_from cur s.
Proof.
  induction s as [|c s IH]; intros cur; [reflexivity|].
  cbn [squeeze]. destruct (N.eqb_spec c NL) as [->|Hc]; cbn [andb].
  - destruct s as [|d s']; cbn [starts_nl].
    + reflexivity.
    + destruct (N.eqb_spec d NL) as [->|Hd].
      * rewrite IH. cbn [split_ws_from]. change (isspace NL) with true.
        cbv iota. destruct cur; reflexivity.
      * cbn [split_ws_from]. change (isspace NL) with true. cbv iota.
        destruct cur; rewrite IH; reflexivity.
  - cbn [split_ws_from]. destruct (isspace c); [|apply IH].
    destruct cur; rewrite IH; reflexivity.
Qed.

Lemma split_ws_from_leading (w s : str) :
  Forall (fun c => isspace c = true) w ->
  split_ws_from [] (w ++ s) = split_ws_from [] s.
Proof.
  induction 1 as [|c w Hc Hw IH]; [reflexivity|].
  cbn [app split_ws_from]. rewrite Hc. exact IH.
Qed.

Lemma split_ws_from_spaces (w : str) :
  Forall (fun c => isspace c = true) w ->
  forall cur, split_ws_from cur w = split_ws_from cur [].
Proof.
  induction 1 as [|c w Hc Hw IH]; intros cur; [reflexivity|].
  cbn [split_ws_from]. rewrite Hc. rewrite (IH []).
  destruct cur; reflexivity.
Qed.

Lemma split_ws_from_trailing (w : str) :
  Forall (fun c => isspace c = true) w ->
  forall (s cur : str), split_ws_from cur (s ++ w) = split_ws_from cur s.
Proof.
  intros Hw. induction s as [|c s IH]; intros cur.
  - apply split_ws_from_spaces, Hw.
  - cbn [app split_ws_from]. destruct (isspace c); [|apply IH].
    destruct cur; rewrite IH; reflexivity.
Qed.

(** What [strip] takes off, at either end. *)
Lemma dropwhile_split (p : char -> bool) (s : str) :
  exists pre, s = pre ++ dropwhile p s /\ Forall (fun c => p c = true) pre.
Proof.
  induction s as [|c s (pre & E & Hp)]; cbn [dropwhile].
  - exists []. split; [reflexivity|constructor].
  - destruct (p c) eqn:Ec.
    + exists (c :: pre). cbn [app]. split; [f_equal; exact E|].
      constructor; assumption.
    + exists []. split; [reflexivity|constructor].
Qed.

Lemma strip_with_split (p : char -> bool) (s : str) :
  exists w1 w2,
    s = w1 ++ strip_with p s ++ w2
    /\ Forall (fun c => p c = true) w1
    /\ Forall (fun c => p c = true) w2.
Proof.
  unfold strip_with, lstrip_with, rstrip_with.
  destruct (dropwhile_split p s) as (w1 & E1 & H1).
  destruct (dropwhile_split p (rev (dropwhile p s))) as (w2 & E2 & H2).
  exists w1, (rev w2). split; [|split; [exact H1|apply Forall_rev, H2]].
  rewrite <- rev_app_distr, <- E2, rev_involutive. exact E1.
Qed.

Lemma split_ws_strip (s : str) : split_ws (strip s) = split_ws s.
Proof.
  destruct (strip_with_split isspace s) as (w1 & w2 & E & H1 & H2).
  fold (strip s) in E. unfold split_ws. rewrite E at 2.
  rewrite (split_ws_from_leading _ H1), (split_ws_from_trailing H2).
  reflexivity.
Qed.

Lemma clean_keeps_words (word : char -> bool) (content : str) :
  split_ws (Clean._clean_content word content) = split_ws content.
Proof.
  unfold split_ws.
  rewrite <- split_ws_from_squeeze, clean_keeps_squeeze, split_ws_from_squeeze.
  apply split_ws_strip.
Qed.

(** ** Code fences *)

Lemma startswith_head_false (a c : char) (sub x : str) :
  (a =? c)%N = false -> startswith (a :: sub) (c :: x) = false.
Proof. intros H. cbn [startswith]. rewrite H. reflexivity. Qed.

Lemma startswith_squeeze (sub : str) :
  Forall (fun c => not_nl c = true) sub ->
  forall s, startswith sub (squeeze s) = startswith sub s.
Proof.
  induction 1 as [|a sub Ha Hsub IH]; intros s; [reflexivity|].
  unfold not_nl in Ha. apply negb_true_iff in Ha.
  destruct s as [|c s]; [reflexivity|]. cbn [squeeze].
  destruct (N.eqb_spec c NL) as [->|Hc]; cbn [andb].
  - destruct (starts_nl s) eqn:Es.
    + rewrite (@startswith_head_false a NL sub s Ha).
      pose proof (starts_nl_squeeze s) as E. rewrite Es in E.
      destruct (squeeze s) as [|d t]; [reflexivity|].
      cbn [starts_nl] in E. apply N.eqb_eq in E. subst d.
      apply startswith_head_false, Ha.
    + cbn [startswith]. rewrite IH. reflexivity.
  - cbn [startswith]. rewrite IH. reflexivity.
Qed.

Lemma count_from_squeeze (sub : str) :
  sub <> [] ->
  Forall (fun c => not_nl c = true) sub ->
  forall (s : str) (k : nat),
    Forall (fun c => not_nl c = true) (firstn k s) ->
    count_from sub k (squeeze s) = count_from sub k s.
Proof.
  intros Hne Hsub. induction s as [|c s IH]; intros k Hk; [reflexivity|].
  assert (Hs : startswith sub (squeeze (c :: s)) = startswith sub (c :: s))
    by apply startswith_squeeze, Hsub.
  cbn [squeeze] in *. destruct (N.eqb_spec c NL) as [->|Hc]; cbn [andb] in *.
  - destruct k as [|k];
      [|cbn [firstn] in Hk; inversion Hk; discriminate].
    assert (Hn : startswith sub (NL :: s) = false).
    { destruct sub as [|a sub']; [contradiction|].
      inversion Hsub as [|? ? Ha _]; subst.
      unfold not_nl in Ha. apply negb_true_iff in Ha.
      apply startswith_head_false, Ha. }
    destruct (starts_nl s).
    + rewrite IH by constructor. cbn [count_from]. rewrite Hn. reflexivity.
    + cbn [count_from]. rewrite Hs, Hn. apply IH. constructor.
  - destruct k as [|k]; cbn [count_from].
    + rewrite Hs. destruct (startswith sub (c :: s)) eqn:E.
      * f_equal. apply IH.
        apply startswith_skipn in E.
        destruct sub as [|a sub']; [contradiction|].
        cbn [length skipn app] in E. inversion E as [[Ea Et]].
        replace (length (a :: sub') - 1) with (length sub')
          by (cbn [length]; lia).
        rewrite Et at 1. rewrite firstn_length_app.
        inversion Hsub; assumption.
      * apply IH. constructor.
    + apply IH. cbn [firstn] in Hk. inversion Hk; assumption.
Qed.

Lemma count_squeeze (sub s : str) :
  sub <> [] -> Forall (fun c => not_nl c = true) sub ->
  count sub (squeeze s) = count sub s.
Proof.
  intros Hne Hsub. unfold count. destruct sub as [|a sub']; [contradiction|].
  apply count_from_squeeze; [exact Hne|exact Hsub|constructor].
Qed.

Lemma count_unfold (sub s : str) :
  sub <> [] -> count sub s = count_from sub 0 s.
Proof. destruct sub; [contradiction|reflexivity]. Qed.

Section CountStrip.
Variable sub : str.
Hypothesis sub_nonempty : sub <> [].
Hypothesis sub_black : Forall (fun c => isspace c = false) sub.

Lemma startswith_space (c : char) (x : str) :
  isspace c = true -> startswith sub (c :: x) = false.
Proof.
  intros Hc. destruct sub as [|a sub']; [contradiction|].
  inversion sub_black as [|? ? Ha _]; subst.
  apply startswith_head_false.
  destruct (N.eqb_spec a c) as [->|]; [congruence|reflexivity].
Qed.

Lemma count_from_spaces (w : str) :
  Forall (fun c => isspace c = true) w ->
  forall k, count_from sub k w = 0.
Proof.
  induction 1 as [|c w Hc Hw IH]; intros k; [reflexivity|].
  cbn [count_from]. destruct k; [|apply IH].
  rewrite (@startswith_space c _ Hc). apply IH.
Qed.

Lemma count_from_leading (w s : str) :
  Forall (fun c => isspace c = true) w ->
  count_from sub 0 (w ++ s) = count_from sub 0 s.
Proof.
  induction 1 as [|c w Hc Hw IH]; [reflexivity|].
  cbn [app count_from]. rewrite (@startswith_space c _ Hc). exact IH.
Qed.

Lemma startswith_trailing (w : str) :
  Forall (fun c => isspace c = true) w ->
  forall (p x : str),
    Forall (fun c => isspace c = false) p ->
    p <> [] ->
    startswith p (x ++ w) = startswith p x.
Proof.
  intros Hw p. induction p as [|a p IH]; intros x Hp Hne; [contradiction|].
  inversion Hp as [|? ? Ha Hp']; subst.
  destruct x as [|c x]; cbn [app].
  - destruct w as [|c w]; [reflexivity|].
    inversion Hw as [|? ? Hc _]; subst.
    apply startswith_head_false.
    destruct (N.eqb_spec a c) as [->|]; [congruence|reflexivity].
  - cbn [startswith]. destruct p as [|b p'].
    + destruct (a =? c)%N; reflexivity.
    + rewrite IH by (assumption || discriminate). reflexivity.
Qed.

Lemma count_from_trailing (w : str) :
  Forall (fun c => isspace c = true) w ->
  forall (s : str) (k : nat), count_from sub k (s ++ w) = count_from sub k s.
Proof.
  intros Hw. induction s as [|c s IH]; intros k.
  - cbn [app]. rewrite (@count_from_spaces w Hw). destruct k; reflexivity.
  - cbn [app count_from]. destruct k; [|apply IH].
    change (c :: s ++ w) with ((c :: s) ++ w).
    rewrite (@startswith_trailing w Hw sub (c :: s) sub_black sub_nonempty).
    rewrite !IH. reflexivity.
Qed.

Lemma count_strip (s : str) : count sub (strip s) = count sub s.
Proof.
  destruct (strip_with_split isspace s) as (w1 & w2 & E & H1 & H2).
  fold (strip s) in E. rewrite !count_unfold by exact sub_nonempty.
  rewrite E at 2.
  rewrite (@count_from_leading w1 _ H1), (@count_from_trailing w2 H2).
  reflexivity.
Qed.
End CountStrip.

Lemma clean_keeps_code_blocks (word : char -> bool) (content : str) :
  count_code_blocks (Clean._clean_content word content)
  = count_code_blocks content.
Proof.
  unfold count_code_blocks.
  assert (H : forall sub,
             sub <> [] ->
             Forall (fun c => not_nl c = true) sub ->
             Forall (fun c => isspace c = false) sub ->
             count sub (Clean._clean_content word content) = count sub content).
  { intros sub Hne Hnl Hb.
    rewrite <- (@count_squeeze sub _ Hne Hnl), clean_keeps_squeeze,
      (@count_squeeze sub _ Hne Hnl).
    apply count_strip; assumption. }
  rewrite (H fence_python), (H fence_py);
    try reflexivity; try discriminate; repeat constructor.
Qed.

(** ** Lines *)

Lemma nonempty_rev (cur : str) : nonempty (rev cur) = nonempty cur.
Proof.
  destruct cur as [|c cur]; [reflexivity|]. cbn [rev nonempty].
  destruct (rev cur); reflexivity.
Qed.

Lemma lines_from_spec (s : str) :
  forall cur,
    lines_from cur s
    = filter nonempty match split_on NL s with
                      | l :: ls => (rev cur ++ l) :: ls
                      | [] => []
                      end.
Proof.
  induction s as [|c s IH]; intros cur.
  - cbn [lines_from split_on filter]. rewrite app_nil_r, nonempty_rev.
    destruct cur; reflexivity.
  - cbn [lines_from split_on]. destruct (c =? NL)%N.
    + cbn [filter]. rewrite app_nil_r, nonempty_rev.
      assert (E : lines_from [] s = filter nonempty (split_on NL s)).
      { rewrite IH. destruct (split_on NL s); reflexivity. }
      rewrite E. destruct cur; reflexivity.
    + rewrite IH. pose proof (split_on_nonempty NL s) as Hn.
      destruct (split_on NL s) as [|l ls]; [contradiction|].
      cbn [rev]. rewrite <- app_assoc. reflexivity.
Qed.

Lemma nonempty_lines_from (s : str) : nonempty_lines s = lines_from [] s.
Proof.
  unfold nonempty_lines, lines. rewrite lines_from_spec.
  destruct (split_on NL s); reflexivity.
Qed.

Lemma lines_from_squeeze (s : str) :
  forall cur, lines_from cur (squeeze s) = lines_from cur s.
Proof.
  induction s as [|c s IH]; intros cur; [reflexivity|].
  cbn [squeeze]. destruct (N.eqb_spec c NL) as [->|Hc]; cbn [andb].
  - destruct s as [|d s']; cbn [starts_nl].
    + reflexivity.
    + destruct (N.eqb_spec d NL) as [->|Hd].
      * rewrite IH. cbn [lines_from]. rewrite N.eqb_refl.
        destruct cur; reflexivity.
      * cbn [lines_from]. rewrite N.eqb_refl.
        destruct cur; rewrite IH; reflexivity.
  - cbn [lines_from]. destruct (c =? NL)%N; [|apply IH].
    destruct cur; rewrite IH; reflexivity.
Qed.

Lemma clean_keeps_lines (word : char -> bool) (content : str) :
  nonempty_lines (Clean._clean_content word content)
  = nonempty_lines (strip content).
Proof.
  rewrite !nonempty_lines_from.
  rewrite <- lines_from_squeeze, clean_keeps_squeeze, lines_from_squeeze.
  reflexivity.
Qed.

(** ** The ends of the cleaned draft *)

Lemma squeeze_head (s : str) : hd_error (squeeze s) = hd_error s.
Proof.
  induction s as [|c s IH]; [reflexivity|]. cbn [squeeze].
  destruct (N.eqb_spec c NL) as [->|Hc]; cbn [andb]; [|reflexivity].
  destruct s as [|d s']; [reflexivity|]. cbn [starts_nl].
  destruct (N.eqb_spec d NL) as [->|Hd]; [|reflexivity].
  rewrite IH. reflexivity.
Qed.

Lemma squeeze_nil (s : str) : squeeze s = [] -> s = [].
Proof.
  intros H. pose proof (squeeze_head s) as E. rewrite H in E.
  destruct s; [reflexivity|discriminate].
Qed.

Lemma squeeze_last (s : str) : last (squeeze s) NL = last s NL.
Proof.
  induction s as [|c s IH]; [reflexivity|]. cbn [squeeze].
  destruct ((c =? NL)%N && starts_nl s) eqn:E.
  - rewrite IH. destruct s as [|d s']; [|reflexivity].
    cbn [starts_nl] in E. rewrite andb_false_r in E. discriminate.
  - cbn [last]. rewrite IH.
    destruct (squeeze s) as [|d t] eqn:Es.
    + apply squeeze_nil in Es. subst s. reflexivity.
    + destruct s; [discriminate|reflexivity].
Qed.

Lemma rev_last (s : str) : s <> [] -> rev s = last s NL :: rev (removelast s).
Proof.
  intros H. rewrite (app_removelast_last NL H) at 1.
  rewrite rev_app_distr. reflexivity.
Qed.

Lemma strip_ends (s : str) :
  match strip s with [] => True | c :: _ => isspace c = false end
  /\ (strip s <> [] -> isspace (last (strip s) NL) = false).
Proof.
  split; [apply strip_with_head|].
  intros Hne. pose proof (rev_last Hne) as E.
  assert (R : rev (strip s)
              = dropwhile isspace (rev (lstrip_with isspace s)))
    by (unfold strip, strip_with, rstrip_with; apply rev_involutive).
  rewrite R in E.
  pose proof (dropwhile_head isspace (rev (lstrip_with isspace s))) as Hh.
  rewrite E in Hh. exact Hh.
Qed.

Lemma strip_same (x : str) :
  match x with [] => True | c :: _ => isspace c = false end ->
  (x <> [] -> isspace (last x NL) = false) ->
  strip x = x.
Proof.
  intros Hh Hl. unfold strip, strip_with, lstrip_with, rstrip_with.
  rewrite (dropwhile_id isspace x Hh).
  destruct x as [|c t]; [reflexivity|].
  rewrite (@rev_last (c :: t)) by discriminate.
  cbn [dropwhile]. rewrite Hl by discriminate.
  rewrite <- (@rev_last (c :: t)) by discriminate.
  apply rev_involutive.
Qed.

Lemma clean_is_stripped (word : char -> bool) (content : str) :
  strip (Clean._clean_content word content)
  = Clean._clean_content word content.
Proof.
  pose proof (clean_keeps_squeeze word content) as E.
  destruct (strip_ends content) as (Hh & Hl).
  set (x := Clean._clean_content word content) in *.
  apply strip_same.
  - pose proof (squeeze_head x) as H1.
    pose proof (squeeze_head (strip content)) as H2.
    rewrite E, H2 in H1.
    destruct x as [|c t]; [exact I|].
    destruct (strip content) as [|d u]; [discriminate|].
    inversion H1; subst. exact Hh.
  - intros Hx.
    rewrite <- squeeze_last, E, squeeze_last. apply Hl.
    intros Hs. rewrite Hs in E. apply squeeze_nil in E. contradiction.
Qed.

(** ** The title *)

Lemma first_heading_nonempty (ls : list str) :
  first_heading (filter nonempty ls) = first_heading ls.
Proof.
  induction ls as [|l ls IH]; [reflexivity|].
  cbn [filter]. destruct l as [|c l]; cbn [nonempty].
  - exact IH.
  - cbn [first_heading]. rewrite IH. reflexivity.
Qed.

Lemma clean_keeps_title (rt : Runtime) (word : char -> bool)
      (content fallback : str) :
  extract_title rt (Clean._clean_content word content) fallback
  = extract_title rt content fallback.
Proof.
  unfold extract_title. rewrite clean_is_stripped.
  fold (lines (Clean._clean_content word content)).
  fold (lines (strip content)).
  rewrite <- (first_heading_nonempty (lines (Clean._clean_content word content))).
  rewrite <- (first_heading_nonempty (lines (strip content))).
  fold (nonempty_lines (Clean._clean_content word content)).
  fold (nonempty_lines (strip content)).
  rewrite clean_keeps_lines. reflexivity.
Qed.

(** ** Tables *)

Lemma is_table_line_nil : is_table_line [] = false.
Proof. reflexivity. Qed.

Lemma filter_table_lines (ls : list str) :
  filter is_table_line (filter nonempty ls) = filter is_table_line ls.
Proof.
  induction ls as [|l ls IH]; [reflexivity|].
  cbn [filter]. destruct l as [|c l]; cbn [nonempty].
  - rewrite is_table_line_nil. exact IH.
  - cbn [filter]. rewrite IH. reflexivity.
Qed.

Lemma table_lines_from_spec (s : str) :
  forall cur,
    table_lines_from cur s
    = length (filter is_table_line match split_on NL s with
                                   | l :: ls => (rev cur ++ l) :: ls
                                   | [] => []
                                   end).
Proof.
  induction s as [|c s IH]; intros cur.
  - cbn [table_lines_from split_on filter]. rewrite app_nil_r.
    unfold table_line. destruct (is_table_line (rev cur)); reflexivity.
  - cbn [table_lines_from split_on]. destruct (c =? NL)%N.
    + cbn [filter]. rewrite app_nil_r.
      assert (E : table_lines_from [] s
                  = length (filter is_table_line (split_on NL s))).
      { rewrite IH. destruct (split_on NL s); reflexivity. }
      rewrite E. unfold table_line.
      destruct (is_table_line (rev cur)); reflexivity.
    + rewrite IH. pose proof (split_on_nonempty NL s) as Hn.
      destruct (split_on NL s) as [|l ls]; [contradiction|].
      cbn [rev]. rewrite <- app_assoc. reflexivity.
Qed.

Lemma count_tables_from (s : str) :
  count_tables s = Z.max 0 (floordiv (Z.of_nat (table_lines_from [] s)) 3).
Proof.
  unfold count_tables. cbv zeta. rewrite table_lines_from_spec.
  destruct (split_on NL s); reflexivity.
Qed.

Lemma dropwhile_app_all_any (p : char -> bool) (w l : str) :
  Forall (fun c => p c = true) w -> dropwhile p (w ++ l) = dropwhile p l.
Proof.
  induction 1 as [|c w Hc Hw IH]; [reflexivity|].
  cbn [app dropwhile]. rewrite Hc. exact IH.
Qed.

Lemma dropwhile_snoc (p : char -> bool) (c : char) (x : str) :
  p c = true ->
  dropwhile p (x ++ [c])
  = match dropwhile p x with [] => [] | _ => dropwhile p x ++ [c] end.
Proof.
  intros Hc. induction x as [|a x IH]; cbn [app dropwhile].
  - rewrite Hc. reflexivity.
  - destruct (p a); [exact IH|reflexivity].
Qed.

Lemma strip_space_prefix (w l : str) :
  Forall (fun c => isspace c = true) w -> strip (w ++ l) = strip l.
Proof.
  intros H. unfold strip, strip_with, lstrip_with.
  rewrite (@dropwhile_app_all_any isspace w l H). reflexivity.
Qed.

Lemma strip_space_snoc (c : char) (x : str) :
  isspace c = true -> strip (x ++ [c]) = strip x.
Proof.
  intros Hc. unfold strip, strip_with, lstrip_with, rstrip_with.
  rewrite (@dropwhile_snoc isspace c x Hc).
  destruct (dropwhile isspace x) as [|d y] eqn:E; [reflexivity|].
  rewrite rev_app_distr. cbn [rev app dropwhile]. rewrite Hc. reflexivity.
Qed.

Lemma table_line_spaces (cur : str) :
  Forall (fun c => isspace c = true) cur -> table_line cur = 0.
Proof.
  intros H. unfold table_line, is_table_line.
  assert (E : strip (rev cur) = []).
  { rewrite <- (app_nil_r (rev cur)).
    apply (@strip_space_prefix (rev cur) []), Forall_rev, H. }
  rewrite E. reflexivity.
Qed.

Lemma table_lines_from_prefix (s : str) (cur : str) :
  Forall (fun c => isspace c = true) cur ->
  table_lines_from cur s = table_lines_from [] s.
Proof.
  intros H. rewrite !table_lines_from_spec.
  destruct (split_on NL s) as [|l ls]; [reflexivity|].
  assert (E : is_table_line (rev cur ++ l) = is_table_line l).
  { unfold is_table_line.
    rewrite (@strip_space_prefix (rev cur) l) by apply Forall_rev, H.
    reflexivity. }
  cbn [filter rev app]. rewrite E.
  destruct (is_table_line l); reflexivity.
Qed.

Lemma table_lines_from_leading (w s : str) :
  Forall (fun c => isspace c = true) w ->
  forall cur,
    Forall (fun c => isspace c = true) cur ->
    table_lines_from cur (w ++ s) = table_lines_from [] s.
Proof.
  induction 1 as [|c w Hc Hw IH]; intros cur Hcur.
  - apply table_lines_from_prefix, Hcur.
  - cbn [app table_lines_from]. destruct (c =? NL)%N.
    + rewrite (@table_line_spaces cur Hcur). apply IH. constructor.
    + apply IH. constructor; assumption.
Qed.

Lemma table_line_snoc (c : char) (cur : str) :
  isspace c = true -> table_line (c :: cur) = table_line cur.
Proof.
  intros Hc. unfold table_line, is_table_line. cbn [rev].
  rewrite (@strip_space_snoc c (rev cur) Hc). reflexivity.
Qed.

Lemma table_lines_from_spaces (w : str) :
  Forall (fun c => isspace c = true) w ->
  forall cur, table_lines_from cur w = table_line cur.
Proof.
  induction 1 as [|c w Hc Hw IH]; intros cur; [reflexivity|].
  cbn [table_lines_from]. destruct (c =? NL)%N.
  - rewrite IH. unfold table_line at 2. cbn [rev].
    rewrite is_table_line_nil. lia.
  - rewrite IH. apply table_line_snoc, Hc.
Qed.

Lemma table_lines_from_trailing (w : str) :
  Forall (fun c => isspace c = true) w ->
  forall (s cur : str),
    table_lines_from cur (s ++ w) = table_lines_from cur s.
Proof.
  intros Hw. induction s as [|c s IH]; intros cur.
  - apply table_lines_from_spaces, Hw.
  - cbn [app table_lines_from]. rewrite !IH. reflexivity.
Qed.

Lemma count_tables_strip (s : str) : count_tables (strip s) = count_tables s.
Proof.
  destruct (strip_with_split isspace s) as (w1 & w2 & E & H1 & H2).
  fold (strip s) in E. rewrite !count_tables_from. rewrite E at 2.
  rewrite (@table_lines_from_leading w1 _ H1 [] (Forall_nil _)).
  rewrite (@table_lines_from_trailing w2 H2). reflexivity.
Qed.

Lemma clean_keeps_tables (word : char -> bool) (content : str) :
  count_tables (Clean._clean_content word content) = count_tables content.
Proof.
  rewrite <- (count_tables_strip content).
  unfold count_tables. cbv zeta.
  rewrite <- (filter_table_lines (split_on NL (Clean._clean_content word content))).
  rewrite <- (filter_table_lines (split_on NL (strip content))).
  fold (lines (Clean._clean_content word content)).
  fold (lines (strip content)).
  fold (nonempty_lines (Clean._clean_content word content)).
  fold (nonempty_lines (strip content)).
  rewrite clean_keeps_lines. reflexivity.
Qed.

(** ** What cleaning keeps *)

(** X20.  The cleaned draft differs from the stripped draft in the
    lengths of its runs of line feeds only: with every run cut down to
    one line feed the two are the same text.  So they have the same
    characters other than line feeds and the same non-empty lines, in
    order, and the cleaned draft has no whitespace at either end. *)
Theorem clean_content_changes_line_feed_runs_only
        (word : char -> bool) (content : str) :
  let cleaned := Clean._clean_content word content in
  squeeze cleaned = squeeze (strip content)
  /\ text_of cleaned = text_of (strip content)
  /\ nonempty_lines cleaned = nonempty_lines (strip content)
  /\ strip cleaned = cleaned.
Proof.
  intros cleaned. unfold cleaned.
  split; [apply clean_keeps_squeeze|].
  split; [apply clean_keeps_text|].
  split; [apply clean_keeps_lines|apply clean_is_stripped].
Qed.

(** X21.  The four metrics the writer stores for a draft are also those
    of the cleaned draft: the same words, hence the same word count, the
    same count of code blocks, the same count of tables and the same
    title. *)
Theorem clean_content_keeps_metrics
        (rt : Runtime) (word : char -> bool) (content fallback : str) :
  let cleaned := Clean._clean_content word content in
  split_ws cleaned = split_ws content
  /\ count_words cleaned = count_words content
  /\ count_code_blocks cleaned = count_code_blocks content
  /\ count_tables cleaned = count_tables content
  /\ extract_title rt cleaned fallback = extract_title rt content fallback.
Proof.
  intros cleaned. unfold cleaned.
  split; [apply clean_keeps_words|].
  split; [unfold count_words; rewrite clean_keeps_words; reflexivity|].
  split; [apply clean_keeps_code_blocks|].
  split; [apply clean_keeps_tables|apply clean_keeps_title].
Qed.

(** X22.  Whitespace around a draft does not count: the words, the
    count of code blocks and the count of tables of a draft are those of
    the draft without the whitespace at its ends. *)
Theorem metrics_ignore_surrounding_whitespace (content : str) :
  split_ws (strip content) = split_ws content
  /\ count_words (strip content) = count_words content
  /\ count_code_blocks (strip content) = count_code_blocks content
  /\ count_tables (strip content) = count_tables content.
Proof.
  split; [apply split_ws_strip|].
  split; [unfold count_words; rewrite split_ws_strip; reflexivity|].
  split; [|apply count_tables_strip].
  unfold count_code_blocks.
  rewrite (@count_strip fence_python), (@count_strip fence_py);
    try reflexivity; try discriminate; repeat constructor.
Qed.

(* ================================================================== *)
(** * The stored metrics and the formatted draft *)
(* ================================================================== *)

(** X23.  The metrics of a finished run describe the draft as the
    formatter prints it: the word count, the code block count, the table
    count and the title in the final state are those of the cleaned
    final draft. *)
Theorem final_metrics_hold_for_cleaned_draft
        (rt : Runtime) (w : World) (word : char -> bool)
        (fuel : nat) (topic : str) (N : Z) (final : Config) :
  generate_blog rt w fuel topic N = Some final ->
  let st := state final in
  let cleaned := Clean._clean_content word (draft_content st) in
  word_count st = count_words cleaned
  /\ code_block_count st = count_code_blocks cleaned
  /\ table_count st = count_tables cleaned
  /\ title st = extract_title rt cleaned topic.
Proof.
  intros H st cleaned.
  destruct (final_last_pass rt w fuel topic N H)
    as (E & L1 & L3 & _ & Lt & _ & _).
  destruct (pass_content rt w _ L1 L3)
    as (j & _ & P1 & P2 & P3 & P4 & P5 & _).
  rewrite <- E in P1, P2, P3, P4, P5. fold st in P1, P2, P3, P4, P5.
  rewrite Lt in P2. rewrite <- P1 in P2, P3, P4, P5.
  unfold cleaned, count_words.
  rewrite clean_keeps_words, clean_keeps_code_blocks, clean_keeps_tables,
    clean_keeps_title.
  repeat split; assumption.
Qed.

Lemma final_metrics_hold_for_cleaned_draft_witness :
  let w := constant_world (of_string "| a | b |") in
  exists final : Config,
    generate_blog ascii_runtime w 5 (of_string "Example Topic") 1 = Some final
    /\ word_count (state final)
       = count_words (Clean._clean_content ascii_word
                        (draft_content (state final))).
Proof.
  intros w.
  assert (E : exists final,
             generate_blog ascii_runtime w 5 (of_string "Example Topic") 1
             = Some final)
    by (eexists; vm_compute; reflexivity).
  destruct E as (final & E). exists final. split; [exact E|].
  exact (proj1 (@final_metrics_hold_for_cleaned_draft
                  ascii_runtime w ascii_word 5 (of_string "Example Topic") 1
                  final E)).
Defined.

(* ================================================================== *)
(** * Reading back a list section *)
(* ================================================================== *)

Lemma clean_item_head (item : str) :
  clean_item item ->
  exists c t, item = c :: t /\ isspace c = false /\ not_nl c = true
              /\ Forall (fun a => not_nl a = true) t.
Proof.
  intros (Hne & Hnl & Hs). destruct item as [|c t]; [contradiction|].
  inversion Hnl; subst. exists c, t.
  split; [reflexivity|]. split; [apply (strip_fixed_head Hs)|].
  split; assumption.
Qed.

Lemma dropwhile_not_nl_line (t more : str) :
  Forall (fun a => not_nl a = true) t ->
  dropwhile not_nl (t ++ NL :: more) = NL :: more.
Proof.
  intros H. apply dropwhile_app_all; [exact H|reflexivity].
Qed.

(** One bullet line is matched whole. *)
Lemma section_line_match (R : Type) (k : cont R) (x : R)
      (item more : str) (g : option str) :
  clean_item item ->
  k more g = Some x ->
  m section_line (item_line item ++ more) g k = Some x.
Proof.
  intros Hi Hk. destruct (clean_item_head Hi) as (c & t & -> & Hc & Hn & Ht).
  unfold section_line, item_line.
  change (of_string "- ") with [45%N; 32%N].
  rewrite <- !app_assoc. cbn [app].
  rewrite m_seq, m_chr_cons. change (bullet_ci 45%N) with true. cbv iota.
  rewrite m_seq, m_star. apply star_chr_greedy; [lia|].
  cbn [dropwhile]. change (isspace 32%N) with true. cbv iota.
  cbn [dropwhile]. rewrite Hc.
  rewrite m_seq. unfold Plus. rewrite m_seq, m_chr_cons, Hn, m_star.
  apply star_chr_greedy; [lia|].
  rewrite (@dropwhile_not_nl_line t more Ht).
  cbn [m]. rewrite N.eqb_refl, Hk. reflexivity.
Qed.

Lemma section_line_fails (R : Type) (k : cont R) (rest : str) (g : option str) :
  no_bullet_ahead rest -> m section_line rest g k = None.
Proof.
  intros H. unfold section_line. rewrite m_seq.
  destruct rest as [|c rest]; [reflexivity|].
  rewrite m_chr_cons. cbn [no_bullet_ahead] in H. rewrite H. reflexivity.
Qed.

Lemma item_line_length (item : str) : 3 <= length (item_line item).
Proof.
  unfold item_line. rewrite !length_app.
  change (length (of_string "- ")) with 2. cbn [length]. lia.
Qed.

(** The bullet lines are matched one after another, up to the text that
    does not go on with a bullet. *)
Lemma section_lines_match (R : Type) (k : cont R) (x : R) (more : str) :
  no_bullet_ahead more ->
  forall (items : list str) (n : nat) (g : option str),
    Forall clean_item items ->
    length (concat (map item_line items) ++ more) <= n ->
    k more g = Some x ->
    star_loop (m section_line) k n (concat (map item_line items) ++ more) g
    = Some x.
Proof.
  intros Hmore. induction items as [|it items IH]; intros n g Hi Hn Hk.
  - cbn [map concat app]. destruct n as [|n]; cbn [star_loop]; [exact Hk|].
    rewrite section_line_fails by exact Hmore. exact Hk.
  - inversion Hi as [|? ? Hit Hits]; subst.
    cbn [map concat] in *. rewrite <- app_assoc in *.
    pose proof (item_line_length it) as Hl.
    rewrite length_app in Hn.
    destruct n as [|n]; [lia|]. cbn [star_loop].
    rewrite (@section_line_match R _ x it _ g Hit); [reflexivity|].
    replace (length (concat (map item_line items) ++ more)
             <? length (item_line it ++ concat (map item_line items) ++ more))
      with true by (symmetry; apply Nat.ltb_lt; rewrite (length_app (item_line it)); lia).
    apply IH; [exact Hits|lia|exact Hk].
Qed.

Lemma list_section_re_match (label : str) (items : list str) (more : str) :
  items <> [] ->
  Forall clean_item items ->
  no_bullet_ahead more ->
  re_match (list_section_re label) (list_section label items ++ more)
  = Some (Some (concat (map item_line items)), more).
Proof.
  intros Hne Hi Hmore. destruct items as [|it items]; [contradiction|].
  inversion Hi as [|? ? Hit Hits]; subst.
  unfold re_match, list_section_re, list_section.
  rewrite <- !app_assoc.
  rewrite m_seq, m_lit, startswith_by_ci_self, skipn_length_app.
  cbn [app]. rewrite m_seq, m_chr_cons, N.eqb_refl.
  rewrite m_seq, m_star. apply star_chr_greedy; [lia|].
  cbn [dropwhile]. change (isspace NL) with true. cbv iota.
  cbn [map concat]. rewrite <- app_assoc.
  assert (Hd : dropwhile isspace
                 (item_line it ++ concat (map item_line items) ++ more)
               = item_line it ++ concat (map item_line items) ++ more)
    by reflexivity.
  rewrite Hd. rewrite m_grp.
  fold section_line. unfold Plus. rewrite m_seq.
  apply section_line_match; [exact Hit|].
  rewrite m_star.
  rewrite (@section_lines_match _ _
             (Some (concat (map item_line (it :: items))), more) more Hmore
             items _ _ Hits (Nat.le_refl _)); [reflexivity|].
  do 3 f_equal. cbn [map concat].
  rewrite (app_assoc (item_line it)).
  apply (firstn_app_sub (item_line it ++ concat (map item_line items)) more).
Qed.

Lemma item_re_match (item tail : str) :
  clean_item item ->
  re_match item_re (item_line item ++ tail) = Some (Some item, NL :: tail).
Proof.
  intros Hi. destruct (clean_item_head Hi) as (c & t & -> & Hc & Hn & Ht).
  unfold re_match, item_re, item_line.
  change (of_string "- ") with [45%N; 32%N].
  rewrite <- !app_assoc. cbn [app].
  rewrite m_seq, m_chr_cons. change (bullet 45%N) with true. cbv iota.
  rewrite m_seq, m_star. apply star_chr_greedy; [lia|].
  cbn [dropwhile]. change (isspace 32%N) with true. cbv iota.
  cbn [dropwhile]. rewrite Hc.
  rewrite m_grp. unfold Plus. rewrite m_seq, m_chr_cons, Hn, m_star.
  apply star_chr_greedy; [lia|].
  rewrite (@dropwhile_not_nl_line t tail Ht).
  do 3 f_equal.
  apply (firstn_app_sub (c :: t) (NL :: tail)).
Qed.

Lemma findall_fuel_nil (n : nat) (r : regex) :
  re_match r [] = None -> findall_fuel n r [] = [].
Proof. intros H. destruct n; cbn [findall_fuel]; [|rewrite H]; reflexivity. Qed.

Lemma findall_item_lines (items : list str) :
  Forall clean_item items ->
  forall n, 2 * length items <= n ->
            findall_fuel n item_re (concat (map item_line items)) = items.
Proof.
  induction 1 as [|it items Hit Hits IH]; intros n Hn.
  - apply findall_fuel_nil. reflexivity.
  - cbn [length] in Hn. destruct n as [|[|n]]; [lia|lia|].
    cbn [map concat]. set (tail := concat (map item_line items)) in *.
    pose proof (item_line_length it) as Hl.
    change (findall_fuel (S (S n)) item_re (item_line it ++ tail))
      with (let s := item_line it ++ tail in
            let next := match s with
                        | [] => []
                        | _ :: s' => findall_fuel (S n) item_re s'
                        end in
            match re_match item_re s with
            | Some (g, rest) =>
                group1 g :: (if length rest <? length s
                             then findall_fuel (S n) item_re rest else next)
            | None => next
            end).
    cbv zeta. rewrite (@item_re_match it tail Hit). cbn [group1]. f_equal.
    replace (length (NL :: tail) <? length (item_line it ++ tail)) with true
      by (symmetry; apply Nat.ltb_lt; rewrite length_app; cbn [length]; lia).
    cbn [findall_fuel].
    replace (re_match item_re (NL :: tail)) with (@None (option str * str))
      by reflexivity.
    apply IH. lia.
Qed.

(** X24.  A list section written as the prompts ask for it is read
    back as it was written: after the label, a colon and a line feed,
    items that are not empty, lie within one line and have no whitespace
    at their ends, each on a line of its own behind a hyphen and a
    space, are returned by [extract_list] unchanged and in order,
    whatever follows the section, provided that does not go on with a
    bullet. *)
Theorem extract_list_round_trip (label : str) (items : list str) (more : str) :
  items <> [] ->
  Forall clean_item items ->
  no_bullet_ahead more ->
  extract_list (list_section label items ++ more) label = items.
Proof.
  intros Hne Hi Hmore. unfold extract_list.
  rewrite (@search_here _ _ _ (@list_section_re_match label items more Hne Hi Hmore)).
  cbn [group1]. cbv zeta. unfold findall.
  rewrite (@findall_item_lines items Hi).
  - induction Hi as [|it items (Hn & _ & Hs) Hits IH]; [reflexivity|].
    cbn [filter]. rewrite Hs.
    destruct it as [|c t]; [contradiction|]. cbn [nonempty map].
    rewrite Hs. f_equal.
    destruct items as [|it' items']; [reflexivity|].
    apply IH. discriminate.
  - clear Hne. induction Hi as [|it items Hit Hits IH]; [cbn; lia|].
    cbn [map concat length]. rewrite length_app.
    pose proof (item_line_length it). cbn [length] in IH. lia.
Qed.

Lemma extract_list_round_trip_witness :
  extract_list
    (of_string "KEY_FACTS:" ++ [NL] ++ of_string "- first fact" ++ [NL]
     ++ of_string "- second" ++ [NL] ++ [NL] ++ of_string "STATISTICS:")
    (of_string "KEY_FACTS")
  = [of_string "first fact"; of_string "second"].
Proof.
  apply (@extract_list_round_trip
           (of_string "KEY_FACTS")
           [of_string "first fact"; of_string "second"]
           (NL :: of_string "STATISTICS:")).
  - discriminate.
  - repeat constructor; discriminate.
  - reflexivity.
Defined.
